(* ===================================================================== *)
(*  sysmon: delta/rate engine, GPU backend selector, event correlator    *)
(*  and sampling loop of src/monitoring/sysmon.py, embedded in Rocq.     *)
(*                                                                       *)
(*  Conventions of the embedding                                         *)
(*   - Python int is Z; Python float is Q (exact rationals: rounding of  *)
(*     IEEE doubles is not modelled; an int used where a float is        *)
(*     expected is injected).                                            *)
(*   - A Python dict that the code iterates is an association list in    *)
(*     insertion order; a dict that is only looked up and updated is a   *)
(*     gmap.                                                             *)
(*   - A call that can raise returns [outcome]; [Raise] carries the      *)
(*     name of the Python exception.                                     *)
(*   - The readers of /proc, NVML and nvidia-smi are the environment:    *)
(*     what they return (or raise) on a tick is an input of that tick.   *)
(*   - CSV rows are kept as lists of cells, not as formatted text; the   *)
(*     writes to the CSV files and to the terminal do not fail.          *)
(*   - The text of a file is a string of code points below U+0100; the   *)
(*     readers take the text, or the exception of read_file, as input;   *)
(*     int() and float() on a string and the subclass relation of the    *)
(*     exception classes are parameters of the readers.                  *)
(* ===================================================================== *)

From Stdlib Require Import QArith Qround Qabs Sorted Permutation Ascii String.
From stdpp Require Import base option list gmap strings.

(* --------------------------------------------------------------------- *)
(*  Exceptions                                                           *)
(* --------------------------------------------------------------------- *)

Inductive outcome (A : Type) : Type :=
  | Ok (a : A)
  | Raise (e : string).
Arguments Ok {A} a.
Arguments Raise {A} e.

#[global] Instance outcome_ret : MRet outcome := fun _ a => Ok a.
#[global] Instance outcome_bind : MBind outcome := fun _ _ f m =>
  match m with
  | Ok a => f a
  | Raise e => Raise e
  end.
#[global] Instance outcome_fmap : FMap outcome := fun _ _ f m =>
  match m with
  | Ok a => Ok (f a)
  | Raise e => Raise e
  end.

(* l[i] for a non-negative index *)
Definition py_index {A} (l : list A) (i : nat) : outcome A :=
  match l !! i with
  | Some x => Ok x
  | None => Raise "IndexError"
  end.

(* a / b on floats (or int / int, which is true division) *)
Definition py_div (a b : Q) : outcome Q :=
  if Qeq_bool b 0 then Raise "ZeroDivisionError" else Ok (a / b)%Q.

(* a < b on numbers *)
Definition Qltb (a b : Q) : bool := negb (Qle_bool b a).

(* min(a, b): the first argument unless the second is smaller *)
Definition py_min (a b : Q) : Q := if Qltb b a then b else a.

(* d[k] / "k in d" on an insertion-ordered dict *)
Fixpoint dict_get `{EqDecision K} {V} (k : K) (d : list (K * V)) : option V :=
  match d with
  | [] => None
  | (k', v) :: d' => if decide (k = k') then Some v else dict_get k d'
  end.

Definition Zsum (l : list Z) : Z := foldr Z.add 0%Z l.
Definition Qsum (l : list Q) : Q := foldr Qplus 0%Q l.

(* --------------------------------------------------------------------- *)
(*  fmt3: avg / max / p95 of a list of samples                           *)
(* --------------------------------------------------------------------- *)

(* sorted(lst): stable, ascending *)
Fixpoint insert_sorted (x : Q) (l : list Q) : list Q :=
  match l with
  | [] => [x]
  | y :: l' => if Qle_bool x y then x :: l else y :: insert_sorted x l'
  end.

Definition sorted (l : list Q) : list Q := foldr insert_sorted [] l.

(* max(lst) of a non-empty list: the first maximal element *)
Definition py_max (x : Q) (xs : list Q) : Q :=
  foldl (fun m y => if Qltb m y then y else m) x xs.

(* statistics.mean *)
Definition mean (l : list Q) : Q := (Qsum l / inject_Z (Z.of_nat (length l)))%Q.

(* int(n * 0.95): truncation of the product.  For a length n the double
   product n * 0.95 rounds to the same integer part as the exact one. *)
Definition p95_index (n : nat) : nat :=
  Z.to_nat (Qfloor (inject_Z (Z.of_nat n) * (95 # 100))).

Inductive summary : Type :=
  | NoData                              (* the text "—" *)
  | Summary (avg mx p95 : Q).           (* the text avg/max/p95 *)

Definition fmt3 (lst : list Q) : outcome summary :=
  match lst with
  | [] => Ok NoData
  | x :: xs =>
      if (length lst <? 2)%nat then Ok NoData
      else
        let avg := mean lst in
        let mx := py_max x xs in
        p95 ← (if (20 <? length lst)%nat
               then py_index (sorted lst) (p95_index (length lst))
               else Ok mx);
        Ok (Summary avg mx p95)
  end.

(* --------------------------------------------------------------------- *)
(*  CPU                                                                  *)
(* --------------------------------------------------------------------- *)

(* keys of the /proc/stat dict: "all" or the core number *)
Inductive cpu_key : Type :=
  | CpuAll
  | Cpu (n : Z).

#[global] Instance cpu_key_eq_dec : EqDecision cpu_key.
Proof. solve_decision. Defined.

Record cpu_pct : Type := mk_cpu_pct {
  user : Q; sys : Q; iowait : Q; irq : Q;
  softirq : Q; idle : Q; steal : Q; guest : Q
}.

Definition cpu_zero : cpu_pct := mk_cpu_pct 0 0 0 0 0 0 0 0.

(* [c[i] - p[i] for i in range(len(c))] *)
Definition tick_deltas (p c : list Z) : outcome (list Z) :=
  mapM (fun i => ci ← py_index c i; pi ← py_index p i; Ok (ci - pi)%Z)
       (seq 0 (length c)).

(* x / total * 100 with total a non-zero int *)
Definition pct (x total : Z) : Q := (inject_Z x / inject_Z total * 100)%Q.

(* body of the loop of cpu_delta for one key *)
Definition cpu_delta_core (p c : list Z) : outcome cpu_pct :=
  d ← tick_deltas p c;
  let total := Zsum d in
  if decide (total = 0%Z) then Ok cpu_zero
  else
    d0 ← py_index d 0; d1 ← py_index d 1;
    d2 ← py_index d 2; d3 ← py_index d 3; d4 ← py_index d 4;
    d5 ← py_index d 5; d6 ← py_index d 6; d7 ← py_index d 7;
    g ← (if (9 <? length d)%nat
         then d8 ← py_index d 8; d9 ← py_index d 9; Ok (pct (d8 + d9) total)
         else d8 ← py_index d 8; Ok (pct d8 total));
    Ok {| user := pct (d0 + d1) total; sys := pct d2 total;
          idle := pct d3 total; iowait := pct d4 total;
          irq := pct d5 total; softirq := pct d6 total;
          steal := pct d7 total; guest := g |}.

Fixpoint cpu_delta (prev curr : list (cpu_key * list Z))
  : outcome (list (cpu_key * cpu_pct)) :=
  match curr with
  | [] => Ok []
  | (key, c) :: curr' =>
      match dict_get key prev with
      | None => cpu_delta prev curr'
      | Some p =>
          v ← cpu_delta_core p c;
          rest ← cpu_delta prev curr';
          Ok ((key, v) :: rest)
      end
  end.

(* --------------------------------------------------------------------- *)
(*  Disk IO                                                              *)
(* --------------------------------------------------------------------- *)

Record disk_counters : Type := mk_disk_counters {
  reads : Z; sectors_read : Z; ms_reading : Z;
  writes : Z; sectors_written : Z; ms_writing : Z;
  ios_in_progress : Z; weighted_ms_io : Z
}.

Record disk_rate : Type := mk_disk_rate {
  r_per_s : Q; w_per_s : Q; rMB_per_s : Q; wMB_per_s : Q;
  avg_r_lat_ms : Q; avg_w_lat_ms : Q; io_util_pct : Q;
  rate_ios_in_progress : Z
}.

(* body of the loop of diskstat_delta for one device *)
Definition diskstat_delta_core (p c : disk_counters) (dt : Q)
  : outcome disk_rate :=
  let dr := (reads c - reads p)%Z in
  let dw := (writes c - writes p)%Z in
  let dsr := (sectors_read c - sectors_read p)%Z in
  let dsw := (sectors_written c - sectors_written p)%Z in
  let dmr := (ms_reading c - ms_reading p)%Z in
  let dmw := (ms_writing c - ms_writing p)%Z in
  let dwio := (weighted_ms_io c - weighted_ms_io p)%Z in
  rps ← py_div (inject_Z dr) dt;
  wps ← py_div (inject_Z dw) dt;
  rmb ← py_div (inject_Z (dsr * 512) / 1024 / 1024) dt;
  wmb ← py_div (inject_Z (dsw * 512) / 1024 / 1024) dt;
  let rlat := if (0 <? dr)%Z then (inject_Z dmr / inject_Z dr)%Q else 0%Q in
  let wlat := if (0 <? dw)%Z then (inject_Z dmw / inject_Z dw)%Q else 0%Q in
  u ← py_div (inject_Z dwio) (dt * 1000);
  Ok {| r_per_s := rps; w_per_s := wps;
        rMB_per_s := rmb; wMB_per_s := wmb;
        avg_r_lat_ms := rlat; avg_w_lat_ms := wlat;
        io_util_pct := py_min (u * 100) 100;
        rate_ios_in_progress := ios_in_progress c |}.

Fixpoint diskstat_delta (prev curr : list (string * disk_counters)) (dt : Q)
  : outcome (list (string * disk_rate)) :=
  match curr with
  | [] => Ok []
  | (dev, c) :: curr' =>
      match dict_get dev prev with
      | None => diskstat_delta prev curr' dt
      | Some p =>
          v ← diskstat_delta_core p c dt;
          rest ← diskstat_delta prev curr' dt;
          Ok ((dev, v) :: rest)
      end
  end.

(* --------------------------------------------------------------------- *)
(*  Lines printed to the terminal                                        *)
(* --------------------------------------------------------------------- *)

Inductive log_line : Type :=
  | NvmlQueryFailed (e : string)   (* "  NVML query failed: {e}" *)
  | NvmlSwitching (n : Z)          (* "  NVML failed {n}x, switching to nvidia-smi" *)
  | ErrorLine (what e : string)    (* "  [ERROR] {what} failed: {e}" *)
  | ProgressLine (samples : Z).    (* "  {elapsed}s / {DURATION}s  ({n} samples)" *)

(* --------------------------------------------------------------------- *)
(*  Strings                                                              *)
(* --------------------------------------------------------------------- *)

(* s.replace(old, new) for a non-empty old: [skip] counts the characters
   of a match that are still to be dropped *)
Fixpoint str_replace_from (old new : string) (skip : nat) (s : string) : string :=
  match s with
  | EmptyString => EmptyString
  | String a s' =>
      match skip with
      | S k => str_replace_from old new k s'
      | O =>
          if String.prefix old s
          then new +:+ str_replace_from old new (String.length old - 1) s'
          else String a (str_replace_from old new 0 s')
      end
  end.

Definition str_replace (old new s : string) : string :=
  str_replace_from old new 0 s.

(* s.split(",") *)
Fixpoint split_comma_from (acc : string) (s : string) : list string :=
  match s with
  | EmptyString => [String.rev acc]
  | String a s' =>
      if Ascii.eqb a ","%char
      then String.rev acc :: split_comma_from EmptyString s'
      else split_comma_from (String a acc) s'
  end.

Definition split_comma (s : string) : list string :=
  split_comma_from EmptyString s.

Definition is_space (a : ascii) : bool :=
  let n := Ascii.nat_of_ascii a in
  (n =? 32)%nat || ((9 <=? n)%nat && (n <=? 13)%nat).

Fixpoint lstrip (s : string) : string :=
  match s with
  | EmptyString => EmptyString
  | String a s' => if is_space a then lstrip s' else s
  end.

(* s.strip() *)
Definition strip (s : string) : string :=
  String.rev (lstrip (String.rev (lstrip s))).

(* --------------------------------------------------------------------- *)
(*  GPU backend                                                          *)
(* --------------------------------------------------------------------- *)

(* the module globals that get_vram reads and writes *)
Record gpu_state : Type := mk_gpu_state {
  USE_NVML : bool;
  NVML_FAIL_COUNT : Z;
  GPU_BACKEND : string
}.

Definition NVML_FAIL_MAX : Z := 3.

(* the nvidia-smi path of get_vram; [smi] is what check_output gives,
   decoded and stripped, or the exception it raises *)
Definition nvidia_smi_query (smi : outcome string) : string * list log_line :=
  match smi with
  | Ok out =>
      if String.eqb out "" then ("", [])
      else (out +:+ ", 0, 0, 0", [])
  | Raise e => ("", [ErrorLine "nvidia-smi" e])
  end.

(* [nvml] is the result of the NVML query sequence of the try body: the
   formatted line, or the exception of one of the mandatory queries *)
Definition get_vram (g : gpu_state) (nvml smi : outcome string)
  : gpu_state * string * list log_line :=
  if String.eqb (GPU_BACKEND g) "disabled" then (g, "", [])
  else if USE_NVML g then
    match nvml with
    | Ok line =>
        (mk_gpu_state (USE_NVML g) 0 (GPU_BACKEND g), line, [])
    | Raise e =>
        let n := (NVML_FAIL_COUNT g + 1)%Z in
        let log1 := if (n =? 1)%Z then [NvmlQueryFailed e] else [] in
        let '(g', log2) :=
          if (NVML_FAIL_MAX <=? n)%Z
          then (mk_gpu_state false n
                  (str_replace "NVML" "nvidia-smi (NVML fallback)" (GPU_BACKEND g)),
                [NvmlSwitching n])
          else (mk_gpu_state (USE_NVML g) n (GPU_BACKEND g), []) in
        let '(out, log3) := nvidia_smi_query smi in
        (g', out, log1 ++ log2 ++ log3)
    end
  else
    let '(out, log) := nvidia_smi_query smi in (g, out, log).

(* one slow-tier query after the other *)
Fixpoint gpu_run (g : gpu_state) (qs : list (outcome string * outcome string))
  : gpu_state :=
  match qs with
  | [] => g
  | (nvml, smi) :: qs' => gpu_run (get_vram g nvml smi).1.1 qs'
  end.

(* the first k queries of the history fail on NVML *)
Fixpoint fails_first (k : nat) (qs : list (outcome string * outcome string))
  : Prop :=
  match k with
  | O => True
  | S k' =>
      match qs with
      | (Raise _, _) :: qs' => fails_first k' qs'
      | _ => False
      end
  end.

(* somewhere in the history three queries in a row fail on NVML *)
Fixpoint three_in_a_row (qs : list (outcome string * outcome string)) : Prop :=
  fails_first 3 qs ∨
  match qs with
  | [] => False
  | _ :: qs' => three_in_a_row qs'
  end.

(* --------------------------------------------------------------------- *)
(*  Correlation with X-Plane events                                      *)
(* --------------------------------------------------------------------- *)

(* (unix_ts, category, message) *)
Definition xp_event : Type := Q * string * string.
(* (csv_ts, csv_val, nearby_events) *)
Definition hit : Type := Q * Q * list xp_event.

Section correlate.
(* float(s) on a CSV cell; None is ValueError *)
Variable float : string → option Q.

Definition in_window (ts window : Q) (e : xp_event) : bool :=
  Qle_bool (Qabs (e.1.1 - ts)) window.

(* body of the loop over the rows of the file *)
Definition row_hit (events : list xp_event) (ts_col : nat)
    (val_col : option nat) (threshold : option Q) (window : Q)
    (row : list string) : option hit :=
  if (length row <=? Nat.max ts_col (default 0%nat val_col))%nat then None
  else
    ts ← row !! ts_col ≫= float;
    val ← match val_col with
          | Some vc => row !! vc ≫= float
          | None => Some 0%Q
          end;
    if match threshold with
       | Some thr => Qltb val thr
       | None => false
       end
    then None
    else
      let nearby := filter (fun e => in_window ts window e = true) events in
      match nearby with
      | [] => None
      | _ :: _ => Some (ts, val, nearby)
      end.

(* [csv] is the content of csv_path as csv.reader yields it, header
   first; None when the path does not exist *)
Definition correlate_events (csv : option (list (list string)))
    (events : list xp_event) (ts_col : nat) (val_col : option nat)
    (threshold : option Q) (window : Q) : list hit * list log_line :=
  match events, csv with
  | [], _ | _, None => ([], [])
  | _ :: _, Some [] => ([], [ErrorLine "correlate_events" "StopIteration"])
  | _ :: _, Some (header :: rows) =>
      (omap (row_hit events ts_col val_col threshold window) rows, [])
  end.
End correlate.

(* float(s) restricted to unsigned decimal integers: enough to run the
   examples; every other string is a ValueError *)
Fixpoint digits_value (acc : Z) (s : string) : option Z :=
  match s with
  | EmptyString => Some acc
  | String a s' =>
      let n := Ascii.nat_of_ascii a in
      if ((48 <=? n)%nat && (n <=? 57)%nat)%bool
      then digits_value (acc * 10 + Z.of_nat (n - 48)) s'
      else None
  end.

Definition float_of_digits (s : string) : option Q :=
  match s with
  | EmptyString => None
  | _ => inject_Z <$> digits_value 0 s
  end.

(* --------------------------------------------------------------------- *)
(*  Sinks: CSV files, Stats lists, terminal                              *)
(* --------------------------------------------------------------------- *)

(* The CSV files of CSVWriters, the lists of Stats and the terminal are
   append-only: what a run has produced is the sequence of its appends in
   program order.  The content of one file, or of one Stats list, is the
   projection of that sequence. *)

Inductive stream : Type :=
  | cpu_csv | mem_csv | io_csv | vram_csv | irq_csv
  | proc_csv | vmstat_csv | psi_csv | freq_csv.

#[global] Instance stream_eq_dec : EqDecision stream.
Proof. solve_decision. Defined.

(* a CSV cell before formatting *)
Inductive cell : Type :=
  | CNum (q : Q)
  | CInt (z : Z)
  | CStr (s : string).

Definition row : Type := list cell.

(* the lists held by a Stats object *)
Inductive stat_list : Type :=
  | cpu_stat (cpu_id : cpu_key) (metric : string)   (* stats.cpu[cpu_id][metric] *)
  | freq_stat (i : nat)                             (* stats.freq[i] *)
  | mem_stat (metric : string)                      (* stats.mem[metric] *)
  | io_stat (dev metric : string)                   (* stats.io[dev][metric] *)
  | gpu_stat (metric : string)                      (* stats.gpu[metric] *)
  | vm_stat (metric : string)                       (* stats.vm[metric] *)
  | psi_stat (metric : string)                      (* stats.psi[metric] *)
  | proc_stat (name metric : string).               (* stats.proc[name][metric] *)

#[global] Instance stat_list_eq_dec : EqDecision stat_list.
Proof. solve_decision. Defined.

Inductive effect : Type :=
  | Csv (f : stream) (r : row)                 (* f.write(row) *)
  | Append (l : stat_list) (v : Q)             (* l.append(v) *)
  | IrqTotals (irq : string) (delta : list Z)  (* stats.irq_totals[irq][i] += delta[i] *)
  | IrqDesc (irq desc : string)                (* stats.irq_descs[irq] = desc *)
  | Print (l : log_line).                      (* print(...) *)

(* rows of one CSV file, header excluded *)
Definition csv_rows (f : stream) (out : list effect) : list row :=
  omap (fun e => match e with
                 | Csv f' r => if decide (f = f') then Some r else None
                 | _ => None
                 end) out.

(* content of one Stats list *)
Definition stat_values (l : stat_list) (out : list effect) : list Q :=
  omap (fun e => match e with
                 | Append l' v => if decide (l = l') then Some v else None
                 | _ => None
                 end) out.

Definition printed (out : list effect) : list log_line :=
  omap (fun e => match e with Print l => Some l | _ => None end) out.

(* --------------------------------------------------------------------- *)
(*  Code of a try block: local state, exceptions, appends to the sinks   *)
(* --------------------------------------------------------------------- *)

(* A raise keeps the assignments and the appends made before it. *)
Definition blk (S A : Type) : Type := S → outcome A * S * list effect.

#[global] Instance blk_ret {S} : MRet (blk S) := fun _ a s => (Ok a, s, []).
#[global] Instance blk_bind {S} : MBind (blk S) := fun _ _ f m s =>
  match m s with
  | (Ok a, s', o) => let '(r, s'', o') := f a s' in (r, s'', o ++ o')
  | (Raise e, s', o) => (Raise e, s', o)
  end.

Definition lift {S A} (m : outcome A) : blk S A := fun s => (m, s, []).
Definition get {S} : blk S S := fun s => (Ok s, s, []).
Definition put {S} (s : S) : blk S unit := fun _ => (Ok tt, s, []).
Definition emit {S} (e : effect) : blk S unit := fun s => (Ok tt, s, [e]).
Definition emits {S} (es : list effect) : blk S unit := fun s => (Ok tt, s, es).

Fixpoint for_each {S A} (f : A → blk S unit) (l : list A) : blk S unit :=
  match l with
  | [] => mret tt
  | a :: l' => f a ;; for_each f l'
  end.

(* try: body  except Exception as e: print("  [ERROR] {what} failed: {e}") *)
Definition try_except {S} (what : string) (body : blk S unit) (s : S)
  : S * list effect :=
  match body s with
  | (Ok _, s', o) => (s', o)
  | (Raise e, s', o) => (s', o ++ [Print (ErrorLine what e)])
  end.

(* --------------------------------------------------------------------- *)
(*  Snapshots of the slow-tier readers                                   *)
(* --------------------------------------------------------------------- *)

Record irq_entry : Type := mk_irq_entry { counts : list Z; desc : string }.
Record irq_change : Type := mk_irq_change { delta : list Z; delta_desc : string }.

Record psi_avgs : Type := mk_psi_avgs {
  some_avg10 : Q; some_avg60 : Q; full_avg10 : Q; full_avg60 : Q
}.
Record psi_snap : Type := mk_psi_snap {
  psi_cpu : psi_avgs; psi_memory : psi_avgs; psi_io : psi_avgs
}.

Record proc_stats : Type := mk_proc_stats {
  utime : Z; stime : Z; num_threads : Z;
  read_bytes : Z; write_bytes : Z; rss_kb : Z
}.

(* sum_prefix(d, prefix) *)
Definition sum_prefix (d : list (string * Z)) (prefix : string) : Z :=
  Zsum (map snd (filter (fun kv => String.prefix prefix kv.1 = true) d)).

(* d.get(k, 0) *)
Definition dict_get0 (d : list (string * Z)) (k : string) : Z :=
  default 0%Z (dict_get k d).

(* d[k] *)
Definition dict_item (d : list (string * Z)) (k : string) : outcome Z :=
  match dict_get k d with
  | Some v => Ok v
  | None => Raise "KeyError"
  end.

(* d.pop(k, None) *)
Definition dict_pop `{EqDecision K} {V} (k : K) (d : list (K * V)) : list (K * V) :=
  filter (fun kv => kv.1 ≠ k) d.

Section interrupts.
Variable NUM_CPUS : nat.

(* [curr[irq]["counts"][i] - prev[irq]["counts"][i] for i in range(NUM_CPUS)] *)
Definition irq_deltas (p c : irq_entry) : outcome (list Z) :=
  mapM (fun i => ci ← py_index (counts c) i; pi ← py_index (counts p) i;
                 Ok (ci - pi)%Z)
       (seq 0 NUM_CPUS).

Fixpoint interrupt_delta (prev curr : list (string * irq_entry))
  : outcome (list (string * irq_change)) :=
  match curr with
  | [] => Ok []
  | (irq, c) :: curr' =>
      match dict_get irq prev with
      | None => interrupt_delta prev curr'
      | Some p =>
          d ← irq_deltas p c;
          rest ← interrupt_delta prev curr';
          if (0 <? Zsum d)%Z
          then Ok ((irq, mk_irq_change d (desc c)) :: rest)
          else Ok rest
      end
  end.
End interrupts.

(* --------------------------------------------------------------------- *)
(*  CSVWriters.write_*: the row of each family, in column order          *)
(* --------------------------------------------------------------------- *)

Definition cpu_cell (k : cpu_key) : cell :=
  match k with
  | CpuAll => CStr "all"
  | Cpu n => CInt n
  end.

Definition write_cpu (ts : Q) (cpu_id : cpu_key) (v : cpu_pct) : effect :=
  Csv cpu_csv [CNum ts; cpu_cell cpu_id; CNum (user v); CNum (sys v);
               CNum (iowait v); CNum (irq v); CNum (softirq v);
               CNum (idle v); CNum (steal v); CNum (guest v)].

Definition write_io (ts : Q) (dev : string) (v : disk_rate) : effect :=
  Csv io_csv [CNum ts; CStr dev; CNum (r_per_s v); CNum (w_per_s v);
              CNum (rMB_per_s v); CNum (wMB_per_s v);
              CNum (avg_r_lat_ms v); CNum (avg_w_lat_ms v);
              CNum (io_util_pct v); CInt (rate_ios_in_progress v)].

Definition write_mem (ts total used free avail buffers cached
                      swap_used swap_free dirty writeback : Q) : effect :=
  Csv mem_csv (map CNum [ts; total; used; free; avail; buffers; cached;
                         swap_used; swap_free; dirty; writeback]).

Definition write_irq (ts : Q) (irq desc : string) (rate : list Q) : effect :=
  Csv irq_csv ([CNum ts; CStr irq; CStr desc; CNum (Qsum rate)] ++ map CNum rate).

Definition write_vram (ts : Q) (raw : string) : effect :=
  Csv vram_csv [CNum ts; CStr raw].

Definition write_vmstat (ts ctxt pgfault pgmajfault pgscan_k pgscan_d
                         pgsteal_k pgsteal_d alloc compact tlb : Q)
                        (nr_dirty nr_wb : Z)
                        (pswpin pswpout wset_anon wset_file thp_fallback : Q)
  : effect :=
  Csv vmstat_csv
      (map CNum [ts; ctxt; pgfault; pgmajfault; pgscan_k; pgscan_d;
                 pgsteal_k; pgsteal_d; alloc; compact; tlb]
       ++ [CInt nr_dirty; CInt nr_wb]
       ++ map CNum [pswpin; pswpout; wset_anon; wset_file; thp_fallback]).

Definition write_psi (ts : Q) (psi : psi_snap) : effect :=
  Csv psi_csv
      (map CNum [ts;
                 some_avg10 (psi_cpu psi); some_avg60 (psi_cpu psi);
                 some_avg10 (psi_memory psi); some_avg60 (psi_memory psi);
                 full_avg10 (psi_memory psi); full_avg60 (psi_memory psi);
                 some_avg10 (psi_io psi); some_avg60 (psi_io psi);
                 full_avg10 (psi_io psi); full_avg60 (psi_io psi)]).

Definition write_freq (ts : Q) (freqs : list Q) : effect :=
  Csv freq_csv (CNum ts :: map CNum freqs).

Definition write_proc (ts : Q) (pid : Z) (name : string)
    (cpu_pct rss_mb io_r io_w : Q) (threads : Z) : effect :=
  Csv proc_csv [CNum ts; CInt pid; CStr name; CNum cpu_pct; CNum rss_mb;
                CNum io_r; CNum io_w; CInt threads].

(* the PID a row of proc.csv is about *)
Definition row_pid (r : row) : option Z :=
  match r !! 1%nat with
  | Some (CInt pid) => Some pid
  | _ => None
  end.

(* the rows of proc.csv about one PID *)
Definition proc_rows_of (pid : Z) (out : list effect) : list row :=
  filter (fun r => row_pid r = Some pid) (csv_rows proc_csv out).

(* --------------------------------------------------------------------- *)
(*  collect: the sampling loop                                           *)
(* --------------------------------------------------------------------- *)

(* tracked_pids, prev_proc, last_proc_scan *)
Record proc_tracker : Type := mk_proc_tracker {
  tracked_pids : list (Z * string);
  prev_proc : gmap Z proc_stats;
  last_proc_scan : Q
}.

(* the locals of collect and the module globals of the GPU backend that
   live across iterations, and what the run has written so far *)
Record loop_state : Type := mk_loop_state {
  prev_cpu : list (cpu_key * list Z);
  prev_ctxt : Z;
  curr_ctxt : option Z;             (* None: the local is not bound yet *)
  prev_disk : list (string * disk_counters);
  prev_irq : list (string * irq_entry);
  prev_vmstat : list (string * Z);
  prev_time : Q;
  tracker : proc_tracker;
  sample_count : Z;
  irq_sample_count : Z;
  last_slow : Q;
  gpu : gpu_state;
  out : list effect
}.

(* what the clocks and the readers give on one iteration of the loop *)
Record probe : Type := mk_probe {
  now_mono : Q;                                        (* time.monotonic() *)
  ts : Q;                                              (* time.time() *)
  parse_cpu_stat : outcome (list (cpu_key * list Z) * Z);
  parse_diskstats : outcome (list (string * disk_counters));
  parse_meminfo : outcome (list (string * Z));
  parse_interrupts : outcome (list (string * irq_entry));
  nvml_query : outcome string;
  nvidia_smi : outcome string;
  parse_vmstat : outcome (list (string * Z));
  parse_psi : outcome psi_snap;
  parse_cpu_freq : outcome (list Q);
  find_tracked_procs : outcome (list (Z * string));
  read_proc_stats : Z → outcome (option proc_stats)
}.

Definition PROC_SCAN_INTERVAL : Q := 5.

Section collect.
Variable NUM_CPUS : nat.                  (* os.cpu_count() *)
Variable CLK_TCK : Z.                     (* os.sysconf("SC_CLK_TCK") *)
Variable float : string → option Q.       (* float(s); None is ValueError *)

Local Open Scope Q_scope.

Definition py_float (s : string) : outcome Q :=
  match float s with
  | Some q => Ok q
  | None => Raise "ValueError"
  end.

(* CPU (every sample); local state: prev_cpu, curr_ctxt *)
Definition sample_cpu (ts : Q) (rd : outcome (list (cpu_key * list Z) * Z))
  : blk (list (cpu_key * list Z) * option Z) unit :=
  '(curr_cpu, ctxt) ← lift rd;
  '(prev_cpu, _) ← get;
  put (prev_cpu, Some ctxt);;
  cd ← lift (cpu_delta prev_cpu curr_cpu);
  for_each (fun '(cpu_id, v) =>
    emits [write_cpu ts cpu_id v;
           Append (cpu_stat cpu_id "user") (user v);
           Append (cpu_stat cpu_id "sys") (sys v);
           Append (cpu_stat cpu_id "iowait") (iowait v);
           Append (cpu_stat cpu_id "irq") (irq v + softirq v);
           Append (cpu_stat cpu_id "guest") (guest v);
           Append (cpu_stat cpu_id "idle") (idle v)]) cd;;
  put (curr_cpu, Some ctxt).

(* Disk IO (every sample); local state: prev_disk *)
Definition sample_disk (ts dt : Q) (rd : outcome (list (string * disk_counters)))
  : blk (list (string * disk_counters)) unit :=
  curr_disk ← lift rd;
  prev_disk ← get;
  dd ← lift (diskstat_delta prev_disk curr_disk dt);
  for_each (fun '(dev, v) =>
    emits [write_io ts dev v;
           Append (io_stat dev "rMB_per_s") (rMB_per_s v);
           Append (io_stat dev "wMB_per_s") (wMB_per_s v);
           Append (io_stat dev "r_lat") (avg_r_lat_ms v);
           Append (io_stat dev "w_lat") (avg_w_lat_ms v);
           Append (io_stat dev "util") (io_util_pct v)]) dd;;
  put curr_disk.

(* Memory (every sample) *)
Definition sample_mem (ts : Q) (rd : outcome (list (string * Z)))
  : blk unit unit :=
  mi ← lift rd;
  let mb (x : Z) : Q := inject_Z x / 1024 in
  total ← lift (mb <$> dict_item mi "MemTotal");
  free ← lift (mb <$> dict_item mi "MemFree");
  avail ← lift (mb <$> dict_item mi "MemAvailable");
  buffers ← lift (mb <$> dict_item mi "Buffers");
  cached ← lift (mb <$> dict_item mi "Cached");
  let used := total - free - buffers - cached in
  swap_total ← lift (mb <$> dict_item mi "SwapTotal");
  swap_free ← lift (mb <$> dict_item mi "SwapFree");
  let swap_used := swap_total - swap_free in
  let dirty := mb (dict_get0 mi "Dirty") in
  let writeback := mb (dict_get0 mi "Writeback") in
  emits [write_mem ts total used free avail buffers cached
                   swap_used swap_free dirty writeback;
         Append (mem_stat "used") used;
         Append (mem_stat "avail") avail;
         Append (mem_stat "swap_used") swap_used;
         Append (mem_stat "dirty") dirty;
         Append (mem_stat "writeback") writeback].

(* Interrupts; local state: prev_irq, irq_sample_count.  slow_dt >= 1
   in the slow tier, so x / slow_dt does not raise *)
Definition sample_irq (ts slow_dt : Q) (rd : outcome (list (string * irq_entry)))
  : blk (list (string * irq_entry) * Z) unit :=
  curr_irq ← lift rd;
  '(prev_irq, n) ← get;
  irq_d ← lift (interrupt_delta NUM_CPUS prev_irq curr_irq);
  for_each (fun '(irq, iv) =>
    let rate := map (fun x => inject_Z x / slow_dt) (delta iv) in
    emits [write_irq ts irq (delta_desc iv) rate;
           IrqTotals irq (delta iv);
           IrqDesc irq (delta_desc iv)]) irq_d;;
  put (curr_irq, (n + 1)%Z).

(* VRAM / GPU; local state: the globals of the GPU backend *)
Definition sample_vram (ts : Q) (nvml smi : outcome string)
  : blk gpu_state unit :=
  g ← get;
  let '(g', vram, log) := get_vram g nvml smi in
  put g';;
  emits (map Print log);;
  if String.eqb vram "" then mret tt
  else
    emit (write_vram ts vram);;
    let parts := map strip (split_comma vram) in
    used ← lift (py_index parts 0 ≫= py_float);
    emit (Append (gpu_stat "used") used);;
    util ← lift (py_index parts 4 ≫= py_float);
    emit (Append (gpu_stat "util") util);;
    if (9 <=? length parts)%nat
    then
      clock ← lift (py_index parts 6 ≫= py_float);
      emit (Append (gpu_stat "clock") clock);;
      power ← lift (py_index parts 8 ≫= py_float);
      emit (Append (gpu_stat "power") power)
    else mret tt.

(* vmstat; local state: prev_vmstat, prev_ctxt.  curr_ctxt is the local
   that the CPU block binds *)
Definition sample_vmstat (ts slow_dt : Q) (curr_ctxt : option Z)
    (rd : outcome (list (string * Z)))
  : blk (list (string * Z) * Z) unit :=
  curr_vmstat ← lift rd;
  '(prev_vmstat, prev_ctxt) ← get;
  cc ← lift (match curr_ctxt with
             | Some c => Ok c
             | None => Raise "UnboundLocalError"
             end);
  let per_s (x : Z) : Q := inject_Z x / slow_dt in
  let by_key k := per_s (dict_get0 curr_vmstat k - dict_get0 prev_vmstat k)%Z in
  let by_prefix k :=
    per_s (sum_prefix curr_vmstat k - sum_prefix prev_vmstat k)%Z in
  let v_ctxt := per_s (cc - prev_ctxt)%Z in
  let v_pgfault := by_key "pgfault" in
  let v_pgmajfault := by_key "pgmajfault" in
  let v_pgscan_k := by_prefix "pgscan_kswapd" in
  let v_pgscan_d := by_prefix "pgscan_direct" in
  let v_pgsteal_k := by_prefix "pgsteal_kswapd" in
  let v_pgsteal_d := by_prefix "pgsteal_direct" in
  let v_alloc := by_prefix "allocstall" in
  let v_compact := by_key "compact_stall" in
  let tlb_curr := (dict_get0 curr_vmstat "nr_tlb_remote_flush"
                   + dict_get0 curr_vmstat "nr_tlb_remote_flush_received")%Z in
  let tlb_prev := (dict_get0 prev_vmstat "nr_tlb_remote_flush"
                   + dict_get0 prev_vmstat "nr_tlb_remote_flush_received")%Z in
  let v_tlb := per_s (tlb_curr - tlb_prev)%Z in
  let nr_dirty := dict_get0 curr_vmstat "nr_dirty" in
  let nr_wb := dict_get0 curr_vmstat "nr_writeback" in
  let v_pswpin := by_key "pswpin" in
  let v_pswpout := by_key "pswpout" in
  let v_wset_anon := by_key "workingset_refault_anon" in
  let v_wset_file := by_key "workingset_refault_file" in
  let v_thp_fallback := by_key "thp_fault_fallback" in
  emits [write_vmstat ts v_ctxt v_pgfault v_pgmajfault v_pgscan_k v_pgscan_d
                      v_pgsteal_k v_pgsteal_d v_alloc v_compact v_tlb
                      nr_dirty nr_wb v_pswpin v_pswpout
                      v_wset_anon v_wset_file v_thp_fallback;
         Append (vm_stat "ctxt") v_ctxt;
         Append (vm_stat "pgfault") v_pgfault;
         Append (vm_stat "pgmajfault") v_pgmajfault;
         Append (vm_stat "pgscan_kswapd") v_pgscan_k;
         Append (vm_stat "pgscan_direct") v_pgscan_d;
         Append (vm_stat "pgsteal_kswapd") v_pgsteal_k;
         Append (vm_stat "pgsteal_direct") v_pgsteal_d;
         Append (vm_stat "allocstall") v_alloc;
         Append (vm_stat "compact_stall") v_compact;
         Append (vm_stat "tlb") v_tlb;
         Append (vm_stat "pswpin") v_pswpin;
         Append (vm_stat "pswpout") v_pswpout;
         Append (vm_stat "wset_refault_anon") v_wset_anon;
         Append (vm_stat "wset_refault_file") v_wset_file;
         Append (vm_stat "thp_fault_fallback") v_thp_fallback];;
  put (curr_vmstat, cc).

(* PSI *)
Definition sample_psi (ts : Q) (rd : outcome psi_snap) : blk unit unit :=
  psi ← lift rd;
  emits [write_psi ts psi;
         Append (psi_stat "cpu_some10") (some_avg10 (psi_cpu psi));
         Append (psi_stat "mem_some10") (some_avg10 (psi_memory psi));
         Append (psi_stat "mem_full10") (full_avg10 (psi_memory psi));
         Append (psi_stat "io_some10") (some_avg10 (psi_io psi));
         Append (psi_stat "io_full10") (full_avg10 (psi_io psi))].

(* CPU frequency *)
Definition sample_freq (ts : Q) (rd : outcome (list Q)) : blk unit unit :=
  freqs ← lift rd;
  emit (write_freq ts freqs);;
  emits (mjoin (imap (fun i fq =>
                  if Qltb 0 fq then [Append (freq_stat i) fq] else []) freqs)).

(* body of the loop over list(tracked_pids.items()) *)
Definition track_one (ts slow_dt : Q)
    (read : Z → outcome (option proc_stats)) (item : Z * string)
  : blk proc_tracker unit :=
  let '(pid, name) := item in
  r ← lift (read pid);
  t ← get;
  match r with
  | None =>
      put (mk_proc_tracker (dict_pop pid (tracked_pids t))
                           (delete pid (prev_proc t))
                           (last_proc_scan t))
  | Some pstats =>
      let rss_mb : Q := inject_Z (rss_kb pstats) / 1024 in
      match prev_proc t !! pid with
      | Some pp =>
          let d_u := (utime pstats - utime pp)%Z in
          let d_s := (stime pstats - stime pp)%Z in
          ticks ← lift (py_div (inject_Z (d_u + d_s)) (inject_Z CLK_TCK));
          let cpu_pct : Q := ticks / slow_dt * 100 in
          let d_rb := (read_bytes pstats - read_bytes pp)%Z in
          let d_wb := (write_bytes pstats - write_bytes pp)%Z in
          let io_r : Q := inject_Z d_rb / 1024 / 1024 / slow_dt in
          let io_w : Q := inject_Z d_wb / 1024 / 1024 / slow_dt in
          emits [write_proc ts pid name cpu_pct rss_mb io_r io_w
                            (num_threads pstats);
                 Append (proc_stat name "cpu") cpu_pct;
                 Append (proc_stat name "rss") rss_mb;
                 Append (proc_stat name "io_r") io_r;
                 Append (proc_stat name "io_w") io_w;
                 Append (proc_stat name "threads") (inject_Z (num_threads pstats))]
      | None => mret tt
      end;;
      put (mk_proc_tracker (tracked_pids t)
                           (<[pid := pstats]> (prev_proc t))
                           (last_proc_scan t))
  end.

(* the rescan of the process table, every PROC_SCAN_INTERVAL seconds *)
Definition rescan (now_mono : Q) (scan : outcome (list (Z * string)))
  : blk proc_tracker unit :=
  t ← get;
  if Qle_bool PROC_SCAN_INTERVAL (now_mono - last_proc_scan t)
  then found ← lift scan;
       put (mk_proc_tracker found (prev_proc t) now_mono)
  else mret tt.

(* Per-process tracking *)
Definition sample_procs (ts now_mono slow_dt : Q)
    (scan : outcome (list (Z * string)))
    (read : Z → outcome (option proc_stats))
  : blk proc_tracker unit :=
  rescan now_mono scan;;
  t ← get;
  for_each (track_one ts slow_dt read) (tracked_pids t).

(* the 1-second probes, run when slow_dt >= 1.0 *)
Definition slow_probes (st : loop_state) (e : probe) (curr_ctxt : option Z)
    (slow_dt : Q)
  : list (string * irq_entry) * Z * gpu_state * (list (string * Z) * Z)
    * proc_tracker * list effect :=
  let '((prev_irq', irq_sample_count'), o_irq) :=
    try_except "IRQ sample"
      (sample_irq (ts e) slow_dt (parse_interrupts e))
      (prev_irq st, irq_sample_count st) in
  let '(gpu', o_vram) :=
    try_except "VRAM sample"
      (sample_vram (ts e) (nvml_query e) (nvidia_smi e)) (gpu st) in
  let '(vm', o_vmstat) :=
    try_except "vmstat sample"
      (sample_vmstat (ts e) slow_dt curr_ctxt (parse_vmstat e))
      (prev_vmstat st, prev_ctxt st) in
  let '(_, o_psi) :=
    try_except "PSI sample" (sample_psi (ts e) (parse_psi e)) tt in
  let '(_, o_freq) :=
    try_except "CPU freq sample" (sample_freq (ts e) (parse_cpu_freq e)) tt in
  let '(tracker', o_proc) :=
    try_except "Process tracking"
      (sample_procs (ts e) (now_mono e) slow_dt
                    (find_tracked_procs e) (read_proc_stats e))
      (tracker st) in
  (prev_irq', irq_sample_count', gpu', vm', tracker',
   o_irq ++ o_vram ++ o_vmstat ++ o_psi ++ o_freq ++ o_proc).

(* one iteration of the while loop, after time.sleep(INTERVAL) *)
Definition collect_step (st : loop_state) (e : probe) : loop_state :=
  let dt := now_mono e - prev_time st in
  if Qltb dt (5 # 100) then st                          (* continue *)
  else
    let '((prev_cpu', curr_ctxt'), o_cpu) :=
      try_except "CPU sample" (sample_cpu (ts e) (parse_cpu_stat e))
                 (prev_cpu st, curr_ctxt st) in
    let '(prev_disk', o_disk) :=
      try_except "IO sample" (sample_disk (ts e) dt (parse_diskstats e))
                 (prev_disk st) in
    let '(_, o_mem) :=
      try_except "Memory sample" (sample_mem (ts e) (parse_meminfo e)) tt in
    let slow_dt := now_mono e - last_slow st in
    let '(prev_irq', irq_sample_count', gpu', (prev_vmstat', prev_ctxt'),
          tracker', o_slow, last_slow') :=
      if Qle_bool 1 slow_dt
      then (slow_probes st e curr_ctxt' slow_dt, now_mono e)
      else (prev_irq st, irq_sample_count st, gpu st,
            (prev_vmstat st, prev_ctxt st), tracker st, [], last_slow st) in
    let sample_count' := (sample_count st + 1)%Z in
    let o_progress :=
      if decide (sample_count' `mod` 300 = 0)%Z
      then [Print (ProgressLine sample_count')] else [] in
    {| prev_cpu := prev_cpu'; prev_ctxt := prev_ctxt';
       curr_ctxt := curr_ctxt'; prev_disk := prev_disk';
       prev_irq := prev_irq'; prev_vmstat := prev_vmstat';
       prev_time := now_mono e; tracker := tracker';
       sample_count := sample_count';
       irq_sample_count := irq_sample_count';
       last_slow := last_slow'; gpu := gpu';
       out := out st ++ o_cpu ++ o_disk ++ o_mem ++ o_slow ++ o_progress |}.

(* the state before the first iteration; the first reads are not
   guarded: an exception there ends collect *)
Definition collect_init (g : gpu_state)
    (cpu0 : outcome (list (cpu_key * list Z) * Z))
    (disk0 : outcome (list (string * disk_counters)))
    (irq0 : outcome (list (string * irq_entry)))
    (vmstat0 : outcome (list (string * Z)))
    (mono0 mono1 : Q) : outcome loop_state :=
  '(prev_cpu, prev_ctxt) ← cpu0;
  prev_disk ← disk0;
  prev_irq ← irq0;
  prev_vmstat ← vmstat0;
  Ok {| prev_cpu := prev_cpu; prev_ctxt := prev_ctxt; curr_ctxt := None;
        prev_disk := prev_disk; prev_irq := prev_irq;
        prev_vmstat := prev_vmstat; prev_time := mono0;
        tracker := mk_proc_tracker [] ∅ 0;
        sample_count := 0; irq_sample_count := 0;
        last_slow := mono1; gpu := g; out := [] |}.

(* the iterations of the loop, one probe each *)
Definition collect (st : loop_state) (es : list probe) : loop_state :=
  foldl collect_step st es.
End collect.

(* --------------------------------------------------------------------- *)
(*  Which source an append belongs to                                    *)
(* --------------------------------------------------------------------- *)

(* the sampling block an append to a CSV file or to a Stats list comes
   from, named by its CSV file; None for a line on the terminal *)
Definition effect_source (e : effect) : option stream :=
  match e with
  | Csv f _ => Some f
  | Append (cpu_stat _ _) _ => Some cpu_csv
  | Append (freq_stat _) _ => Some freq_csv
  | Append (mem_stat _) _ => Some mem_csv
  | Append (io_stat _ _) _ => Some io_csv
  | Append (gpu_stat _) _ => Some vram_csv
  | Append (vm_stat _) _ => Some vmstat_csv
  | Append (psi_stat _) _ => Some psi_csv
  | Append (proc_stat _ _) _ => Some proc_csv
  | IrqTotals _ _ | IrqDesc _ _ => Some irq_csv
  | Print _ => None
  end.

(* an append of the source f, or a line on the terminal *)
Definition belongs (f : stream) (e : effect) : Prop :=
  effect_source e = Some f ∨ effect_source e = None.

(* every append of the block m belongs to the source f *)
Definition writes_only {S A} (f : stream) (m : blk S A) : Prop :=
  ∀ s, Forall (belongs f) (m s).2.



(* --------------------------------------------------------------------- *)
(*  A small run, used by the examples                                    *)
(* --------------------------------------------------------------------- *)

Module Sample.
Definition NUM_CPUS : nat := 2.
Definition CLK_TCK : Z := 100.

Definition gpu0 : gpu_state :=
  mk_gpu_state false 0 "nvidia-smi (NVIDIA GeForce RTX 4090)".

Definition cpu_a : list (cpu_key * list Z) :=
  [(CpuAll, [10; 0; 5; 100; 2; 0; 1; 0; 0; 0]%Z);
   (Cpu 0, [6; 0; 3; 50; 1; 0; 1; 0; 0; 0]%Z)].
Definition cpu_b : list (cpu_key * list Z) :=
  [(CpuAll, [13; 1; 7; 110; 3; 1; 2; 1; 1; 1]%Z);
   (Cpu 0, [8; 0; 4; 56; 1; 0; 1; 0; 0; 0]%Z)].

Definition disk_a : list (string * disk_counters) :=
  [("nvme0n1", mk_disk_counters 100 8000 250 40 4096 90 0 300)].
Definition disk_b : list (string * disk_counters) :=
  [("nvme0n1", mk_disk_counters 110 8800 300 40 6144 90 2 420)].

Definition mem : list (string * Z) :=
  [("MemTotal", 32768000); ("MemFree", 1024000); ("MemAvailable", 20480000);
   ("Buffers", 204800); ("Cached", 8192000); ("SwapTotal", 2048000);
   ("SwapFree", 2048000); ("Dirty", 512)]%Z.

Definition irq_a : list (string * irq_entry) :=
  [("24", mk_irq_entry [100; 7]%Z "nvme0q1")].
Definition irq_b : list (string * irq_entry) :=
  [("24", mk_irq_entry [130; 7]%Z "nvme0q1")].

Definition vmstat_a : list (string * Z) :=
  [("pgfault", 1000); ("pgscan_kswapd_normal", 10); ("nr_dirty", 3)]%Z.
Definition vmstat_b : list (string * Z) :=
  [("pgfault", 1400); ("pgscan_kswapd_normal", 25); ("nr_dirty", 4)]%Z.

Definition psi : psi_snap :=
  mk_psi_snap (mk_psi_avgs 1 0 0 0) (mk_psi_avgs 0 0 0 0) (mk_psi_avgs 2 1 0 0).


(* the state before the first iteration, the clock at 1000 s *)
Definition start : loop_state :=
  {| prev_cpu := cpu_a; prev_ctxt := 5000; curr_ctxt := None;
     prev_disk := disk_a; prev_irq := irq_a; prev_vmstat := vmstat_a;
     prev_time := 1000; tracker := mk_proc_tracker [] ∅ 0;
     sample_count := 0; irq_sample_count := 0; last_slow := 1000;
     gpu := gpu0; out := [] |}.

(* an iteration at the monotonic time [now] on which every reader other
   than parse_cpu_stat and read_proc_stats succeeds *)
Definition tick (now : Q)
    (cpu : outcome (list (cpu_key * list Z) * Z))
    (read : Z → outcome (option proc_stats)) : probe :=
  {| now_mono := now; ts := 1700000000 + now;
     parse_cpu_stat := cpu;
     parse_diskstats := Ok disk_b;
     parse_meminfo := Ok mem;
     parse_interrupts := Ok irq_b;
     nvml_query := Raise "NVMLError";
     nvidia_smi := Ok "812, 24564, 23752, 41, 35, 12, 2520, 10501, 90";
     parse_vmstat := Ok vmstat_b;
     parse_psi := Ok psi;
     parse_cpu_freq := Ok [3600%Q; 0%Q];
     find_tracked_procs := Ok [(42%Z, "X-Plane")];
     read_proc_stats := read |}.

Definition step : loop_state → probe → loop_state :=
  collect_step NUM_CPUS CLK_TCK float_of_digits.
Definition run : loop_state → list probe → loop_state :=
  collect NUM_CPUS CLK_TCK float_of_digits.
End Sample.

(* --------------------------------------------------------------------- *)
(*  The iteration, block by block                                        *)
(* --------------------------------------------------------------------- *)

Section blocks_of_step.
Variable NUM_CPUS : nat.
Variable CLK_TCK : Z.
Variable float : string → option Q.

(* curr_ctxt as the CPU block of the iteration leaves it *)
Definition ctxt_after_cpu (st : loop_state) (e : probe) : option Z :=
  (try_except "CPU sample" (sample_cpu (ts e) (parse_cpu_stat e))
              (prev_cpu st, curr_ctxt st)).1.2.

(* what the try block of the source f appends when collect_step runs it
   on the state st with the probe e *)
Definition block_output (f : stream) (st : loop_state) (e : probe)
  : list effect :=
  let dt := (now_mono e - prev_time st)%Q in
  let slow_dt := (now_mono e - last_slow st)%Q in
  match f with
  | cpu_csv =>
      (try_except "CPU sample" (sample_cpu (ts e) (parse_cpu_stat e))
                  (prev_cpu st, curr_ctxt st)).2
  | io_csv =>
      (try_except "IO sample" (sample_disk (ts e) dt (parse_diskstats e))
                  (prev_disk st)).2
  | mem_csv =>
      (try_except "Memory sample" (sample_mem (ts e) (parse_meminfo e)) tt).2
  | irq_csv =>
      (try_except "IRQ sample"
                  (sample_irq NUM_CPUS (ts e) slow_dt (parse_interrupts e))
                  (prev_irq st, irq_sample_count st)).2
  | vram_csv =>
      (try_except "VRAM sample"
                  (sample_vram float (ts e) (nvml_query e) (nvidia_smi e))
                  (gpu st)).2
  | vmstat_csv =>
      (try_except "vmstat sample"
                  (sample_vmstat (ts e) slow_dt (ctxt_after_cpu st e)
                                 (parse_vmstat e))
                  (prev_vmstat st, prev_ctxt st)).2
  | psi_csv =>
      (try_except "PSI sample" (sample_psi (ts e) (parse_psi e)) tt).2
  | freq_csv =>
      (try_except "CPU freq sample" (sample_freq (ts e) (parse_cpu_freq e)) tt).2
  | proc_csv =>
      (try_except "Process tracking"
                  (sample_procs CLK_TCK (ts e) (now_mono e) slow_dt
                                (find_tracked_procs e) (read_proc_stats e))
                  (tracker st)).2
  end.

(* the block of f belongs to the 1-second probes *)
Definition slow_tier (f : stream) : bool :=
  match f with
  | cpu_csv | io_csv | mem_csv => false
  | _ => true
  end.

(* the block of f runs in this iteration *)
Definition block_runs (f : stream) (st : loop_state) (e : probe) : bool :=
  negb (Qltb (now_mono e - prev_time st) (5 # 100))
  && (negb (slow_tier f) || Qle_bool 1 (now_mono e - last_slow st)).
End blocks_of_step.

(* the two probes give the same clock readings, and the readers that the
   block of f calls return the same on both *)
Definition same_input (f : stream) (e1 e2 : probe) : Prop :=
  now_mono e1 = now_mono e2 ∧ ts e1 = ts e2 ∧
  match f with
  | cpu_csv => parse_cpu_stat e1 = parse_cpu_stat e2
  | io_csv => parse_diskstats e1 = parse_diskstats e2
  | mem_csv => parse_meminfo e1 = parse_meminfo e2
  | irq_csv => parse_interrupts e1 = parse_interrupts e2
  | vram_csv => nvml_query e1 = nvml_query e2 ∧ nvidia_smi e1 = nvidia_smi e2
  | vmstat_csv => parse_vmstat e1 = parse_vmstat e2
  | psi_csv => parse_psi e1 = parse_psi e2
  | freq_csv => parse_cpu_freq e1 = parse_cpu_freq e2
  | proc_csv => find_tracked_procs e1 = find_tracked_procs e2 ∧
                read_proc_stats e1 = read_proc_stats e2
  end.

(* ===================================================================== *)
(*  Further definitions                                                  *)
(* ===================================================================== *)

(* the deltas of one interrupt line as interrupt_delta computes them
   when it does not raise: the first NUM_CPUS counts of both snapshots
   subtracted index by index *)
Definition irq_delta_of (N : nat) (p c : irq_entry) : list Z :=
  zip_with Z.sub (take N (counts c)) (take N (counts p)).

(* --------------------------------------------------------------------- *)
(*  Stats lists against CSV columns                                      *)
(* --------------------------------------------------------------------- *)



(* a Stats list, each sample as the cell it would be in a row *)
Definition samples (l : stat_list) (o : list effect) : list (option cell) :=
  (fun v => Some (CNum v)) <$> stat_values l o.









(* the lists of stats.gpu never run ahead of each other *)
Definition gpu_chain (o : list effect) : Prop :=
  (length (stat_values (gpu_stat "power") o)
   ≤ length (stat_values (gpu_stat "clock") o))%nat ∧
  (length (stat_values (gpu_stat "clock") o)
   ≤ length (stat_values (gpu_stat "util") o))%nat ∧
  (length (stat_values (gpu_stat "util") o)
   ≤ length (stat_values (gpu_stat "used") o))%nat ∧
  (length (stat_values (gpu_stat "used") o)
   ≤ length (csv_rows vram_csv o))%nat.

(* --------------------------------------------------------------------- *)
(*  init_gpu                                                             *)
(* --------------------------------------------------------------------- *)

(* what the system gives to the steps of init_gpu; an exception is named
   by its class *)
Record gpu_env : Type := mk_gpu_env {
  (* import pynvml; nvmlInit(); nvmlDeviceGetHandleByIndex(0) *)
  nvml_open : outcome unit;
  (* nvmlDeviceGetName(handle), decoded *)
  nvml_name : outcome string;
  (* check_output(["nvidia-smi", "--query-gpu=name", ...]), decoded and
     stripped *)
  smi_name : outcome string;
  (* /sys/class/drm/card0/device/vendor, stripped *)
  drm_vendor : outcome string
}.

(* the module globals before init_gpu is called *)
Definition gpu_globals : gpu_state := mk_gpu_state false 0 "none".

Definition set_backend (g : gpu_state) (label : string)
  : outcome string * gpu_state :=
  (Ok label, mk_gpu_state (USE_NVML g) (NVML_FAIL_COUNT g) label).

(* init_gpu(disable): the returned backend name, or the exception that
   leaves it, and the module globals afterwards *)
Definition init_gpu (disable : bool) (env : gpu_env) (g : gpu_state)
  : outcome string * gpu_state :=
  if disable then set_backend g "disabled"
  else
    let fallback (g1 : gpu_state) :=
      match smi_name env with
      | Ok out => set_backend g1 ("nvidia-smi (" +:+ out +:+ ")")
      | Raise _ =>
          match drm_vendor env with
          | Ok vendor =>
              if String.eqb vendor "0x1002"
              then set_backend g1
                     "AMD detected (GPU sampling not yet supported)"
              else set_backend g1 "none (no NVIDIA GPU found)"
          | Raise e =>
              if String.eqb e "FileNotFoundError"
              then set_backend g1 "none (no NVIDIA GPU found)"
              else (Raise e, g1)
          end
      end in
    match nvml_open env with
    | Ok _ =>
        let g1 := mk_gpu_state true (NVML_FAIL_COUNT g) (GPU_BACKEND g) in
        match nvml_name env with
        | Ok name => set_backend g1 ("NVML (" +:+ name +:+ ")")
        | Raise _ => fallback g1
        end
    | Raise _ => fallback g
    end.

(* what the queries of a run print, one slow-tier query after the other *)
Fixpoint gpu_log (g : gpu_state) (qs : list (outcome string * outcome string))
  : list log_line :=
  match qs with
  | [] => []
  | (nvml, smi) :: qs' =>
      (get_vram g nvml smi).2 ++ gpu_log (get_vram g nvml smi).1.1 qs'
  end.

Definition is_switching (l : log_line) : bool :=
  match l with NvmlSwitching _ => true | _ => false end.

Definition is_query_failed (l : log_line) : bool :=
  match l with NvmlQueryFailed _ => true | _ => false end.

(* --------------------------------------------------------------------- *)
(*  _print_correlation_hits and the export of correlate_xplane           *)
(* --------------------------------------------------------------------- *)

(* sorted(l, key=key): stable, ascending in the key *)
Fixpoint insert_by {A} (key : A → Q) (x : A) (l : list A) : list A :=
  match l with
  | [] => [x]
  | y :: l' =>
      if Qle_bool (key x) (key y) then x :: l else y :: insert_by key x l'
  end.

Definition sorted_by {A} (key : A → Q) (l : list A) : list A :=
  foldr (insert_by key) [] l.

(* round(x) of a float: the nearest integer, a tie going to the even one *)
Definition py_round (x : Q) : Z :=
  let f := Qfloor x in
  match (x - inject_Z f ?= 1 # 2)%Q with
  | Lt => f
  | Gt => (f + 1)%Z
  | Eq => if Z.even f then f else (f + 1)%Z
  end.

(* a line of _print_correlation_hits *)
Inductive corr_line : Type :=
  | NoSpikes                   (* "(no spikes coincided with X-Plane events)" *)
  | HitLine (csv_ts val : Q) (evts : list (string * string)).
                               (* "{rel}  {val}  <- [cat] msg; ..." *)

(* the events named on a line: nearby[:3], each message cut to msg[:60] *)
Definition evt_str (nearby : list xp_event) : list (string * string) :=
  (fun e : xp_event => (e.1.2, String.substring 0 60 e.2)) <$> take 3 nearby.

(* the loop over the sorted and truncated hits; [seen] is the set of the
   rounded timestamps already printed *)
Fixpoint print_hits_loop (seen : gset Z) (hits : list hit) : list corr_line :=
  match hits with
  | [] => []
  | (csv_ts, val, nearby) :: rest =>
      let key := py_round csv_ts in
      if decide (key ∈ seen) then print_hits_loop seen rest
      else HitLine csv_ts val (evt_str nearby)
           :: print_hits_loop ({[key]} ∪ seen) rest
  end.

(* the hits that the loop goes through: sorted(hits, key=-val)[:max_hits] *)
Definition top_hits (hits : list hit) (max_hits : nat) : list hit :=
  take max_hits (sorted_by (fun h : hit => - h.1.2)%Q hits).

Definition _print_correlation_hits (hits : list hit) (max_hits : nat)
  : list corr_line :=
  match hits with
  | [] => [NoSpikes]
  | _ :: _ => print_hits_loop ∅ (top_hits hits max_hits)
  end.

Definition line_ts (l : corr_line) : option Q :=
  match l with HitLine ts _ _ => Some ts | NoSpikes => None end.

Definition line_val (l : corr_line) : option Q :=
  match l with HitLine _ val _ => Some val | NoSpikes => None end.

(* the double quote and the single quote *)
Definition dquote : string := String (Ascii.ascii_of_nat 34) EmptyString.
Definition squote : string := String (Ascii.ascii_of_nat 39) EmptyString.

Fixpoint has_char (c : ascii) (s : string) : bool :=
  match s with
  | EmptyString => false
  | String a s' => Ascii.eqb a c || has_char c s'
  end.

(* xp_in_window of correlate_xplane *)
Definition xp_in_window (mon_start elapsed : Q) (xp_events : list xp_event)
  : list xp_event :=
  filter (fun e : xp_event =>
            Qle_bool (mon_start - 5) e.1.1
            && Qle_bool e.1.1 (mon_start + elapsed + 5) = true) xp_events.

(* the rows of xplane_events.csv under its header: timestamp,
   rel_offset_s, category, message between double quotes *)
Definition xplane_events_rows (mon_start elapsed : Q)
    (xp_events : list xp_event) : list (Q * Q * string * string) :=
  (fun e : xp_event =>
     (e.1.1, e.1.1 - mon_start, e.1.2, str_replace dquote squote e.2)%Q)
  <$> sorted_by (fun e : xp_event => e.1.1)
        (xp_in_window mon_start elapsed xp_events).

(* the line printed for a hit *)
Definition to_line (h : hit) : corr_line :=
  HitLine h.1.1 h.1.2 (evt_str h.2).

(* the second a hit is filed under *)
Definition hit_key (h : hit) : Z := py_round h.1.1.

(* --------------------------------------------------------------------- *)
(*  Text of the /proc and /sys files                                     *)
(* --------------------------------------------------------------------- *)

(* A character is a code point below U+0100. *)

(* c.isspace() *)
Definition py_isspace (a : ascii) : bool :=
  let n := Ascii.nat_of_ascii a in
  ((9 <=? n)%nat && (n <=? 13)%nat) || ((28 <=? n)%nat && (n <=? 32)%nat)
  || (n =? 133)%nat || (n =? 160)%nat.

(* the line boundaries of str.splitlines() *)
Definition is_linebreak (a : ascii) : bool :=
  let n := Ascii.nat_of_ascii a in
  ((10 <=? n)%nat && (n <=? 13)%nat) || ((28 <=? n)%nat && (n <=? 30)%nat)
  || (n =? 133)%nat.

(* s.split(): the maximal runs of characters that are not whitespace;
   [acc] is the run being read, last character first *)
Fixpoint py_split_from (acc : string) (s : string) : list string :=
  match s with
  | EmptyString =>
      match acc with
      | EmptyString => []
      | _ => [String.rev acc]
      end
  | String a s' =>
      if py_isspace a
      then match acc with
           | EmptyString => py_split_from EmptyString s'
           | _ => String.rev acc :: py_split_from EmptyString s'
           end
      else py_split_from (String a acc) s'
  end.

Definition py_split (s : string) : list string :=
  py_split_from EmptyString s.

(* s.splitlines(): a carriage return followed by a line feed is one
   boundary, and a boundary at the end opens no further line *)
Fixpoint splitlines_from (acc : string) (s : string) : list string :=
  match s with
  | EmptyString =>
      match acc with
      | EmptyString => []
      | _ => [String.rev acc]
      end
  | String a s' =>
      if is_linebreak a
      then String.rev acc ::
           match s' with
           | EmptyString => []
           | String b s'' =>
               if (Ascii.nat_of_ascii a =? 13)%nat
                  && (Ascii.nat_of_ascii b =? 10)%nat
               then splitlines_from EmptyString s''
               else splitlines_from EmptyString s'
           end
      else splitlines_from (String a acc) s'
  end.

Definition splitlines (s : string) : list string :=
  splitlines_from EmptyString s.

(* s.strip() *)
Fixpoint py_lstrip (s : string) : string :=
  match s with
  | EmptyString => EmptyString
  | String a s' => if py_isspace a then py_lstrip s' else s
  end.

Definition py_strip (s : string) : string :=
  String.rev (py_lstrip (String.rev (py_lstrip s))).

(* s.rstrip(c) for a single character c *)
Fixpoint lstrip_char (c : ascii) (s : string) : string :=
  match s with
  | EmptyString => EmptyString
  | String a s' => if Ascii.eqb a c then lstrip_char c s' else s
  end.

Definition rstrip_char (c : ascii) (s : string) : string :=
  String.rev (lstrip_char c (String.rev s)).

(* s.index(c) and s.rindex(c) for a single character c; None is
   ValueError *)
Fixpoint index_char (c : ascii) (s : string) : option nat :=
  match s with
  | EmptyString => None
  | String a s' => if Ascii.eqb a c then Some 0%nat else S <$> index_char c s'
  end.

Fixpoint rindex_char (c : ascii) (s : string) : option nat :=
  match s with
  | EmptyString => None
  | String a s' =>
      match rindex_char c s' with
      | Some i => Some (S i)
      | None => if Ascii.eqb a c then Some 0%nat else None
      end
  end.

(* s[n:] *)
Fixpoint str_drop (n : nat) (s : string) : string :=
  match n, s with
  | O, _ => s
  | S n', String _ s' => str_drop n' s'
  | S _, EmptyString => EmptyString
  end.

(* s.split(c) for a single character c *)
Fixpoint split_char_from (c : ascii) (acc : string) (s : string)
  : list string :=
  match s with
  | EmptyString => [String.rev acc]
  | String a s' =>
      if Ascii.eqb a c
      then String.rev acc :: split_char_from c EmptyString s'
      else split_char_from c (String a acc) s'
  end.

Definition split_char (c : ascii) (s : string) : list string :=
  split_char_from c EmptyString s.

(* d[k] = v on an insertion-ordered dict: a key that is there keeps its
   place *)
Fixpoint dict_set `{EqDecision K} {V} (k : K) (v : V) (d : list (K * V))
  : list (K * V) :=
  match d with
  | [] => [(k, v)]
  | (k', v') :: d' =>
      if decide (k = k') then (k, v) :: d' else (k', v') :: dict_set k v d'
  end.

(* a loop whose body may raise: the exception ends the loop *)
Fixpoint foldM {A R} (f : R → A → outcome R) (r : R) (l : list A)
  : outcome R :=
  match l with
  | [] => Ok r
  | a :: l' => r' ← f r a; foldM f r' l'
  end.

(* the same loop, with the value that the assignments of the body have
   reached when the loop ends, and the exception that ended it, if any *)
Fixpoint fold_until {A R} (f : R → A → outcome R) (r : R) (l : list A)
  : R * option string :=
  match l with
  | [] => (r, None)
  | a :: l' =>
      match f r a with
      | Ok r' => fold_until f r' l'
      | Raise e => (r, Some e)
      end
  end.

(* try: m  except classes: handler, where the exceptions that m can
   raise are raised under the names of [classes] themselves *)
Definition catch {A} (classes : list string) (m handler : outcome A)
  : outcome A :=
  match m with
  | Ok a => Ok a
  | Raise e => if decide (e ∈ classes) then handler else Raise e
  end.

(* --------------------------------------------------------------------- *)
(*  The readers of /proc and /sys                                        *)
(* --------------------------------------------------------------------- *)

Module Readers.
Section readers.
Variable NUM_CPUS : nat.                  (* os.cpu_count() *)
Variable int : string → option Z.         (* int(s); None is ValueError *)
(* issubclass(C, D) for two different exception classes, by name *)
Variable subclass : string → string → bool.

Definition py_int (s : string) : outcome Z :=
  match int s with
  | Some z => Ok z
  | None => Raise "ValueError"
  end.

(* an exception of class e is caught by "except (classes)" *)
Definition caught (classes : list string) (e : string) : bool :=
  existsb (fun c => String.eqb e c || subclass e c) classes.

(* body of the loop of parse_interrupts over lines[1:] *)
Definition parse_interrupts_line (result : list (string * irq_entry))
    (line : string) : outcome (list (string * irq_entry)) :=
  let parts := py_split line in
  if (length parts <? NUM_CPUS + 1)%nat then Ok result
  else
    p0 ← py_index parts 0;
    let irq_name := rstrip_char ":"%char p0 in
    counts ← mapM (fun i => catch ["ValueError"; "IndexError"]
                              (py_index parts i ≫= py_int) (Ok 0%Z))
                  (seq 1 NUM_CPUS);
    let desc := String.concat " " (drop (NUM_CPUS + 1) parts) in
    Ok (dict_set irq_name (mk_irq_entry counts desc) result).

(* [rd] is read_file("/proc/interrupts") *)
Definition parse_interrupts (rd : outcome string)
  : outcome (list (string * irq_entry)) :=
  text ← rd;
  foldM parse_interrupts_line [] (drop 1 (splitlines text)).

(* body of the loop of parse_vmstat *)
Definition parse_vmstat_line (result : list (string * Z)) (line : string)
  : outcome (list (string * Z)) :=
  let parts := py_split line in
  if (length parts =? 2)%nat
  then catch ["ValueError"]
         (v ← py_index parts 1 ≫= py_int;
          k ← py_index parts 0;
          Ok (dict_set k v result))
         (Ok result)
  else Ok result.

(* [rd] is read_file("/proc/vmstat") *)
Definition parse_vmstat (rd : outcome string) : outcome (list (string * Z)) :=
  text ← rd;
  foldM parse_vmstat_line [] (splitlines text).

(* [read i] is read_file of scaling_cur_freq of cpu i *)
Definition parse_cpu_freq (read : nat → outcome string) : outcome (list Q) :=
  mapM (fun i =>
          match (raw ← read i;
                 khz ← py_int (py_strip raw);
                 Ok (inject_Z khz / 1000)%Q) with
          | Ok mhz => Ok mhz
          | Raise e =>
              if caught ["FileNotFoundError"; "PermissionError"; "ValueError"] e
              then Ok 0%Q
              else Raise e
          end)
       (seq 0 NUM_CPUS).
(* the first try block of read_proc_stats: utime, stime and num_threads
   from the text of /proc/<pid>/stat *)
Definition stat_fields (raw : string) : outcome (Z * Z * Z) :=
  _ ← match index_char "("%char raw with
      | Some i => Ok i
      | None => Raise "ValueError"
      end;
  close ← match rindex_char ")"%char raw with
          | Some i => Ok i
          | None => Raise "ValueError"
          end;
  let fields := py_split (str_drop (close + 2) raw) in
  utime ← py_index fields 11 ≫= py_int;
  stime ← py_index fields 12 ≫= py_int;
  num_threads ← py_index fields 17 ≫= py_int;
  Ok (utime, stime, num_threads).

(* the loop over the lines of /proc/<pid>/io; the state is
   (read_bytes, write_bytes) *)
Definition io_line (rw : Z * Z) (line : string) : outcome (Z * Z) :=
  if String.prefix "read_bytes:" line
  then v ← py_index (split_char ":"%char line) 1 ≫= py_int; Ok (v, rw.2)
  else if String.prefix "write_bytes:" line
  then v ← py_index (split_char ":"%char line) 1 ≫= py_int; Ok (rw.1, v)
  else Ok rw.

(* the loop over the lines of /proc/<pid>/status, left at the first
   line of VmRSS *)
Fixpoint status_rss (lines : list string) : outcome Z :=
  match lines with
  | [] => Ok 0%Z
  | line :: lines' =>
      if String.prefix "VmRSS:" line
      then py_index (py_split line) 1 ≫= py_int
      else status_rss lines'
  end.

(* read_proc_stats(pid): [stat], [io] and [status] are read_file of the
   three files of the process, [pid] is the number as it is printed;
   the result comes with the line that is printed *)
Definition read_proc_stats (pid : string) (stat io status : outcome string)
  : outcome (option proc_stats) * list log_line :=
  match stat ≫= stat_fields with
  | Raise e =>
      if caught ["FileNotFoundError"; "PermissionError";
                 "ProcessLookupError"] e
      then (Ok None, [])
      else (Ok None,
            [ErrorLine ("read_proc_stats(" +:+ pid +:+ ") stat") e])
  | Ok (utime, stime, num_threads) =>
      let pass e := caught ["FileNotFoundError"; "PermissionError"] e in
      let rw :=
        match io with
        | Ok text =>
            match fold_until io_line (0, 0)%Z (splitlines text) with
            | (rw, None) => Ok rw
            | (rw, Some e) => if pass e then Ok rw else Raise e
            end
        | Raise e => if pass e then Ok (0, 0)%Z else Raise e
        end in
      let rss :=
        match (text ← status; status_rss (splitlines text)) with
        | Ok rss_kb => Ok rss_kb
        | Raise e => if pass e then Ok 0%Z else Raise e
        end in
      ('(read_bytes, write_bytes) ← rw;
       rss_kb ← rss;
       Ok (Some (mk_proc_stats utime stime num_threads
                               read_bytes write_bytes rss_kb)),
       [])
  end.
End readers.
End Readers.

(* int(s) restricted to unsigned decimal integers: enough to run the
   examples *)
Definition int_of_digits (s : string) : option Z :=
  match s with
  | EmptyString => None
  | _ => digits_value 0 s
  end.

(* the value that the last well-formed line of the key k gives in
   /proc/vmstat: a line of two fields, the second an integer *)
Definition vmstat_value (int : string → option Z) (k : string)
    (lines : list string) : option Z :=
  last (omap (fun line =>
                match py_split line with
                | [k'; s] => if String.eqb k k' then int s else None
                | _ => None
                end) lines).

(* the line feed *)
Definition nl : string := String (Ascii.ascii_of_nat 10) EmptyString.

(* the keys of /proc/meminfo that the memory block reads with mi[k] *)
Definition mem_required : list string :=
  ["MemTotal"; "MemFree"; "MemAvailable"; "Buffers"; "Cached";
   "SwapTotal"; "SwapFree"].

(* what the IO block appends for one device *)
Definition io_appends (ts : Q) (dv : string * disk_rate) : list effect :=
  [write_io ts dv.1 dv.2;
   Append (io_stat dv.1 "rMB_per_s") (rMB_per_s dv.2);
   Append (io_stat dv.1 "wMB_per_s") (wMB_per_s dv.2);
   Append (io_stat dv.1 "r_lat") (avg_r_lat_ms dv.2);
   Append (io_stat dv.1 "w_lat") (avg_w_lat_ms dv.2);
   Append (io_stat dv.1 "util") (io_util_pct dv.2)].

(* --------------------------------------------------------------------- *)
(*  print_summary: the sections that compute on the Stats lists          *)
(* --------------------------------------------------------------------- *)

(* The Stats object at the end of a run is the sequence of the appends
   of the run: stats.mem[k] is [stat_values (mem_stat k) o], and so on.
   A line of the report is kept as its label and the numbers that are
   formatted into it; the rules and blank lines are left out. *)
Definition report_line : Type := string * list Q.

(* statistics.mean(l) *)
Definition py_mean (l : list Q) : outcome Q :=
  match l with
  | [] => Raise "StatisticsError"
  | _ :: _ => Ok (mean l)
  end.

(* max(l) *)
Definition py_max_of (l : list Q) : outcome Q :=
  match l with
  | [] => Raise "ValueError"
  | x :: xs => Ok (py_max x xs)
  end.

(* min(l) *)
Definition py_min_of (l : list Q) : outcome Q :=
  match l with
  | [] => Raise "ValueError"
  | x :: xs => Ok (foldl (fun m y => if Qltb y m then y else m) x xs)
  end.

(* the print statements of a section, one after the other; a statement
   is its label and the values of its f-string in the order in which
   they are evaluated.  The first exception ends the section: the lines
   printed before it stay *)
Fixpoint prints (ps : list (string * list (outcome Q)))
  : list report_line * option string :=
  match ps with
  | [] => ([], None)
  | (label, vals) :: ps' =>
      match mapM id vals with
      | Ok vs => let '(ls, r) := prints ps' in ((label, vs) :: ls, r)
      | Raise e => ([], Some e)
      end
  end.


Definition _print_gpu (o : list effect) : list report_line * option string :=
  let g k := stat_values (gpu_stat k) o in
  prints
    (("GPU / VRAM", []) ::
     match g "used" with
     | [] => [("No VRAM data collected", [])]
     | _ :: _ =>
         [("VRAM Used", [py_mean (g "used"); py_min_of (g "used");
                         py_max_of (g "used")]);
          ("GPU Util", [py_mean (g "util"); py_min_of (g "util");
                        py_max_of (g "util")])]
         ++ match g "clock" with
            | [] => []
            | _ :: _ => [("GPU Clock", [py_mean (g "clock");
                                        py_min_of (g "clock");
                                        py_max_of (g "clock")])]
            end
         ++ match g "power" with
            | [] => []
            | _ :: _ => [("Power", [py_mean (g "power");
                                    py_min_of (g "power");
                                    py_max_of (g "power")])]
            end
     end).










(* no value of the print statements raises *)
Definition all_ok (ps : list (string * list (outcome Q))) : Prop :=
  Forall (fun p => Forall (fun v : outcome Q => ∃ q, v = Ok q) p.2) ps.

(* an iteration like Sample.tick, on which nvidia-smi reports a GPU
   utilisation that is not a number *)
Definition tick_util_na (now : Q) : probe :=
  let t := Sample.tick now (Ok (Sample.cpu_b, 5400%Z)) (fun _ => Ok None) in
  {| now_mono := now_mono t; ts := ts t;
     parse_cpu_stat := parse_cpu_stat t;
     parse_diskstats := parse_diskstats t;
     parse_meminfo := parse_meminfo t;
     parse_interrupts := parse_interrupts t;
     nvml_query := nvml_query t;
     nvidia_smi := Ok "812, 24564, 23752, 41, [N/A]";
     parse_vmstat := parse_vmstat t;
     parse_psi := parse_psi t;
     parse_cpu_freq := parse_cpu_freq t;
     find_tracked_procs := find_tracked_procs t;
     read_proc_stats := read_proc_stats t |}.



(* ===================================================================== *)
(*  Theorems                                                             *)
(* ===================================================================== *)

(* --------------------------------------------------------------------- *)
(*  Comparisons on Q                                                     *)
(* --------------------------------------------------------------------- *)

Lemma Qltb_lt (a b : Q) : Qltb a b = true ↔ (a < b)%Q.
Proof.
  unfold Qltb. rewrite negb_true_iff. split.
  - intros H. apply Qnot_le_lt. intros Hle.
    apply Qle_bool_iff in Hle. congruence.
  - intros H. destruct (Qle_bool b a) eqn:E; [|done].
    apply Qle_bool_iff in E. exfalso. by apply (Qlt_not_le a b).
Qed.

Lemma Qltb_ge (a b : Q) : Qltb a b = false ↔ (b <= a)%Q.
Proof.
  unfold Qltb. rewrite negb_false_iff. apply Qle_bool_iff.
Qed.

Lemma py_min_le_r (a b : Q) : (py_min a b <= b)%Q.
Proof.
  unfold py_min. destruct (Qltb b a) eqn:E.
  - apply Qle_refl.
  - by apply Qltb_ge.
Qed.

Lemma py_min_cases (a b : Q) :
  ((b < a)%Q ∧ py_min a b = b) ∨ ((a <= b)%Q ∧ py_min a b = a).
Proof.
  unfold py_min. destruct (Qltb b a) eqn:E.
  - left. split; [by apply Qltb_lt | done].
  - right. split; [by apply Qltb_ge | done].
Qed.

Lemma py_div_ok (a b : Q) : ¬ (b == 0)%Q → py_div a b = Ok (a / b)%Q.
Proof.
  intros H. unfold py_div. destruct (Qeq_bool b 0) eqn:E; [|done].
  apply Qeq_bool_iff in E. contradiction.
Qed.

(* --------------------------------------------------------------------- *)
(*  Dicts and indexing                                                   *)
(* --------------------------------------------------------------------- *)

Lemma py_index_lookup {A} (l : list A) (i : nat) (x : A) :
  py_index l i = Ok x ↔ l !! i = Some x.
Proof. unfold py_index. destruct (l !! i); split; congruence. Qed.

(* subtracting two vectors index by index: no IndexError when the
   previous vector is at least as long as the current one *)
Lemma mapM_deltas (p c : list Z) (k : nat) (c' : list Z) :
  (length c ≤ length p)%nat →
  c' = drop k c →
  mapM (M := outcome)
       (fun i => ci ← py_index c i; pi ← py_index p i; Ok (ci - pi)%Z)
       (seq k (length c'))
  = Ok (zip_with Z.sub c' (drop k p)).
Proof.
  intros Hlen. revert k. induction c' as [|x c' IH]; intros k Hc'.
  - done.
  - cbn [length seq mapM].
    assert (Hk : c !! k = Some x).
    { by rewrite <- (Nat.add_0_r k), <- lookup_drop, <- Hc'. }
    assert (Hkp : is_Some (p !! k)).
    { apply lookup_lt_is_Some. apply lookup_lt_Some in Hk. lia. }
    destruct Hkp as [y Hy].
    rewrite (proj2 (py_index_lookup c k x) Hk).
    rewrite (proj2 (py_index_lookup p k y) Hy). cbn.
    rewrite (IH (S k)); cycle 1.
    { rewrite (drop_S c x k Hk) in Hc'. congruence. }
    cbn. by rewrite (drop_S p y k Hy).
Qed.

Lemma tick_deltas_ok (p c : list Z) :
  (length c ≤ length p)%nat → tick_deltas p c = Ok (zip_with Z.sub c p).
Proof.
  intros H. unfold tick_deltas.
  by rewrite (mapM_deltas p c 0 c H eq_refl), drop_0.
Qed.

Lemma mapM_outcome_Ok {A B} (f : A → outcome B) (l : list A) (r : list B) :
  mapM f l = Ok r → Forall2 (fun a b => f a = Ok b) l r.
Proof.
  revert r. induction l as [|a l IH]; intros r; cbn.
  - intros [= <-]. constructor.
  - destruct (f a) as [b|e] eqn:Ea; cbn; [|done].
    destruct (mapM f l) as [r'|e] eqn:Er; cbn; [|done].
    intros [= <-]. constructor; [done | by apply IH].
Qed.

Lemma tick_deltas_length (p c d : list Z) :
  tick_deltas p c = Ok d → (length c ≤ length p)%nat.
Proof.
  intros H. apply mapM_outcome_Ok in H.
  destruct (decide (length c ≤ length p)%nat) as [|Hn]; [done|].
  exfalso.
  assert (Hin : length p ∈ seq 0 (length c)) by (apply elem_of_seq; lia).
  apply list_elem_of_lookup in Hin as [i Hi].
  destruct (Forall2_lookup_l _ _ _ _ _ H Hi) as (b & _ & Hb).
  unfold py_index in Hb.
  rewrite (lookup_ge_None_2 p (length p)) in Hb by lia.
  destruct (c !! length p); done.
Qed.

Lemma tick_deltas_inv (p c d : list Z) :
  tick_deltas p c = Ok d → d = zip_with Z.sub c p.
Proof.
  intros H. pose proof (tick_deltas_length _ _ _ H) as Hlen.
  rewrite (tick_deltas_ok p c Hlen) in H. congruence.
Qed.

(* --------------------------------------------------------------------- *)
(*  cpu_delta                                                            *)
(* --------------------------------------------------------------------- *)

(* the result has an entry for a key of both snapshots, computed by the
   loop body from the two vectors of that key *)
Lemma cpu_delta_lookup prev curr result key p c :
  cpu_delta prev curr = Ok result →
  dict_get key prev = Some p →
  dict_get key curr = Some c →
  ∃ v, cpu_delta_core p c = Ok v ∧ dict_get key result = Some v.
Proof.
  intros Hres Hp. revert result Hres.
  induction curr as [|[k c0] curr IH]; intros result Hres Hc; [done|].
  cbn in Hres, Hc. destruct (decide (key = k)) as [->|Hne].
  - injection Hc as ->. rewrite Hp in Hres.
    destruct (cpu_delta_core p c) as [v|e]; cbn in Hres; [|done].
    destruct (cpu_delta prev curr) as [rest|e]; cbn in Hres; [|done].
    injection Hres as <-. exists v. split; [done|].
    cbn. by rewrite decide_True.
  - destruct (dict_get k prev) as [p0|].
    + destruct (cpu_delta_core p0 c0) as [v0|e]; cbn in Hres; [|done].
      destruct (cpu_delta prev curr) as [rest|e] eqn:Er; cbn in Hres; [|done].
      injection Hres as <-.
      destruct (IH rest eq_refl Hc) as (v & Hv & Hl).
      exists v. split; [done|]. cbn. by rewrite decide_False.
    + by apply IH.
Qed.

Lemma cpu_delta_core_zero (p c : list Z) :
  (length c ≤ length p)%nat →
  Zsum (zip_with Z.sub c p) = 0%Z →
  cpu_delta_core p c = Ok cpu_zero.
Proof.
  intros Hlen Hz. unfold cpu_delta_core.
  rewrite (tick_deltas_ok p c Hlen). cbn. by rewrite decide_True.
Qed.

(** C3: for a core key present in both snapshots whose summed tick delta
    is 0, cpu_delta reports the percentages user, sys, iowait, irq,
    softirq, idle, steal and guest all as exactly 0 (the literal zero
    record: no division takes place, nothing is negative); the loop body
    does not raise for such a key when the previous vector is at least as
    long as the current one. *)
Theorem cpu_delta_zero_total prev curr key p c
    (Hp : dict_get key prev = Some p)
    (Hc : dict_get key curr = Some c)
    (Hzero : Zsum (zip_with Z.sub c p) = 0%Z) :
  ((length c ≤ length p)%nat → cpu_delta_core p c = Ok cpu_zero) ∧
  ∀ result, cpu_delta prev curr = Ok result →
    ∃ v, dict_get key result = Some v ∧
         user v = 0%Q ∧ sys v = 0%Q ∧ iowait v = 0%Q ∧ irq v = 0%Q ∧
         softirq v = 0%Q ∧ idle v = 0%Q ∧ steal v = 0%Q ∧ guest v = 0%Q.
Proof.
  split.
  - intros Hlen. by apply cpu_delta_core_zero.
  - intros result Hres.
    destruct (cpu_delta_lookup _ _ _ _ _ _ Hres Hp Hc) as (v & Hv & Hl).
    exists v. split; [done|].
    assert (Hlen : (length c ≤ length p)%nat).
    { unfold cpu_delta_core in Hv.
      destruct (tick_deltas p c) as [d|e] eqn:Ed; [|done].
      by apply tick_deltas_length in Ed. }
    rewrite (cpu_delta_core_zero p c Hlen Hzero) in Hv.
    injection Hv as <-. repeat split.
Qed.

Lemma cpu_delta_zero_total_witness :
  let p := [5; 7; 1; 90; 0; 0; 0; 0; 0; 0]%Z in
  let c := [6; 7; 0; 90; 0; 0; 0; 0; 0; 0]%Z in
  dict_get CpuAll [(CpuAll, p)] = Some p ∧
  dict_get CpuAll [(CpuAll, c)] = Some c ∧
  Zsum (zip_with Z.sub c p) = 0%Z ∧
  ∃ v, dict_get CpuAll [(CpuAll, cpu_zero)] = Some v ∧
       user v = 0%Q ∧ sys v = 0%Q ∧ iowait v = 0%Q ∧ irq v = 0%Q ∧
       softirq v = 0%Q ∧ idle v = 0%Q ∧ steal v = 0%Q ∧ guest v = 0%Q.
Proof.
  intros p c.
  split; [reflexivity|]. split; [reflexivity|]. split; [reflexivity|].
  apply (proj2 (cpu_delta_zero_total [(CpuAll, p)] [(CpuAll, c)] CpuAll p c
                  eq_refl eq_refl eq_refl) [(CpuAll, cpu_zero)]).
  reflexivity.
Defined.

Lemma inject_Z_nonzero (z : Z) : z ≠ 0%Z → ¬ (inject_Z z == 0)%Q.
Proof.
  intros Hz H. apply Hz. change 0%Q with (inject_Z 0) in H.
  exact (proj1 (inject_Z_injective z 0) H).
Qed.

(* the eight shares of a ten-field delta vector add up to the whole *)
Lemma pct_sum_100 (d0 d1 d2 d3 d4 d5 d6 d7 d8 d9 : Z) :
  let total := Zsum [d0; d1; d2; d3; d4; d5; d6; d7; d8; d9] in
  total ≠ 0%Z →
  (pct (d0 + d1) total + pct d2 total + pct d3 total + pct d4 total
   + pct d5 total + pct d6 total + pct d7 total + pct (d8 + d9) total
   == 100)%Q.
Proof.
  intros total Hne. unfold pct.
  pose proof (inject_Z_nonzero total Hne) as HT.
  assert (Hsum : (inject_Z total ==
            inject_Z (d0 + d1) + inject_Z d2 + inject_Z d3 + inject_Z d4
            + inject_Z d5 + inject_Z d6 + inject_Z d7 + inject_Z (d8 + d9))%Q).
  { rewrite <- !inject_Z_plus. apply inject_Z_injective.
    subst total. cbn. lia. }
  revert HT Hsum. generalize (inject_Z total) as T.
  intros T HT Hsum.
  transitivity ((inject_Z (d0 + d1) + inject_Z d2 + inject_Z d3 + inject_Z d4
                 + inject_Z d5 + inject_Z d6 + inject_Z d7 + inject_Z (d8 + d9))
                / T * 100)%Q.
  { field. exact HT. }
  rewrite <- Hsum. field. exact HT.
Qed.

Lemma cpu_delta_core_ten (p c : list Z) :
  length p = 10%nat → length c = 10%nat →
  Zsum (zip_with Z.sub c p) ≠ 0%Z →
  ∃ v, cpu_delta_core p c = Ok v ∧
       (user v + sys v + idle v + iowait v + irq v + softirq v
        + steal v + guest v == 100)%Q.
Proof.
  intros Hp Hc Hne.
  do 11 (destruct p as [|? p]; try discriminate Hp).
  do 11 (destruct c as [|? c]; try discriminate Hc).
  unfold cpu_delta_core. rewrite tick_deltas_ok by (cbn; lia).
  cbn [mbind outcome_bind].
  rewrite decide_False by done.
  cbn [zip_with length py_index lookup list_lookup mbind outcome_bind Nat.ltb Nat.leb].
  eexists. split; [reflexivity|].
  cbn [user sys idle iowait irq softirq steal guest].
  apply pct_sum_100. exact Hne.
Qed.

(** C10: for a core key present in both snapshots whose two tick vectors
    have exactly 10 fields and whose summed delta is non-zero, the eight
    percentages of cpu_delta (user, sys, idle, iowait, irq, softirq,
    steal, guest) add up to exactly 100 over the rationals: user takes
    fields 0 and 1, guest fields 8 and 9, and each other field one
    percentage. *)
Theorem cpu_delta_sums_to_100 prev curr key p c
    (Hp : dict_get key prev = Some p)
    (Hc : dict_get key curr = Some c)
    (Hlp : length p = 10%nat)
    (Hlc : length c = 10%nat)
    (Htotal : Zsum (zip_with Z.sub c p) ≠ 0%Z) :
  ∀ result, cpu_delta prev curr = Ok result →
    ∃ v, dict_get key result = Some v ∧
         (user v + sys v + idle v + iowait v + irq v + softirq v
          + steal v + guest v == 100)%Q.
Proof.
  intros result Hres.
  destruct (cpu_delta_lookup _ _ _ _ _ _ Hres Hp Hc) as (v & Hv & Hl).
  destruct (cpu_delta_core_ten p c Hlp Hlc Htotal) as (v' & Hv' & Hsum).
  exists v. split; [done|]. congruence.
Qed.

Lemma cpu_delta_sums_to_100_witness :
  let p := [10; 0; 5; 100; 2; 0; 1; 0; 0; 0]%Z in
  let c := [13; 1; 7; 110; 3; 1; 2; 1; 1; 1]%Z in
  dict_get (Cpu 0) [(Cpu 0, p)] = Some p ∧
  dict_get (Cpu 0) [(Cpu 0, c)] = Some c ∧
  length p = 10%nat ∧ length c = 10%nat ∧
  Zsum (zip_with Z.sub c p) ≠ 0%Z ∧
  ∃ v, cpu_delta [(Cpu 0, p)] [(Cpu 0, c)] = Ok [(Cpu 0, v)] ∧
       (user v + sys v + idle v + iowait v + irq v + softirq v
        + steal v + guest v == 100)%Q.
Proof.
  intros p c.
  assert (Hne : Zsum (zip_with Z.sub c p) ≠ 0%Z) by (vm_compute; discriminate).
  pose proof (cpu_delta_sums_to_100 [(Cpu 0, p)] [(Cpu 0, c)] (Cpu 0) p c
                eq_refl eq_refl eq_refl eq_refl Hne _ eq_refl) as (v & Hv & Hs).
  split; [reflexivity|]. split; [reflexivity|].
  split; [reflexivity|]. split; [reflexivity|]. split; [exact Hne|].
  exists v. split; [|exact Hs].
  vm_compute in Hv. injection Hv as <-. reflexivity.
Defined.

(* --------------------------------------------------------------------- *)
(*  diskstat_delta                                                       *)
(* --------------------------------------------------------------------- *)

Lemma diskstat_delta_lookup prev curr dt result dev p c :
  diskstat_delta prev curr dt = Ok result →
  dict_get dev prev = Some p →
  dict_get dev curr = Some c →
  ∃ v, diskstat_delta_core p c dt = Ok v ∧ dict_get dev result = Some v.
Proof.
  intros Hres Hp. revert result Hres.
  induction curr as [|[k c0] curr IH]; intros result Hres Hc; [done|].
  cbn in Hres, Hc. destruct (decide (dev = k)) as [->|Hne].
  - injection Hc as ->. rewrite Hp in Hres.
    destruct (diskstat_delta_core p c dt) as [v|e]; cbn in Hres; [|done].
    destruct (diskstat_delta prev curr dt) as [rest|e]; cbn in Hres; [|done].
    injection Hres as <-. exists v. split; [done|].
    cbn. by rewrite decide_True.
  - destruct (dict_get k prev) as [p0|].
    + destruct (diskstat_delta_core p0 c0 dt) as [v0|e]; cbn in Hres; [|done].
      destruct (diskstat_delta prev curr dt) as [rest|e] eqn:Er;
        cbn in Hres; [|done].
      injection Hres as <-.
      destruct (IH rest eq_refl Hc) as (v & Hv & Hl).
      exists v. split; [done|]. cbn. by rewrite decide_False.
    + by apply IH.
Qed.

Lemma dt_ms_nonzero (dt : Q) : ¬ (dt == 0)%Q → ¬ (dt * 1000 == 0)%Q.
Proof.
  intros H H0. apply H.
  destruct (Qmult_integral _ _ H0) as [|Hk]; [done|]. discriminate Hk.
Qed.

(* with a non-zero elapsed time the loop body does not raise *)
Lemma diskstat_delta_core_ok (p c : disk_counters) (dt : Q) :
  ¬ (dt == 0)%Q →
  diskstat_delta_core p c dt =
  Ok {| r_per_s := inject_Z (reads c - reads p) / dt;
        w_per_s := inject_Z (writes c - writes p) / dt;
        rMB_per_s :=
          inject_Z ((sectors_read c - sectors_read p) * 512) / 1024 / 1024 / dt;
        wMB_per_s :=
          inject_Z ((sectors_written c - sectors_written p) * 512)
          / 1024 / 1024 / dt;
        avg_r_lat_ms :=
          if (0 <? reads c - reads p)%Z
          then inject_Z (ms_reading c - ms_reading p)
               / inject_Z (reads c - reads p)
          else 0;
        avg_w_lat_ms :=
          if (0 <? writes c - writes p)%Z
          then inject_Z (ms_writing c - ms_writing p)
               / inject_Z (writes c - writes p)
          else 0;
        io_util_pct :=
          py_min (inject_Z (weighted_ms_io c - weighted_ms_io p)
                  / (dt * 1000) * 100) 100;
        rate_ios_in_progress := ios_in_progress c |}%Q.
Proof.
  intros Hdt. unfold diskstat_delta_core.
  rewrite !(py_div_ok _ dt Hdt).
  rewrite (py_div_ok _ (dt * 1000) (dt_ms_nonzero dt Hdt)).
  reflexivity.
Qed.

Lemma diskstat_delta_returns prev curr dt :
  ¬ (dt == 0)%Q → ∃ result, diskstat_delta prev curr dt = Ok result.
Proof.
  intros Hdt. induction curr as [|[k c0] curr [rest IH]]; cbn; [by eexists|].
  destruct (dict_get k prev) as [p0|]; [|by eexists].
  rewrite (diskstat_delta_core_ok p0 c0 dt Hdt), IH. cbn. by eexists.
Qed.

(** C5: for a device present in both disk snapshots and a non-zero
    elapsed time, diskstat_delta returns, and its entry for the device
    has read/write throughput = sector delta * 512 / 1024 / 1024 / dt (MB
    per second) and average read/write latency = ms delta / operation
    delta when the operation delta is positive, exactly 0 when it is 0;
    a write-sector delta of 2048 over dt = 1 gives a write throughput
    equal to 1. *)
Theorem diskstat_delta_throughput_latency prev curr dt dev p c
    (Hp : dict_get dev prev = Some p)
    (Hc : dict_get dev curr = Some c)
    (Hdt : ¬ (dt == 0)%Q) :
  ∃ result v,
    diskstat_delta prev curr dt = Ok result ∧
    dict_get dev result = Some v ∧
    (rMB_per_s v ==
       inject_Z (sectors_read c - sectors_read p) * 512 / (1024 * 1024) / dt)%Q ∧
    (wMB_per_s v ==
       inject_Z (sectors_written c - sectors_written p) * 512 / (1024 * 1024) / dt)%Q ∧
    ((0 < reads c - reads p)%Z →
       avg_r_lat_ms v =
         (inject_Z (ms_reading c - ms_reading p) / inject_Z (reads c - reads p))%Q) ∧
    ((reads c - reads p = 0)%Z → avg_r_lat_ms v = 0%Q) ∧
    ((0 < writes c - writes p)%Z →
       avg_w_lat_ms v =
         (inject_Z (ms_writing c - ms_writing p) / inject_Z (writes c - writes p))%Q) ∧
    ((writes c - writes p = 0)%Z → avg_w_lat_ms v = 0%Q) ∧
    ((sectors_written c - sectors_written p = 2048)%Z → (dt == 1)%Q →
       (wMB_per_s v == 1)%Q).
Proof.
  destruct (diskstat_delta_returns prev curr dt Hdt) as [result Hres].
  destruct (diskstat_delta_lookup _ _ _ _ _ _ _ Hres Hp Hc) as (v & Hv & Hl).
  rewrite (diskstat_delta_core_ok p c dt Hdt) in Hv. injection Hv as <-.
  exists result. eexists. split; [done|]. split; [exact Hl|].
  cbn [rMB_per_s wMB_per_s avg_r_lat_ms avg_w_lat_ms].
  split; [|split; [|split; [|split; [|split; [|split]]]]].
  - rewrite inject_Z_mult. change (inject_Z 512) with 512%Q. field. exact Hdt.
  - rewrite inject_Z_mult. change (inject_Z 512) with 512%Q. field. exact Hdt.
  - intros H. apply Z.ltb_lt in H. by rewrite H.
  - intros ->. reflexivity.
  - intros H. apply Z.ltb_lt in H. by rewrite H.
  - intros ->. reflexivity.
  - intros -> H1. rewrite H1. reflexivity.
Qed.

Lemma diskstat_delta_throughput_latency_witness :
  let p := mk_disk_counters 100 8000 250 40 4096 90 0 300 in
  let c := mk_disk_counters 110 8800 300 40 6144 90 2 420 in
  dict_get "nvme0n1" [("nvme0n1", p)] = Some p ∧
  dict_get "nvme0n1" [("nvme0n1", c)] = Some c ∧
  ¬ (1 == 0)%Q ∧
  ∃ v, diskstat_delta [("nvme0n1", p)] [("nvme0n1", c)] 1 = Ok [("nvme0n1", v)] ∧
       (wMB_per_s v == 1)%Q ∧ avg_r_lat_ms v = (50 / 10)%Q ∧ avg_w_lat_ms v = 0%Q.
Proof.
  intros p c.
  assert (H10 : ¬ (1 == 0)%Q) by discriminate.
  split; [reflexivity|]. split; [reflexivity|]. split; [exact H10|].
  destruct (diskstat_delta_throughput_latency
              [("nvme0n1", p)] [("nvme0n1", c)] 1 "nvme0n1" p c
              eq_refl eq_refl H10)
    as (result & v & Hres & Hv & _ & _ & Hr & _ & _ & Hw & H2048).
  exists v. vm_compute in Hres. injection Hres as <-.
  vm_compute in Hv. injection Hv as <-.
  split; [reflexivity|]. split; [|split].
  - apply H2048; reflexivity.
  - apply Hr. reflexivity.
  - apply Hw. reflexivity.
Defined.

Lemma Qdiv_nonneg (a b : Q) : (0 <= a)%Q → (0 < b)%Q → (0 <= a / b)%Q.
Proof.
  intros Ha Hb. apply Qle_shift_div_l; [done|]. by rewrite Qmult_0_l.
Qed.

Lemma Qdiv_neg (a b : Q) : (a < 0)%Q → (0 < b)%Q → (a / b < 0)%Q.
Proof.
  intros Ha Hb. apply Qlt_shift_div_r; [done|]. by rewrite Qmult_0_l.
Qed.

Lemma dt_floor_pos (dt : Q) : (5 # 100 <= dt)%Q → (0 < dt)%Q.
Proof. intros H. eapply Qlt_le_trans; [|exact H]. reflexivity. Qed.

Lemma Qpos_nonzero (q : Q) : (0 < q)%Q → ¬ (q == 0)%Q.
Proof. intros H H0. rewrite H0 in H. by apply Qlt_irrefl in H. Qed.

(** C4 (as stated, refuted): io_util_pct is not confined to [0, 100] for
    every pair of snapshots: when the weighted-io-ms counter goes back
    (here from 1000 to 0 over one second) the value is -100. *)
Lemma io_util_not_clamped_below :
  ¬ (∀ prev curr dt dev result v,
       (5 # 100 <= dt)%Q →
       diskstat_delta prev curr dt = Ok result →
       dict_get dev result = Some v →
       (0 <= io_util_pct v)%Q ∧ (io_util_pct v <= 100)%Q).
Proof.
  intros H.
  destruct (H [("sda", mk_disk_counters 0 0 0 0 0 0 0 1000)]
              [("sda", mk_disk_counters 0 0 0 0 0 0 0 0)]
              1%Q "sda" _ _ ltac:(discriminate) eq_refl eq_refl) as [Hlo _].
  vm_compute in Hlo. by apply Hlo.
Qed.

(** C4 (amended): for every pair of disk snapshots and every elapsed time
    dt >= 0.05 s, the io_util_pct of a device of both snapshots is at most
    100; it lies in [0, 100] when the weighted-io-ms delta is not
    negative, and it is negative when that delta is negative. *)
Theorem io_util_capped_at_100 prev curr dt dev p c result v
    (Hdt : (5 # 100 <= dt)%Q)
    (Hp : dict_get dev prev = Some p)
    (Hc : dict_get dev curr = Some c)
    (Hres : diskstat_delta prev curr dt = Ok result)
    (Hv : dict_get dev result = Some v) :
  (io_util_pct v <= 100)%Q ∧
  ((weighted_ms_io p ≤ weighted_ms_io c)%Z → (0 <= io_util_pct v)%Q) ∧
  ((weighted_ms_io c < weighted_ms_io p)%Z → (io_util_pct v < 0)%Q).
Proof.
  pose proof (dt_floor_pos dt Hdt) as Hpos.
  pose proof (Qpos_nonzero dt Hpos) as Hnz.
  destruct (diskstat_delta_lookup _ _ _ _ _ _ _ Hres Hp Hc) as (v' & Hv' & Hl).
  assert (v' = v) as -> by congruence.
  rewrite (diskstat_delta_core_ok p c dt Hnz) in Hv'. injection Hv' as <-.
  cbn [io_util_pct].
  assert (Hms : (0 < dt * 1000)%Q).
  { rewrite <- (Qmult_0_l 1000). apply Qmult_lt_r; [reflexivity | done]. }
  set (u := (inject_Z (weighted_ms_io c - weighted_ms_io p) / (dt * 1000) * 100)%Q).
  split; [apply py_min_le_r|]. split.
  - intros Hmono.
    assert (Hu : (0 <= u)%Q).
    { unfold u. apply Qmult_le_0_compat; [|discriminate].
      apply Qdiv_nonneg; [|done].
      change 0%Q with (inject_Z 0). rewrite <- Zle_Qle. lia. }
    destruct (py_min_cases u 100) as [[_ ->]|[_ ->]]; [discriminate | done].
  - intros Hback.
    assert (Hu : (u < 0)%Q).
    { unfold u. rewrite <- (Qmult_0_l 100). apply Qmult_lt_r; [reflexivity|].
      apply Qdiv_neg; [|done].
      change 0%Q with (inject_Z 0). rewrite <- Zlt_Qlt. lia. }
    destruct (py_min_cases u 100) as [[Hlt _]|[_ ->]]; [|done].
    exfalso. apply (Qlt_irrefl 100).
    eapply Qlt_trans; [exact Hlt|]. eapply Qlt_trans; [exact Hu | reflexivity].
Qed.

Lemma io_util_capped_at_100_witness :
  let p := mk_disk_counters 0 0 0 0 0 0 0 100 in
  let c := mk_disk_counters 0 0 0 0 0 0 0 900 in
  ∃ result v,
    (5 # 100 <= 2 # 10)%Q ∧
    dict_get "sda" [("sda", p)] = Some p ∧
    dict_get "sda" [("sda", c)] = Some c ∧
    diskstat_delta [("sda", p)] [("sda", c)] (2 # 10) = Ok result ∧
    dict_get "sda" result = Some v ∧
    (io_util_pct v <= 100)%Q ∧ (0 <= io_util_pct v)%Q.
Proof.
  intros p c.
  assert (Hdt : (5 # 100 <= 2 # 10)%Q) by discriminate.
  eexists. eexists.
  split; [exact Hdt|]. split; [reflexivity|]. split; [reflexivity|].
  split; [vm_compute; reflexivity|]. split; [reflexivity|].
  match goal with
  | |- (io_util_pct ?v <= _)%Q ∧ _ =>
      destruct (io_util_capped_at_100 [("sda", p)] [("sda", c)] (2 # 10) "sda"
                  p c [("sda", v)] v Hdt eq_refl eq_refl eq_refl eq_refl)
        as (Hhi & Hlo & _)
  end.
  split; [exact Hhi|]. apply Hlo. cbn. lia.
Defined.

(* --------------------------------------------------------------------- *)
(*  fmt3                                                                 *)
(* --------------------------------------------------------------------- *)

Lemma insert_sorted_perm (x : Q) (l : list Q) :
  Permutation (insert_sorted x l) (x :: l).
Proof.
  induction l as [|y l IH]; cbn; [done|].
  destruct (Qle_bool x y); [done|].
  rewrite IH. apply perm_swap.
Qed.

Lemma sorted_cons (x : Q) (l : list Q) :
  sorted (x :: l) = insert_sorted x (sorted l).
Proof. reflexivity. Qed.

Lemma sorted_perm (l : list Q) : Permutation (sorted l) l.
Proof.
  induction l as [|x l IH]; [done|].
  rewrite sorted_cons, insert_sorted_perm. by constructor.
Qed.

Lemma insert_sorted_hd (x a : Q) (l : list Q) :
  (a <= x)%Q → HdRel Qle a l → HdRel Qle a (insert_sorted x l).
Proof.
  intros Hax Hl. destruct l as [|y l]; cbn; [by constructor|].
  destruct (Qle_bool x y); constructor; [done|].
  by inversion Hl.
Qed.

Lemma insert_sorted_sorted (x : Q) (l : list Q) :
  Sorted Qle l → Sorted Qle (insert_sorted x l).
Proof.
  induction 1 as [|y l Hs IH Hhd]; cbn; [by repeat constructor|].
  destruct (Qle_bool x y) eqn:E.
  - apply Qle_bool_iff in E. by repeat constructor.
  - constructor; [done|]. apply insert_sorted_hd; [|done].
    apply Qlt_le_weak, Qltb_lt. unfold Qltb. by rewrite E.
Qed.

Lemma sorted_sorted (l : list Q) : Sorted Qle (sorted l).
Proof.
  induction l as [|x l IH]; [constructor|].
  rewrite sorted_cons. by apply insert_sorted_sorted.
Qed.


Lemma p95_index_div (n : nat) : p95_index n = Z.to_nat (Z.of_nat n * 95 / 100).
Proof. reflexivity. Qed.

Lemma p95_index_lt (n : nat) : (0 < n)%nat → (p95_index n < n)%nat.
Proof.
  intros Hn. rewrite p95_index_div.
  assert (Z.of_nat n * 95 / 100 < Z.of_nat n)%Z.
  { apply Z.div_lt_upper_bound; lia. }
  assert (0 ≤ Z.of_nat n * 95 / 100)%Z by (apply Z.div_pos; lia).
  lia.
Qed.

Lemma py_max_cons (m x : Q) (xs : list Q) :
  py_max m (x :: xs) = py_max (if Qltb m x then x else m) xs.
Proof. reflexivity. Qed.

Lemma py_max_fold_ge (m : Q) (xs : list Q) :
  (m <= py_max m xs)%Q ∧ ∀ y, y ∈ xs → (y <= py_max m xs)%Q.
Proof.
  revert m. induction xs as [|x xs IH]; intros m; [|rewrite py_max_cons].
  - split; [apply Qle_refl|]. intros y Hy. by apply elem_of_nil in Hy.
  - destruct (Qltb m x) eqn:E.
    + destruct (IH x) as [Hx Hxs]. apply Qltb_lt in E. split.
      * eapply Qle_trans; [apply Qlt_le_weak, E | exact Hx].
      * intros y [->|Hy]%elem_of_cons; [done | by apply Hxs].
    + destruct (IH m) as [Hm Hxs]. apply Qltb_ge in E. split; [done|].
      intros y [->|Hy]%elem_of_cons; [|by apply Hxs].
      eapply Qle_trans; [exact E | exact Hm].
Qed.

Lemma py_max_fold_in (m : Q) (xs : list Q) : py_max m xs ∈ m :: xs.
Proof.
  revert m. induction xs as [|x xs IH]; intros m; [|rewrite py_max_cons].
  - apply elem_of_cons. by left.
  - destruct (Qltb m x).
    + apply elem_of_cons. right. apply IH.
    + specialize (IH m). apply elem_of_cons in IH as [->|IH].
      * apply elem_of_cons. by left.
      * apply elem_of_cons. right. apply elem_of_cons. by right.
Qed.



(* --------------------------------------------------------------------- *)
(*  GPU backend                                                          *)
(* --------------------------------------------------------------------- *)

Lemma get_vram_nvml_ok g line smi :
  USE_NVML g = true → GPU_BACKEND g ≠ "disabled" →
  get_vram g (Ok line) smi = (mk_gpu_state true 0 (GPU_BACKEND g), line, []).
Proof.
  intros Hn Hb. unfold get_vram.
  apply String.eqb_neq in Hb. by rewrite Hb, Hn.
Qed.

Lemma get_vram_nvml_fail g e smi :
  USE_NVML g = true → GPU_BACKEND g ≠ "disabled" →
  (get_vram g (Raise e) smi).1.1 =
    if (NVML_FAIL_MAX <=? NVML_FAIL_COUNT g + 1)%Z
    then mk_gpu_state false (NVML_FAIL_COUNT g + 1)
           (str_replace "NVML" "nvidia-smi (NVML fallback)" (GPU_BACKEND g))
    else mk_gpu_state true (NVML_FAIL_COUNT g + 1) (GPU_BACKEND g).
Proof.
  intros Hn Hb. unfold get_vram.
  apply String.eqb_neq in Hb. rewrite Hb, Hn.
  destruct (NVML_FAIL_MAX <=? NVML_FAIL_COUNT g + 1)%Z;
    destruct (nvidia_smi_query smi); done.
Qed.

(* on the subprocess path no outcome brings the direct binding back *)
Lemma get_vram_stays_off g nvml smi :
  USE_NVML g = false → USE_NVML (get_vram g nvml smi).1.1 = false.
Proof.
  intros Hn. unfold get_vram. rewrite Hn.
  destruct (String.eqb _ _); [done|].
  by destruct (nvidia_smi_query smi).
Qed.

Lemma gpu_run_stays_off g qs :
  USE_NVML g = false → USE_NVML (gpu_run g qs) = false.
Proof.
  revert g. induction qs as [|[nvml smi] qs IH]; intros g Hn; [done|].
  cbn. apply IH. by apply get_vram_stays_off.
Qed.

Lemma fails_first_three_in_a_row qs : fails_first 3 qs → three_in_a_row qs.
Proof. destruct qs; cbn; tauto. Qed.

(* in the direct-binding state with c failures counted, the run ends on
   the subprocess path exactly when the next 3 - c queries fail or three
   queries in a row fail later *)
Lemma gpu_run_switch g qs :
  USE_NVML g = true → GPU_BACKEND g ≠ "disabled" →
  (0 ≤ NVML_FAIL_COUNT g < 3)%Z →
  USE_NVML (gpu_run g qs) = false ↔
  fails_first (Z.to_nat (3 - NVML_FAIL_COUNT g)) qs ∨ three_in_a_row qs.
Proof.
  revert g. induction qs as [|[nvml smi] qs IH]; intros g Hn Hb Hc.
  - cbn. rewrite Hn.
    destruct (Z.to_nat (3 - NVML_FAIL_COUNT g)) eqn:E; [lia|].
    cbn. split; [done | tauto].
  - cbn [gpu_run]. destruct nvml as [line|e].
    + rewrite (get_vram_nvml_ok g line smi Hn Hb). cbn [fst].
      rewrite IH by (cbn; first [done | lia]).
      cbn [NVML_FAIL_COUNT]. change (Z.to_nat (3 - 0)) with 3%nat.
      destruct (Z.to_nat (3 - NVML_FAIL_COUNT g)) eqn:E; [lia|].
      cbn [fails_first three_in_a_row].
      pose proof (fails_first_three_in_a_row qs). tauto.
    + rewrite (get_vram_nvml_fail g e smi Hn Hb). unfold NVML_FAIL_MAX.
      destruct (3 <=? NVML_FAIL_COUNT g + 1)%Z eqn:E.
      * apply Z.leb_le in E.
        rewrite gpu_run_stays_off by done.
        replace (Z.to_nat (3 - NVML_FAIL_COUNT g)) with 1%nat by lia.
        cbn. tauto.
      * apply Z.leb_gt in E.
        rewrite IH by (cbn; first [done | lia]).
        cbn [NVML_FAIL_COUNT].
        replace (Z.to_nat (3 - NVML_FAIL_COUNT g))
          with (S (Z.to_nat (3 - (NVML_FAIL_COUNT g + 1)))) by lia.
        cbn [fails_first three_in_a_row].
        assert (Hmono : fails_first 2 qs →
                  fails_first (Z.to_nat (3 - (NVML_FAIL_COUNT g + 1))) qs).
        { assert (Z.to_nat (3 - (NVML_FAIL_COUNT g + 1)) = 1%nat
                  ∨ Z.to_nat (3 - (NVML_FAIL_COUNT g + 1)) = 2%nat) as [->| ->]
            by lia; [|done].
          destruct qs as [|[[?|?] ?] ?]; cbn; tauto. }
        tauto.
Qed.

(** C2: in the direct-binding (NVML) state a successful query resets the
    consecutive-failure counter to 0 and a failed one increments it; the
    query that brings the counter to 3 switches the backend to the
    nvidia-smi path; from a counter of 0 a run of queries ends on the
    nvidia-smi path exactly when three queries in a row failed on NVML;
    and once on the nvidia-smi path no later query, whatever NVML or
    nvidia-smi does (nvidia-smi failing included), restores the direct
    binding. *)
Theorem gpu_failover_one_way g
    (Hn : USE_NVML g = true)
    (Hb : GPU_BACKEND g ≠ "disabled") :
  (∀ line smi,
     let g' := (get_vram g (Ok line) smi).1.1 in
     USE_NVML g' = true ∧ NVML_FAIL_COUNT g' = 0%Z) ∧
  (∀ e smi,
     let g' := (get_vram g (Raise e) smi).1.1 in
     NVML_FAIL_COUNT g' = (NVML_FAIL_COUNT g + 1)%Z ∧
     (USE_NVML g' = false ↔ (3 ≤ NVML_FAIL_COUNT g + 1)%Z)) ∧
  (NVML_FAIL_COUNT g = 0%Z →
     ∀ qs, USE_NVML (gpu_run g qs) = false ↔ three_in_a_row qs) ∧
  (∀ qs later, USE_NVML (gpu_run g qs) = false →
     USE_NVML (gpu_run (gpu_run g qs) later) = false).
Proof.
  split; [|split; [|split]].
  - intros line smi. by rewrite (get_vram_nvml_ok g line smi Hn Hb).
  - intros e smi. rewrite (get_vram_nvml_fail g e smi Hn Hb).
    unfold NVML_FAIL_MAX.
    destruct (3 <=? NVML_FAIL_COUNT g + 1)%Z eqn:E; cbn.
    + apply Z.leb_le in E. tauto.
    + apply Z.leb_gt in E. split; [done|]. split; [done | lia].
  - intros Hc qs. rewrite (gpu_run_switch g qs Hn Hb) by lia.
    rewrite Hc. change (Z.to_nat (3 - 0)) with 3%nat.
    pose proof (fails_first_three_in_a_row qs). tauto.
  - intros qs later Hoff. by apply gpu_run_stays_off.
Qed.

Lemma gpu_failover_one_way_witness :
  let g := mk_gpu_state true 0 "NVML (NVIDIA GeForce RTX 4090)" in
  let qs := [(Ok "1, 2", Ok ""); (Raise "NVMLError", Ok "3, 4");
             (Raise "NVMLError", Ok "3, 4"); (Raise "NVMLError", Ok "3, 4")] in
  let later := [(Ok "1, 2", Raise "CalledProcessError");
                (Ok "1, 2", Ok "5, 6")] in
  USE_NVML g = true ∧ GPU_BACKEND g ≠ "disabled" ∧
  gpu_run g qs =
    mk_gpu_state false 3 "nvidia-smi (NVML fallback) (NVIDIA GeForce RTX 4090)" ∧
  USE_NVML (gpu_run (gpu_run g qs) later) = false.
Proof.
  intros g qs later.
  assert (Hb : GPU_BACKEND g ≠ "disabled") by discriminate.
  split; [reflexivity|]. split; [exact Hb|]. split; [reflexivity|].
  destruct (gpu_failover_one_way g eq_refl Hb) as (_ & _ & _ & Hstay).
  apply Hstay. reflexivity.
Defined.

(* --------------------------------------------------------------------- *)
(*  correlate_events                                                     *)
(* --------------------------------------------------------------------- *)

Section correlate_facts.
Variable float : string → option Q.
Variables (events : list xp_event) (ts_col vc : nat) (thr window : Q).

Let nearby_of (ts : Q) : list xp_event :=
  filter (fun e => in_window ts window e = true) events.

Lemma nearby_elem (ts : Q) (e : xp_event) :
  e ∈ nearby_of ts ↔ e ∈ events ∧ (Qabs (e.1.1 - ts) <= window)%Q.
Proof.
  unfold nearby_of. rewrite list_elem_of_filter. unfold in_window.
  rewrite Qle_bool_iff. tauto.
Qed.

(* a row whose two cells parse: the body of the loop comes down to the
   threshold test and the window test *)
Lemma row_hit_parsed (row : list string) (s1 s2 : string) (ts val : Q) :
  row !! ts_col = Some s1 → float s1 = Some ts →
  row !! vc = Some s2 → float s2 = Some val →
  row_hit float events ts_col (Some vc) (Some thr) window row =
    if Qltb val thr then None
    else match nearby_of ts with
         | [] => None
         | _ :: _ => Some (ts, val, nearby_of ts)
         end.
Proof.
  intros H1 Hf1 H2 Hf2. unfold row_hit.
  assert (Hlen : (length row <=? Nat.max ts_col (default 0%nat (Some vc)))%nat
                 = false).
  { apply Nat.leb_gt. apply lookup_lt_Some in H1, H2. cbn. lia. }
  rewrite Hlen, H1, H2. cbn. rewrite Hf1, Hf2. cbn. reflexivity.
Qed.

(* what a hit says about the row it comes from *)
Lemma row_hit_inv (row : list string) (ts val : Q) (n : list xp_event) :
  row_hit float events ts_col (Some vc) (Some thr) window row
    = Some (ts, val, n) →
  (thr <= val)%Q ∧ n = nearby_of ts ∧ n ≠ [].
Proof.
  unfold row_hit.
  destruct (length row <=? _)%nat; [done|].
  destruct (row !! ts_col ≫= float) as [ts'|]; cbn; [|done].
  destruct (row !! vc ≫= float) as [val'|]; cbn; [|done].
  destruct (Qltb val' thr) eqn:E; [done|].
  fold (nearby_of ts').
  destruct (nearby_of ts') as [|e n'] eqn:En; [done|].
  intros [= <- <- <-]. split; [by apply Qltb_ge|]. done.
Qed.

(** C6: correlate_events reports a row whose timestamp and value cells
    parse exactly when the value is at or above the threshold and at
    least one event lies within the window, |event_ts - row_ts| <=
    window; the hit carries the events of the window and no others; a
    row below the threshold or with no event in the window gives no
    hit, and every hit comes from a row of the file. *)
Theorem correlate_events_hit_iff (header : list string)
    (rows : list (list string)) (row : list string)
    (s1 s2 : string) (ts val : Q)
    (Hev : events ≠ [])
    (Hrow : row ∈ rows)
    (H1 : row !! ts_col = Some s1) (Hf1 : float s1 = Some ts)
    (H2 : row !! vc = Some s2) (Hf2 : float s2 = Some val) :
  let hits := (correlate_events float (Some (header :: rows)) events
                 ts_col (Some vc) (Some thr) window).1 in
  (is_Some (row_hit float events ts_col (Some vc) (Some thr) window row) ↔
     (thr <= val)%Q ∧ ∃ e, e ∈ events ∧ (Qabs (e.1.1 - ts) <= window)%Q) ∧
  ((ts, val, nearby_of ts) ∈ hits ↔
     (thr <= val)%Q ∧ ∃ e, e ∈ events ∧ (Qabs (e.1.1 - ts) <= window)%Q) ∧
  (∀ e, e ∈ nearby_of ts ↔ e ∈ events ∧ (Qabs (e.1.1 - ts) <= window)%Q) ∧
  (∀ h, h ∈ hits →
     ∃ r, r ∈ rows ∧
          row_hit float events ts_col (Some vc) (Some thr) window r = Some h).
Proof.
  intros hits.
  assert (Hhits : hits =
            omap (row_hit float events ts_col (Some vc) (Some thr) window) rows).
  { unfold hits, correlate_events. destruct events; done. }
  pose proof (row_hit_parsed row s1 s2 ts val H1 Hf1 H2 Hf2) as Hrh.
  assert (Hnonempty : nearby_of ts ≠ [] ↔
            ∃ e, e ∈ events ∧ (Qabs (e.1.1 - ts) <= window)%Q).
  { split.
    - destruct (nearby_of ts) as [|e n] eqn:En; [done|]. intros _.
      exists e. apply nearby_elem. rewrite En. apply elem_of_cons. by left.
    - intros (e & He) Hnil. apply nearby_elem in He.
      rewrite Hnil in He. by apply elem_of_nil in He. }
  assert (Hone : is_Some (row_hit float events ts_col (Some vc) (Some thr)
                            window row) ↔
            (thr <= val)%Q ∧ nearby_of ts ≠ []).
  { rewrite Hrh. destruct (Qltb val thr) eqn:E.
    - apply Qltb_lt in E. split; [by intros [? ?]|].
      intros [Hle _]. exfalso. by apply (Qlt_not_le val thr).
    - apply Qltb_ge in E.
      destruct (nearby_of ts) as [|e n]; split.
      + by intros [? ?].
      + by intros [_ ?].
      + done.
      + by eexists. }
  split; [by rewrite Hone, Hnonempty|]. split; [|split].
  - rewrite <- Hnonempty, Hhits, list_elem_of_omap. split.
    + intros (r & _ & Hr). apply row_hit_inv in Hr as (Hle & _ & Hne). done.
    + intros HH. apply Hone in HH. exists row. split; [done|].
      rewrite Hrh in *. destruct (Qltb val thr); [by destruct HH|].
      destruct (nearby_of ts); [by destruct HH | done].
  - apply nearby_elem.
  - intros h Hh. rewrite Hhits in Hh. by apply list_elem_of_omap in Hh.
Qed.
End correlate_facts.

Lemma correlate_events_hit_iff_witness :
  let e101 : xp_event := (101%Q, "DSF", "+47-123.dsf (812ms)") in
  let e105 : xp_event := (105%Q, "DSF", "+47-124.dsf (790ms)") in
  let events := [e101; e105] in
  let row := ["100"; "60"] in
  events ≠ [] ∧ row ∈ [row] ∧
  row !! 0%nat = Some "100" ∧ float_of_digits "100" = Some 100%Q ∧
  row !! 1%nat = Some "60" ∧ float_of_digits "60" = Some 60%Q ∧
  (100%Q, 60%Q, [e101]) ∈
    (correlate_events float_of_digits (Some (["timestamp"; "value"] :: [row]))
       events 0 (Some 1%nat) (Some 50%Q) 2%Q).1.
Proof.
  intros e101 e105 events row.
  assert (Hev : events ≠ []) by discriminate.
  assert (Hrow : row ∈ [row]) by (apply elem_of_cons; by left).
  split; [exact Hev|]. split; [exact Hrow|].
  split; [reflexivity|]. split; [reflexivity|].
  split; [reflexivity|]. split; [reflexivity|].
  destruct (correlate_events_hit_iff float_of_digits events 0 1 50%Q 2%Q
              ["timestamp"; "value"] [row] row "100" "60" 100%Q 60%Q
              Hev Hrow eq_refl eq_refl eq_refl eq_refl) as (_ & Hin & _ & _).
  apply Hin. split; [discriminate|].
  exists e101. split; [apply elem_of_cons; by left | discriminate].
Defined.

(* the sample of the specification: an event 5 s away is outside +-2 s *)
Example correlate_events_far_event :
  (correlate_events float_of_digits
     (Some [["timestamp"; "value"]; ["100"; "60"]])
     [(105%Q, "DSF", "+47-124.dsf (790ms)")] 0 (Some 1%nat) (Some 50%Q) 2%Q).1
  = [].
Proof. reflexivity. Qed.

(* a row under the threshold is not reported, whatever the events *)
Example correlate_events_below_threshold :
  (correlate_events float_of_digits
     (Some [["timestamp"; "value"]; ["100"; "40"]])
     [(101%Q, "DSF", "+47-123.dsf (812ms)")] 0 (Some 1%nat) (Some 50%Q) 2%Q).1
  = [].
Proof. reflexivity. Qed.

(* --------------------------------------------------------------------- *)
(*  Each sampling block appends to its own sinks only                    *)
(* --------------------------------------------------------------------- *)

Section frame.
Context {S : Type}.
Variable f : stream.

Lemma writes_only_ret {A} (a : A) : writes_only f (mret a : blk S A).
Proof. intros s. constructor. Qed.

Lemma writes_only_lift {A} (m : outcome A) : writes_only f (lift m : blk S A).
Proof. intros s. constructor. Qed.

Lemma writes_only_get : writes_only f (get : blk S S).
Proof. intros s. constructor. Qed.

Lemma writes_only_put (s0 : S) : writes_only f (put s0).
Proof. intros s. constructor. Qed.

Lemma writes_only_emits (es : list effect) :
  Forall (belongs f) es → writes_only f (emits es : blk S unit).
Proof. intros H s. exact H. Qed.

Lemma writes_only_emit (e : effect) :
  belongs f e → writes_only f (emit e : blk S unit).
Proof. intros H s. cbn. constructor; [exact H | constructor]. Qed.

Lemma writes_only_bind {A B} (m : blk S A) (k : A → blk S B) :
  writes_only f m → (∀ a, writes_only f (k a)) → writes_only f (m ≫= k).
Proof.
  intros Hm Hk s. unfold mbind, blk_bind.
  specialize (Hm s). destruct (m s) as [[[a|e] s'] o]; cbn in *; [|done].
  specialize (Hk a s'). destruct (k a s') as [[r s''] o']; cbn in *.
  by apply Forall_app.
Qed.

Lemma writes_only_for_each {A} (k : A → blk S unit) (l : list A) :
  (∀ a, writes_only f (k a)) → writes_only f (for_each k l).
Proof.
  intros Hk. induction l as [|a l IH]; cbn [for_each].
  - apply writes_only_ret.
  - apply writes_only_bind; [apply Hk | by intros _].
Qed.

Lemma try_except_belongs (what : string) (body : blk S unit) (s : S) :
  writes_only f body → Forall (belongs f) (try_except what body s).2.
Proof.
  intros Hb. unfold try_except. specialize (Hb s).
  destruct (body s) as [[[[]|e] s'] o]; cbn in *; [done|].
  apply Forall_app. split; [done|]. constructor; [by right | constructor].
Qed.
End frame.

Lemma csv_rows_app (f : stream) (o1 o2 : list effect) :
  csv_rows f (o1 ++ o2) = csv_rows f o1 ++ csv_rows f o2.
Proof. unfold csv_rows. apply omap_app. Qed.

Lemma csv_rows_foreign (f g : stream) (o : list effect) :
  f ≠ g → Forall (belongs g) o → csv_rows f o = [].
Proof.
  intros Hne. induction 1 as [|e o He Ho IH]; [done|].
  change (e :: o) with ([e] ++ o). rewrite csv_rows_app, IH. destruct e as [f' r| | | |]; try done.
  destruct He as [He|He]; [|done]. cbn in He. injection He as ->.
  cbn. by rewrite decide_False.
Qed.

Ltac writes_only_tac :=
  repeat first
    [ apply writes_only_ret | apply writes_only_lift | apply writes_only_get
    | apply writes_only_put
    | apply writes_only_emits; repeat constructor; by left
    | apply writes_only_emit; by left
    | apply writes_only_for_each; intros []
    | apply writes_only_bind; [|intros ?]
    | match goal with
      | |- writes_only _ (let '(_, _) := ?x in _) => destruct x
      | |- writes_only _ (match ?x with _ => _ end) => destruct x
      end ].

Section blocks.
Variable NUM_CPUS : nat.
Variable CLK_TCK : Z.
Variable float : string → option Q.

Lemma sample_cpu_writes ts rd : writes_only cpu_csv (sample_cpu ts rd).
Proof. unfold sample_cpu. writes_only_tac. Qed.

Lemma sample_disk_writes ts dt rd : writes_only io_csv (sample_disk ts dt rd).
Proof. unfold sample_disk. writes_only_tac. Qed.

Lemma sample_mem_writes ts rd : writes_only mem_csv (sample_mem ts rd).
Proof. unfold sample_mem. writes_only_tac. Qed.

Lemma sample_irq_writes ts slow_dt rd :
  writes_only irq_csv (sample_irq NUM_CPUS ts slow_dt rd).
Proof. unfold sample_irq. writes_only_tac. Qed.

Lemma sample_vram_writes ts nvml smi :
  writes_only vram_csv (sample_vram float ts nvml smi).
Proof.
  unfold sample_vram. writes_only_tac.
  apply writes_only_emits, Forall_forall.
  intros e [line [-> _]]%list_elem_of_fmap. by right.
Qed.

Lemma sample_vmstat_writes ts slow_dt cc rd :
  writes_only vmstat_csv (sample_vmstat ts slow_dt cc rd).
Proof. unfold sample_vmstat. writes_only_tac. Qed.

Lemma sample_psi_writes ts rd : writes_only psi_csv (sample_psi ts rd).
Proof. unfold sample_psi. writes_only_tac. Qed.

Lemma sample_freq_writes ts rd : writes_only freq_csv (sample_freq ts rd).
Proof.
  unfold sample_freq. writes_only_tac.
  apply writes_only_emits, Forall_forall. intros e He.
  apply list_elem_of_join in He as (l & He & Hl).
  apply elem_of_lookup_imap_1 in Hl as (i & fq & -> & _).
  destruct (Qltb 0 fq); [|by apply elem_of_nil in He].
  apply elem_of_cons in He as [->|He]; [by left | by apply elem_of_nil in He].
Qed.

Lemma track_one_writes ts slow_dt read item :
  writes_only proc_csv (track_one CLK_TCK ts slow_dt read item).
Proof. unfold track_one. destruct item. writes_only_tac. Qed.

Lemma sample_procs_writes ts now slow_dt scan read :
  writes_only proc_csv (sample_procs CLK_TCK ts now slow_dt scan read).
Proof.
  unfold sample_procs, rescan. writes_only_tac.
Qed.
End blocks.

(* --------------------------------------------------------------------- *)
(*  The iteration, source by source                                      *)
(* --------------------------------------------------------------------- *)

Lemma stat_values_app (l : stat_list) (o1 o2 : list effect) :
  stat_values l (o1 ++ o2) = stat_values l o1 ++ stat_values l o2.
Proof. unfold stat_values. apply omap_app. Qed.

Section step.
Variable NUM_CPUS : nat.
Variable CLK_TCK : Z.
Variable float : string → option Q.

Local Abbreviation step := (collect_step NUM_CPUS CLK_TCK float).
Local Abbreviation run := (collect NUM_CPUS CLK_TCK float).
Local Abbreviation block := (block_output NUM_CPUS CLK_TCK float).

Lemma collect_step_dropped st e :
(now_mono e - prev_time st < 5 # 100)%Q → step st e = st.
Proof.
intros H. unfold collect_step.
apply Qltb_lt in H. by rewrite H.
Qed.

Lemma block_output_belongs f st e : Forall (belongs f) (block f st e).
Proof.
destruct f; apply try_except_belongs.
- apply sample_cpu_writes.
- apply sample_mem_writes.
- apply sample_disk_writes.
- apply sample_vram_writes.
- apply sample_irq_writes.
- apply sample_procs_writes.
- apply sample_vmstat_writes.
- apply sample_psi_writes.
- apply sample_freq_writes.
Qed.

(* the appends of an accepted iteration, in program order, and the
 locals that the vmstat block and the per-process block assign *)
Lemma collect_step_blocks st e :
Qltb (now_mono e - prev_time st) (5 # 100) = false →
let slow := Qle_bool 1 (now_mono e - last_slow st) in
∃ o_progress,
  Forall (fun x => effect_source x = None) o_progress ∧
  out (step st e) =
    out st ++ block cpu_csv st e ++ block io_csv st e ++ block mem_csv st e
    ++ (if slow
        then block irq_csv st e ++ block vram_csv st e
             ++ block vmstat_csv st e ++ block psi_csv st e
             ++ block freq_csv st e ++ block proc_csv st e
        else [])
    ++ o_progress ∧
  prev_vmstat (step st e) =
    (if slow
     then (try_except "vmstat sample"
             (sample_vmstat (ts e) (now_mono e - last_slow st)
                (ctxt_after_cpu st e) (parse_vmstat e))
             (prev_vmstat st, prev_ctxt st)).1.1
     else prev_vmstat st) ∧
  tracker (step st e) =
    (if slow
     then (try_except "Process tracking"
             (sample_procs CLK_TCK (ts e) (now_mono e)
                (now_mono e - last_slow st)
                (find_tracked_procs e) (read_proc_stats e))
             (tracker st)).1
     else tracker st).
Proof.
intros Hacc slow. unfold collect_step, block_output, ctxt_after_cpu.
rewrite Hacc. subst slow.
destruct (try_except "CPU sample" _ _) as [[pc cc] o_cpu].
destruct (try_except "IO sample" _ _) as [pd o_disk].
destruct (try_except "Memory sample" _ _) as [[] o_mem].
set (o_progress := if decide (((sample_count st + 1) `mod` 300)%Z = 0%Z)
                   then _ else _).
assert (Hprog : Forall (fun x => effect_source x = None) o_progress).
{ unfold o_progress. destruct (decide _); repeat constructor. }
exists o_progress. split; [exact Hprog|].
destruct (Qle_bool 1 (now_mono e - last_slow st)); [|done].
unfold slow_probes. cbn [fst snd].
destruct (try_except "IRQ sample" _ _) as [[pi ic] o_irq].
destruct (try_except "VRAM sample" _ _) as [g' o_vram].
destruct (try_except "vmstat sample" _ _) as [[pv pcx] o_vmstat].
destruct (try_except "PSI sample" _ _) as [[] o_psi].
destruct (try_except "CPU freq sample" _ _) as [[] o_freq].
destruct (try_except "Process tracking" _ _) as [t' o_proc].
done.
Qed.

(* each CSV file receives, in an iteration, the rows of its own block
 and nothing else *)
Lemma collect_step_rows f st e :
csv_rows f (out (step st e)) =
  csv_rows f (out st)
  ++ (if block_runs f st e then csv_rows f (block f st e) else []).
Proof.
unfold block_runs.
destruct (Qltb (now_mono e - prev_time st) (5 # 100)) eqn:Hacc.
{ apply Qltb_lt in Hacc. rewrite collect_step_dropped by done.
  cbn. by rewrite app_nil_r. }
destruct (collect_step_blocks st e Hacc) as (o_progress & Hprog & Hout & _).
assert (Hp : csv_rows f o_progress = []).
{ clear -Hprog. induction Hprog as [|x o Hx _ IH]; [done|].
  change (x :: o) with ([x] ++ o). rewrite csv_rows_app, IH.
  by destruct x. }
rewrite Hout. cbn [negb andb].
destruct (Qle_bool 1 (now_mono e - last_slow st));
  rewrite !csv_rows_app, Hp;
  destruct f; cbn [slow_tier negb orb];
  repeat match goal with
  | |- context [csv_rows ?f1 (block ?g st e)] =>
      rewrite (csv_rows_foreign f1 g (block g st e))
        by (done || apply block_output_belongs)
  end;
  cbn [app]; by rewrite ?app_nil_r.
Qed.
End step.

(* --------------------------------------------------------------------- *)
(*  Per-process tracking                                                 *)
(* --------------------------------------------------------------------- *)





Section tracking.
Variable CLK_TCK : Z.
Variables (ts slow_dt : Q) (read : Z → outcome (option proc_stats)).

Local Abbreviation track := (track_one CLK_TCK ts slow_dt read).





End tracking.

Lemma proc_rows_of_foreign (pid : Z) (f : stream) (o : list effect) :
  f ≠ proc_csv → Forall (belongs f) o → proc_rows_of pid o = [].
Proof.
  intros Hne Ho. unfold proc_rows_of.
  by rewrite (csv_rows_foreign proc_csv f o).
Qed.

Lemma proc_rows_of_prints (pid : Z) (o : list effect) :
  Forall (fun x => effect_source x = None) o → proc_rows_of pid o = [].
Proof.
  intros Ho. apply (proc_rows_of_foreign pid cpu_csv); [done|].
  eapply Forall_impl; [exact Ho|]. intros x Hx. by right.
Qed.


Section tracking_block.
Variable CLK_TCK : Z.
Variables (ts now slow_dt : Q).
Variable scan : outcome (list (Z * string)).
Variable read : Z → outcome (option proc_stats).




End tracking_block.



Section run.
Variable NUM_CPUS : nat.
Variable CLK_TCK : Z.
Variable float : string → option Q.

Local Abbreviation step := (collect_step NUM_CPUS CLK_TCK float).
Local Abbreviation run := (collect NUM_CPUS CLK_TCK float).





End run.


Section dropped.
Variable NUM_CPUS : nat.
Variable CLK_TCK : Z.
Variable float : string → option Q.

Local Abbreviation step := (collect_step NUM_CPUS CLK_TCK float).
Local Abbreviation run := (collect NUM_CPUS CLK_TCK float).

(** C1: an iteration of the sampling loop whose monotonic elapsed time
    since the previous accepted tick is below 0.05 s changes nothing:
    the state after it is the state before it, so no row is written to
    any CSV file, no value is appended to any Stats list, the previous
    CPU, disk, interrupt and vmstat snapshots and prev_time are the
    same, and the rest of the run goes on as if the iteration had not
    taken place. *)
Theorem dropped_tick_is_noop st e
    (Hdt : (now_mono e - prev_time st < 5 # 100)%Q) :
  step st e = st ∧
  (∀ f, csv_rows f (out (step st e)) = csv_rows f (out st)) ∧
  (∀ l, stat_values l (out (step st e)) = stat_values l (out st)) ∧
  prev_cpu (step st e) = prev_cpu st ∧
  prev_disk (step st e) = prev_disk st ∧
  prev_irq (step st e) = prev_irq st ∧
  prev_vmstat (step st e) = prev_vmstat st ∧
  prev_ctxt (step st e) = prev_ctxt st ∧
  prev_time (step st e) = prev_time st ∧
  (∀ es, run st (e :: es) = run st es).
Proof.
  pose proof (collect_step_dropped NUM_CPUS CLK_TCK float st e Hdt) as H.
  rewrite H. repeat (split; [done|]).
  intros es. unfold collect. cbn [foldl]. by rewrite H.
Qed.
End dropped.

Lemma dropped_tick_is_noop_witness :
  let e := Sample.tick (1000 + (1 # 100)) (Ok (Sample.cpu_b, 5500%Z))
             (fun _ => Ok None) in
  (now_mono e - prev_time Sample.start < 5 # 100)%Q ∧
  Sample.step Sample.start e = Sample.start ∧
  Sample.run Sample.start
    [e; Sample.tick 1001 (Ok (Sample.cpu_b, 5500%Z)) (fun _ => Ok None)]
  = Sample.run Sample.start
      [Sample.tick 1001 (Ok (Sample.cpu_b, 5500%Z)) (fun _ => Ok None)].
Proof.
  intros e.
  assert (Hdt : (now_mono e - prev_time Sample.start < 5 # 100)%Q)
    by reflexivity.
  destruct (dropped_tick_is_noop Sample.NUM_CPUS Sample.CLK_TCK float_of_digits
              Sample.start e Hdt) as (Hsame & _ & _ & _ & _ & _ & _ & _ & _ & Hrun).
  split; [exact Hdt|]. split; [exact Hsame|]. apply Hrun.
Defined.

(* --------------------------------------------------------------------- *)
(*  A failure of the CPU block and the vmstat block                      *)
(* --------------------------------------------------------------------- *)

Section isolation.
Variable NUM_CPUS : nat.
Variable CLK_TCK : Z.
Variable float : string → option Q.

Local Abbreviation step := (collect_step NUM_CPUS CLK_TCK float).
Local Abbreviation block := (block_output NUM_CPUS CLK_TCK float).

(* an exception in a block ends that block only: it is printed with
   the name of the block and the iteration goes on with the state the
   block had reached *)
Lemma try_except_catches {S} what (body : blk S unit) s e s' o :
  body s = (Raise e, s', o) →
  try_except what body s = (s', o ++ [Print (ErrorLine what e)]).
Proof. intros H. unfold try_except. by rewrite H. Qed.

(* what a block appends depends on the clock and on its own readers
   only, the vmstat block apart: it also reads curr_ctxt, which the CPU
   block assigns *)
Lemma block_output_same_input f st e1 e2 :
  same_input f e1 e2 →
  (f = vmstat_csv → ctxt_after_cpu st e1 = ctxt_after_cpu st e2) →
  block f st e1 = block f st e2.
Proof.
  intros (Hn & Ht & Hr) Hcc. unfold block_output.
  destruct f;
    lazymatch type of Hr with
    | _ ∧ _ => destruct Hr as [Hr1 Hr2]; rewrite ?Hn, Ht, Hr1, Hr2
    | _ => rewrite ?Hn, Ht, Hr
    end; try done.
  by rewrite (Hcc eq_refl).
Qed.

(* the rows that a CSV file other than vmstat.csv receives in an
   iteration are the same whatever the readers of the other sources
   return or raise *)
Lemma rows_depend_on_own_source f st e1 e2 :
  f ≠ vmstat_csv →
  same_input f e1 e2 →
  csv_rows f (out (step st e1)) = csv_rows f (out (step st e2)).
Proof.
  intros Hf Hin. rewrite !collect_step_rows.
  rewrite (block_output_same_input f st e1 e2 Hin) by done.
  destruct Hin as (Hn & _ & _). unfold block_runs. by rewrite Hn.
Qed.

(* while curr_ctxt is not bound, a failure of parse_cpu_stat takes the
   vmstat block with it: no row goes to vmstat.csv on that iteration,
   whatever parse_vmstat returns *)
Lemma unbound_ctxt_no_vmstat_row st e err :
  curr_ctxt st = None →
  parse_cpu_stat e = Raise err →
  csv_rows vmstat_csv (out (step st e)) = csv_rows vmstat_csv (out st) ∧
  prev_vmstat (step st e) = prev_vmstat st.
Proof.
  intros Hcc Hcpu.
  assert (Hctxt : ctxt_after_cpu st e = None).
  { unfold ctxt_after_cpu. by rewrite Hcpu. }
  split.
  - rewrite collect_step_rows.
    destruct (block_runs _ _ _); [|by rewrite app_nil_r].
    unfold block_output. rewrite Hctxt.
    unfold try_except, sample_vmstat, mbind, blk_bind, lift, get.
    destruct (parse_vmstat e); cbn; by rewrite app_nil_r.
  - destruct (Qltb (now_mono e - prev_time st) (5 # 100)) eqn:Hacc.
    { apply Qltb_lt in Hacc. by rewrite collect_step_dropped. }
    destruct (collect_step_blocks NUM_CPUS CLK_TCK float st e Hacc)
      as (_ & _ & _ & -> & _).
    destruct (Qle_bool 1 _); [|done]. rewrite Hctxt.
    unfold try_except, sample_vmstat, mbind, blk_bind, lift, get.
    by destruct (parse_vmstat e).
Qed.
End isolation.

(** C7 (the code departs from it): at the first slow tick of a run, with
    every reader but parse_cpu_stat succeeding, the failure of the CPU
    block is caught and printed, but the vmstat block then fails on the
    unbound curr_ctxt: vmstat.csv gets no row, the vmstat statistics get
    no value and prev_vmstat is not advanced, while the same iteration
    with a working parse_cpu_stat writes the vmstat row. *)
Theorem cpu_failure_reaches_vmstat :
  let bad := Sample.step Sample.start
               (Sample.tick 1001 (Raise "OSError") (fun _ => Ok None)) in
  let good := Sample.step Sample.start
                (Sample.tick 1001 (Ok (Sample.cpu_b, 5500%Z)) (fun _ => Ok None)) in
  printed (out bad) = [ErrorLine "CPU sample" "OSError";
                       ErrorLine "vmstat sample" "UnboundLocalError"] ∧
  csv_rows vmstat_csv (out bad) = [] ∧
  stat_values (vm_stat "pgfault") (out bad) = [] ∧
  prev_vmstat bad = Sample.vmstat_a ∧
  length (csv_rows io_csv (out bad)) = 1%nat ∧
  length (csv_rows psi_csv (out bad)) = 1%nat ∧
  printed (out good) = [] ∧
  length (csv_rows vmstat_csv (out good)) = 1%nat ∧
  stat_values (vm_stat "pgfault") (out good) = [400%Q] ∧
  prev_vmstat good = Sample.vmstat_b.
Proof. vm_compute. repeat split. Qed.

(* ===================================================================== *)
(*  Further properties of the delta engine                               *)
(* ===================================================================== *)

Lemma pct_bounds (x total : Z) :
  (0 ≤ x ≤ total)%Z → (0 < total)%Z →
  (0 <= pct x total)%Q ∧ (pct x total <= 100)%Q.
Proof.
  intros [Hx Hxt] Ht. unfold pct.
  assert (HT : (0 < inject_Z total)%Q).
  { change 0%Q with (inject_Z 0). by rewrite <- Zlt_Qlt. }
  assert (Hx0 : (0 <= inject_Z x)%Q).
  { change 0%Q with (inject_Z 0). by rewrite <- Zle_Qle. }
  assert (Hxt' : (inject_Z x <= inject_Z total)%Q) by by rewrite <- Zle_Qle.
  split.
  - apply Qmult_le_0_compat; [|discriminate]. by apply Qdiv_nonneg.
  - apply Qle_trans with (1 * 100)%Q; [|discriminate].
    apply Qmult_le_compat_r; [|discriminate].
    apply Qle_shift_div_r; [done|]. by rewrite Qmult_1_l.
Qed.

(* the result of the loop body on a delta vector of at least nine fields
   with a non-zero sum *)
Lemma cpu_delta_core_nine (p c : list Z) d0 d1 d2 d3 d4 d5 d6 d7 d8 rest :
  tick_deltas p c = Ok (d0 :: d1 :: d2 :: d3 :: d4 :: d5 :: d6 :: d7 :: d8 :: rest) →
  let total := Zsum (d0 :: d1 :: d2 :: d3 :: d4 :: d5 :: d6 :: d7 :: d8 :: rest) in
  total ≠ 0%Z →
  cpu_delta_core p c =
    Ok {| user := pct (d0 + d1) total; sys := pct d2 total;
          idle := pct d3 total; iowait := pct d4 total;
          irq := pct d5 total; softirq := pct d6 total;
          steal := pct d7 total;
          guest := match rest with
                   | [] => pct d8 total
                   | d9 :: _ => pct (d8 + d9) total
                   end |}.
Proof.
  intros Hd total Hne. unfold cpu_delta_core. rewrite Hd.
  cbn [mbind outcome_bind]. fold total. rewrite decide_False by done.
  destruct rest as [|d9 rest]; reflexivity.
Qed.

Lemma Zsum_nonneg (l : list Z) : Forall (fun x => 0 ≤ x)%Z l → (0 ≤ Zsum l)%Z.
Proof. unfold Zsum. induction 1; cbn; lia. Qed.

Lemma zip_sub_nonneg (p c : list Z) :
  Forall2 Z.le p c → Forall (fun x => 0 ≤ x)%Z (zip_with Z.sub c p).
Proof. induction 1; cbn; constructor; [lia | done]. Qed.

(** X1: cpu_delta reports exactly the keys of the current snapshot that
    the previous snapshot also has, in the order of the current
    snapshot: a core that appears or disappears between two snapshots is
    left out without an error. *)
Theorem cpu_delta_keys prev curr result
    (Hres : cpu_delta prev curr = Ok result) :
  result.*1 = filter (fun k => is_Some (dict_get k prev)) (curr.*1).
Proof.
  revert result Hres. induction curr as [|[k c] curr IH]; intros result Hres.
  { by injection Hres as <-. }
  cbn in Hres. rewrite fmap_cons, filter_cons. cbn [fst].
  destruct (dict_get k prev) as [p|] eqn:Ek.
  - destruct (cpu_delta_core p c) as [v|e]; cbn in Hres; [|done].
    destruct (cpu_delta prev curr) as [rest|e]; cbn in Hres; [|done].
    injection Hres as <-. rewrite decide_True by done.
    rewrite fmap_cons. cbn [fst]. f_equal. by apply IH.
  - rewrite decide_False by (by intros [? ?]). by apply IH.
Qed.

Lemma cpu_delta_keys_witness :
  let prev := [(CpuAll, [1; 2]%Z); (Cpu 0, [1; 1]%Z); (Cpu 1, [0; 1]%Z)] in
  let curr := [(Cpu 2, [5; 5]%Z); (Cpu 0, [1; 1]%Z); (CpuAll, [1; 2]%Z)] in
  cpu_delta prev curr = Ok [(Cpu 0, cpu_zero); (CpuAll, cpu_zero)] ∧
  [(Cpu 0, cpu_zero); (CpuAll, cpu_zero)].*1 = [Cpu 0; CpuAll].
Proof.
  intros prev curr. split; [reflexivity|].
  exact (cpu_delta_keys prev curr _ eq_refl).
Defined.

(** X2: when no counter of a core went back (every field of the current
    vector is at least the field of the previous one) and the summed
    delta is not 0, each of the eight percentages that cpu_delta reports
    for the core lies between 0 and 100. *)
Theorem cpu_delta_pct_bounds prev curr key p c result v
    (Hp : dict_get key prev = Some p)
    (Hc : dict_get key curr = Some c)
    (Hmono : Forall2 Z.le p c)
    (Htotal : Zsum (zip_with Z.sub c p) ≠ 0%Z)
    (Hres : cpu_delta prev curr = Ok result)
    (Hv : dict_get key result = Some v) :
  Forall (fun x => (0 <= x)%Q ∧ (x <= 100)%Q)
         [user v; sys v; idle v; iowait v; irq v; softirq v; steal v; guest v].
Proof.
  destruct (cpu_delta_lookup _ _ _ _ _ _ Hres Hp Hc) as (v' & Hv' & Hl).
  assert (v' = v) as -> by congruence. clear Hl Hv Hres.
  pose proof (Forall2_length _ _ _ Hmono) as Hlen.
  pose proof (zip_sub_nonneg _ _ Hmono) as Hnn.
  assert (Hd : tick_deltas p c = Ok (zip_with Z.sub c p))
    by (apply tick_deltas_ok; lia).
  set (d := zip_with Z.sub c p) in *. clearbody d.
  pose proof Hv' as Hcore. unfold cpu_delta_core in Hcore.
  rewrite Hd in Hcore. cbn [mbind outcome_bind] in Hcore.
  rewrite decide_False in Hcore by done.
  destruct d as [|d0 [|d1 [|d2 [|d3 [|d4 [|d5 [|d6 [|d7 [|d8 rest]]]]]]]]];
    try discriminate Hcore.
  clear Hcore.
  rewrite (cpu_delta_core_nine p c _ _ _ _ _ _ _ _ _ _ Hd Htotal) in Hv'.
  injection Hv' as <-.
  repeat match goal with
         | H : Forall _ (_ :: _) |- _ => apply Forall_cons in H as [? H]
         end.
  pose proof (Zsum_nonneg rest Hnn) as Hrest.
  cbn [user sys idle iowait irq softirq steal guest]. cbn beta in *.
  change (Zsum (d0 :: d1 :: d2 :: d3 :: d4 :: d5 :: d6 :: d7 :: d8 :: rest))
    with (d0 + (d1 + (d2 + (d3 + (d4 + (d5 + (d6 + (d7
          + (d8 + Zsum rest)))))))))%Z in *.
  repeat (apply List.Forall_cons; [apply pct_bounds; lia|]).
  apply List.Forall_cons; [|constructor].
  destruct rest as [|d9 rest]; [apply pct_bounds; lia|].
  apply Forall_cons in Hnn as [? Hnn]. cbn beta in *.
  pose proof (Zsum_nonneg rest Hnn).
  change (Zsum (d9 :: rest)) with (d9 + Zsum rest)%Z in *.
  apply pct_bounds; lia.
Qed.

Lemma cpu_delta_pct_bounds_witness :
  let p := [10; 0; 5; 100; 2; 0; 1; 0; 0; 0]%Z in
  let c := [13; 1; 7; 110; 3; 1; 2; 1; 1; 1]%Z in
  ∃ result v,
    dict_get CpuAll [(CpuAll, p)] = Some p ∧
    dict_get CpuAll [(CpuAll, c)] = Some c ∧
    Forall2 Z.le p c ∧
    Zsum (zip_with Z.sub c p) ≠ 0%Z ∧
    cpu_delta [(CpuAll, p)] [(CpuAll, c)] = Ok result ∧
    dict_get CpuAll result = Some v ∧
    (0 <= idle v)%Q ∧ (idle v <= 100)%Q.
Proof.
  intros p c.
  assert (Hmono : Forall2 Z.le p c) by (repeat constructor; lia).
  assert (Hne : Zsum (zip_with Z.sub c p) ≠ 0%Z) by (vm_compute; discriminate).
  eexists. eexists.
  split; [reflexivity|]. split; [reflexivity|]. split; [exact Hmono|].
  split; [exact Hne|]. split; [vm_compute; reflexivity|].
  split; [reflexivity|].
  match goal with
  | |- (0 <= idle ?v)%Q ∧ _ =>
      pose proof (cpu_delta_pct_bounds [(CpuAll, p)] [(CpuAll, c)] CpuAll p c
                    [(CpuAll, v)] v eq_refl eq_refl Hmono Hne eq_refl eq_refl)
        as HF
  end.
  apply Forall_cons in HF as [_ HF]. apply Forall_cons in HF as [_ HF].
  by apply Forall_cons in HF as [HF _].
Defined.

Lemma pct_add (a b t : Z) : (pct a t + pct b t == pct (a + b) t)%Q.
Proof. unfold pct. rewrite inject_Z_plus. unfold Qdiv. ring. Qed.

Lemma pct_whole (t : Z) : t ≠ 0%Z → (pct t t == 100)%Q.
Proof. intros Ht. unfold pct. field. by apply inject_Z_nonzero. Qed.

(** X3: for a core of both snapshots whose current vector has at least
    nine fields and whose summed delta is not 0, the eight percentages
    of cpu_delta together with the share of the fields after the tenth
    add up to 100: vectors of nine or ten fields give percentages that
    sum to 100, and a field after the tenth is counted in the total but
    reported by no percentage. *)
Theorem cpu_delta_fields_accounted prev curr key p c result v
    (Hp : dict_get key prev = Some p)
    (Hc : dict_get key curr = Some c)
    (Hlen : (9 ≤ length c)%nat)
    (Htotal : Zsum (zip_with Z.sub c p) ≠ 0%Z)
    (Hres : cpu_delta prev curr = Ok result)
    (Hv : dict_get key result = Some v) :
  (user v + sys v + idle v + iowait v + irq v + softirq v + steal v + guest v
   + pct (Zsum (drop 10 (zip_with Z.sub c p))) (Zsum (zip_with Z.sub c p))
   == 100)%Q ∧
  ((length c ≤ 10)%nat →
   (user v + sys v + idle v + iowait v + irq v + softirq v + steal v + guest v
    == 100)%Q).
Proof.
  destruct (cpu_delta_lookup _ _ _ _ _ _ Hres Hp Hc) as (v' & Hv' & Hl).
  assert (v' = v) as -> by congruence. clear Hl Hv Hres.
  assert (Hd : tick_deltas p c = Ok (zip_with Z.sub c p)).
  { unfold cpu_delta_core in Hv'. destruct (tick_deltas p c) as [d|e] eqn:E;
      [|done]. by rewrite (tick_deltas_inv _ _ _ E). }
  assert (Hdl : length (zip_with Z.sub c p) = length c).
  { rewrite length_zip_with. apply tick_deltas_length in Hd. lia. }
  set (d := zip_with Z.sub c p) in *. clearbody d.
  destruct d as [|d0 [|d1 [|d2 [|d3 [|d4 [|d5 [|d6 [|d7 [|d8 rest]]]]]]]]];
    try (cbn in Hdl; lia).
  rewrite (cpu_delta_core_nine p c _ _ _ _ _ _ _ _ _ _ Hd Htotal) in Hv'.
  injection Hv' as <-.
  cbn [user sys idle iowait irq softirq steal guest].
  set (total := Zsum _) in *.
  assert (Hall : ∀ g extra, (g + extra)%Z = (d8 + Zsum rest)%Z →
            (pct (d0 + d1) total + pct d2 total + pct d3 total + pct d4 total
             + pct d5 total + pct d6 total + pct d7 total + pct g total
             + pct extra total == 100)%Q).
  { intros g extra Hg. rewrite !pct_add.
    rewrite <- (pct_whole total Htotal).
    replace (d0 + d1 + d2 + d3 + d4 + d5 + d6 + d7 + g + extra)%Z with total;
      [reflexivity|]. subst total. unfold Zsum in *. cbn [foldr]. lia. }
  destruct rest as [|d9 rest].
  - split; [apply Hall; unfold Zsum; cbn [foldr skipn]; rewrite ?drop_0, ?drop_nil; cbn [foldr]; lia|]. intros _.
    rewrite <- (Hall d8 0%Z) by (cbn; lia).
    assert (pct 0 total == 0)%Q as -> by (unfold pct, Qdiv; ring).
    unfold total, Zsum. cbn [foldr]. ring.
  - split; [apply Hall; unfold Zsum; cbn [foldr skipn]; rewrite ?drop_0, ?drop_nil; cbn [foldr]; lia|]. intros Hten.
    destruct rest; [|cbn in Hdl, Hten; lia].
    rewrite <- (Hall (d8 + d9)%Z 0%Z) by (cbn; lia).
    assert (pct 0 total == 0)%Q as -> by (unfold pct, Qdiv; ring).
    unfold total, Zsum. cbn [foldr]. ring.
Qed.

Lemma cpu_delta_fields_accounted_witness :
  let p := [10; 0; 5; 100; 2; 0; 1; 0; 0]%Z in
  let c := [13; 1; 7; 110; 3; 1; 2; 1; 1]%Z in
  ∃ result v,
    dict_get (Cpu 3) [(Cpu 3, p)] = Some p ∧
    dict_get (Cpu 3) [(Cpu 3, c)] = Some c ∧
    (9 ≤ length c)%nat ∧
    Zsum (zip_with Z.sub c p) ≠ 0%Z ∧
    cpu_delta [(Cpu 3, p)] [(Cpu 3, c)] = Ok result ∧
    dict_get (Cpu 3) result = Some v ∧
    (user v + sys v + idle v + iowait v + irq v + softirq v + steal v + guest v
     == 100)%Q.
Proof.
  intros p c.
  assert (Hlen : (9 ≤ length c)%nat) by (cbn; lia).
  assert (Hne : Zsum (zip_with Z.sub c p) ≠ 0%Z) by (vm_compute; discriminate).
  eexists. eexists.
  split; [reflexivity|]. split; [reflexivity|]. split; [exact Hlen|].
  split; [exact Hne|]. split; [vm_compute; reflexivity|].
  split; [reflexivity|].
  match goal with
  | |- (user ?v + _ + _ + _ + _ + _ + _ + _ == _)%Q =>
      apply (proj2 (cpu_delta_fields_accounted [(Cpu 3, p)] [(Cpu 3, c)]
                      (Cpu 3) p c [(Cpu 3, v)] v
                      eq_refl eq_refl Hlen Hne eq_refl eq_refl))
  end.
  cbn. lia.
Defined.

(* --------------------------------------------------------------------- *)
(*  When cpu_delta and diskstat_delta raise                              *)
(* --------------------------------------------------------------------- *)

Lemma mapM_outcome_Raise {A B} (f : A → outcome B) (l : list A) e :
  mapM f l = Raise e → ∃ a, a ∈ l ∧ f a = Raise e.
Proof.
  induction l as [|a l IH]; cbn; [done|].
  destruct (f a) as [b|e'] eqn:Ea; cbn.
  - destruct (mapM f l) as [r|e'] eqn:Er; cbn; [done|].
    intros [= ->]. destruct (IH eq_refl) as (a' & Hin & Ha').
    exists a'. split; [|done]. apply elem_of_cons. by right.
  - intros [= ->]. exists a. split; [|done]. apply elem_of_cons. by left.
Qed.

Lemma tick_deltas_error (p c : list Z) e :
  tick_deltas p c = Raise e → e = "IndexError".
Proof.
  intros H. apply mapM_outcome_Raise in H as (i & _ & Hi).
  unfold py_index in Hi.
  destruct (c !! i); cbn in Hi; [|congruence].
  destruct (p !! i); cbn in Hi; congruence.
Qed.

Lemma cpu_delta_core_raises (p c : list Z) :
  (∀ e, cpu_delta_core p c = Raise e → e = "IndexError") ∧
  ((∃ e, cpu_delta_core p c = Raise e) ↔
   (length p < length c)%nat ∨
   (Zsum (zip_with Z.sub c p) ≠ 0%Z ∧ (length c < 9)%nat)).
Proof.
  destruct (decide (length c ≤ length p)%nat) as [Hle|Hgt].
  - pose proof (tick_deltas_ok p c Hle) as Hd.
    assert (Hdl : length (zip_with Z.sub c p) = length c)
      by (rewrite length_zip_with; lia).
    destruct (decide (Zsum (zip_with Z.sub c p) = 0%Z)) as [Hz|Hnz].
    { rewrite (cpu_delta_core_zero p c Hle Hz). split; [done|].
      split; [by intros [? ?] | intros [?|[? _]]; [lia | done]]. }
    unfold cpu_delta_core. rewrite Hd. cbn [mbind outcome_bind].
    rewrite decide_False by done. revert Hdl Hnz.
    generalize (zip_with Z.sub c p) as d. intros d Hdl Hnz.
    destruct d as [|d0 [|d1 [|d2 [|d3 [|d4 [|d5 [|d6 [|d7 [|d8 rest]]]]]]]]];
      cbn in Hdl.
    1-9: split; [by intros e [= <-]|]; split;
           [intros _; right; split; [done | lia] | intros _; by eexists].
    split; [by destruct rest|].
    split; [by destruct rest; intros [? ?] | intros [?|[_ ?]]; lia].
  - destruct (tick_deltas p c) as [d|e] eqn:E.
    { apply tick_deltas_length in E. lia. }
    pose proof (tick_deltas_error _ _ _ E) as ->.
    unfold cpu_delta_core. rewrite E. cbn. split; [by intros e [= <-]|].
    split; [intros _; left; lia | intros _; by eexists].
Qed.

(** X4: cpu_delta raises exactly when some entry of the current snapshot
    whose key the previous snapshot has either is longer than the
    previous vector of that key, or has fewer than nine fields and a
    non-zero summed delta; the exception is then an IndexError, and
    nothing is returned for the other cores. *)
Theorem cpu_delta_raises_iff prev curr :
  (∀ e, cpu_delta prev curr = Raise e → e = "IndexError") ∧
  ((∃ e, cpu_delta prev curr = Raise e) ↔
   ∃ key p c, (key, c) ∈ curr ∧ dict_get key prev = Some p ∧
     ((length p < length c)%nat ∨
      (Zsum (zip_with Z.sub c p) ≠ 0%Z ∧ (length c < 9)%nat))).
Proof.
  induction curr as [|[k c] curr [IHe IH]].
  { split; [done|]. split; [by intros [? ?]|].
    intros (key & p & c & Hin & _). by apply elem_of_nil in Hin. }
  cbn [cpu_delta]. destruct (dict_get k prev) as [p|] eqn:Ek.
  - destruct (cpu_delta_core_raises p c) as [Hce Hc].
    destruct (cpu_delta_core p c) as [v|e] eqn:Ecore; cbn.
    + destruct (cpu_delta prev curr) as [rest|e] eqn:Erest; cbn.
      * split; [done|]. split; [by intros [? ?]|].
        intros (key & p' & c' & Hin & Hp' & Hbad).
        apply elem_of_cons in Hin as [[= -> ->]|Hin].
        -- rewrite Ek in Hp'. injection Hp' as <-.
           destruct (proj2 Hc Hbad) as [? ?]. done.
        -- destruct (proj2 IH) as [? ?]; [|done]. by exists key, p', c'.
      * split; [intros e' [= <-]; by apply IHe|].
        split; [|intros _; by eexists].
        intros _. destruct (proj1 IH) as (key & p' & c' & Hin & Hrest);
          [by eexists|].
        exists key, p', c'. split; [|done]. apply elem_of_cons. by right.
    + split; [intros e' [= <-]; by apply Hce|].
      split; [|intros _; by eexists].
      intros _. exists k, p, c. split; [apply elem_of_cons; by left|].
      split; [done|]. apply Hc. by eexists.
  - split; [exact IHe|]. rewrite IH. split.
    + intros (key & p' & c' & Hin & Hrest). exists key, p', c'.
      split; [|done]. apply elem_of_cons. by right.
    + intros (key & p' & c' & Hin & Hp' & Hbad).
      apply elem_of_cons in Hin as [[= -> ->]|Hin]; [congruence|].
      by exists key, p', c'.
Qed.

Lemma py_div_zero (a b : Q) :
  (b == 0)%Q → py_div a b = Raise "ZeroDivisionError".
Proof.
  intros H. unfold py_div. apply Qeq_bool_iff in H. by rewrite H.
Qed.

(** X5: diskstat_delta raises exactly when the elapsed time is 0 and some
    device of the current snapshot is also in the previous one; the
    exception is then a ZeroDivisionError.  With no common device it
    returns the empty result whatever the elapsed time is. *)
Theorem diskstat_delta_raises_iff prev curr dt :
  (∀ e, diskstat_delta prev curr dt = Raise e → e = "ZeroDivisionError") ∧
  ((∃ e, diskstat_delta prev curr dt = Raise e) ↔
   (dt == 0)%Q ∧ ∃ dev c, (dev, c) ∈ curr ∧ is_Some (dict_get dev prev)) ∧
  ((∀ dev c, (dev, c) ∈ curr → dict_get dev prev = None) →
   diskstat_delta prev curr dt = Ok []).
Proof.
  split; [|split].
  - destruct (Qeq_dec dt 0) as [Hz|Hnz].
    + induction curr as [|[k c] curr IH]; cbn; [done|].
      destruct (dict_get k prev) as [p|]; [|done].
      unfold diskstat_delta_core. rewrite !(py_div_zero _ dt Hz). cbn.
      by intros e [= <-].
    + destruct (diskstat_delta_returns prev curr dt Hnz) as [r ->]. done.
  - destruct (Qeq_dec dt 0) as [Hz|Hnz].
    + induction curr as [|[k c] curr IH]; cbn.
      { split; [by intros [? ?]|].
        intros (_ & dev & c & Hin & _). by apply elem_of_nil in Hin. }
      destruct (dict_get k prev) as [p|] eqn:Ek.
      * unfold diskstat_delta_core. rewrite !(py_div_zero _ dt Hz). cbn.
        split; [|intros _; by eexists].
        intros _. split; [done|]. exists k, c.
        split; [apply elem_of_cons; by left | by rewrite Ek].
      * rewrite IH. split.
        -- intros (_ & dev & c' & Hin & Hs). split; [done|].
           exists dev, c'. split; [apply elem_of_cons; by right | done].
        -- intros (_ & dev & c' & Hin & Hs). split; [done|].
           apply elem_of_cons in Hin as [[= -> ->]|Hin].
           ++ rewrite Ek in Hs. by destruct Hs.
           ++ by exists dev, c'.
    + destruct (diskstat_delta_returns prev curr dt Hnz) as [r ->].
      split; [by intros [? ?] | by intros [? _]].
  - induction curr as [|[k c] curr IH]; intros Hnone; cbn; [done|].
    rewrite (Hnone k c) by (apply elem_of_cons; by left).
    apply IH. intros dev c' Hin. apply (Hnone dev c').
    apply elem_of_cons. by right.
Qed.

Lemma Qdiv_nonneg_Z (x : Z) (b : Q) :
  (0 ≤ x)%Z → (0 < b)%Q → (0 <= inject_Z x / b)%Q.
Proof.
  intros Hx Hb. apply Qdiv_nonneg; [|done].
  change 0%Q with (inject_Z 0). by rewrite <- Zle_Qle.
Qed.

(** X6: while the counters of a device do not decrease between two
    snapshots and the elapsed time is positive, no figure of the
    device's entry is negative and the utilisation is between 0 and
    100; whatever the counters are, a latency is exactly 0 as soon as
    its operation count did not increase, also after a counter reset. *)
Theorem diskstat_delta_nonneg prev curr dt dev p c result v
    (Hp : dict_get dev prev = Some p)
    (Hc : dict_get dev curr = Some c)
    (Hdt : (0 < dt)%Q)
    (Hres : diskstat_delta prev curr dt = Ok result)
    (Hv : dict_get dev result = Some v) :
  ((reads c ≤ reads p)%Z → avg_r_lat_ms v = 0%Q) ∧
  ((writes c ≤ writes p)%Z → avg_w_lat_ms v = 0%Q) ∧
  ((reads p ≤ reads c)%Z → (writes p ≤ writes c)%Z →
   (sectors_read p ≤ sectors_read c)%Z →
   (sectors_written p ≤ sectors_written c)%Z →
   (ms_reading p ≤ ms_reading c)%Z → (ms_writing p ≤ ms_writing c)%Z →
   (weighted_ms_io p ≤ weighted_ms_io c)%Z →
   (0 <= r_per_s v)%Q ∧ (0 <= w_per_s v)%Q ∧
   (0 <= rMB_per_s v)%Q ∧ (0 <= wMB_per_s v)%Q ∧
   (0 <= avg_r_lat_ms v)%Q ∧ (0 <= avg_w_lat_ms v)%Q ∧
   (0 <= io_util_pct v)%Q ∧ (io_util_pct v <= 100)%Q).
Proof.
  destruct (diskstat_delta_lookup _ _ _ _ _ _ _ Hres Hp Hc) as (v' & Hv' & Hl).
  assert (v' = v) as -> by congruence. clear Hl Hv Hres.
  assert (Hnz : ¬ (dt == 0)%Q) by (by apply Qpos_nonzero).
  rewrite (diskstat_delta_core_ok p c dt Hnz) in Hv'. injection Hv' as <-.
  cbn [r_per_s w_per_s rMB_per_s wMB_per_s avg_r_lat_ms avg_w_lat_ms
       io_util_pct].
  split; [|split].
  - intros H. destruct (0 <? reads c - reads p)%Z eqn:E; [|done].
    apply Z.ltb_lt in E. lia.
  - intros H. destruct (0 <? writes c - writes p)%Z eqn:E; [|done].
    apply Z.ltb_lt in E. lia.
  - intros Hr Hw Hsr Hsw Hmr Hmw Hio.
    assert (Hmb : ∀ x, (0 ≤ x)%Z →
              (0 <= inject_Z (x * 512) / 1024 / 1024 / dt)%Q).
    { intros x Hx. apply Qdiv_nonneg; [|done].
      apply Qdiv_nonneg; [|done]. apply Qdiv_nonneg_Z; [lia | done]. }
    split; [apply Qdiv_nonneg_Z; [lia | done]|].
    split; [apply Qdiv_nonneg_Z; [lia | done]|].
    split; [apply Hmb; lia|]. split; [apply Hmb; lia|].
    split.
    { destruct (0 <? reads c - reads p)%Z eqn:E; [|apply Qle_refl].
      apply Z.ltb_lt in E. apply Qdiv_nonneg_Z; [lia|].
      change 0%Q with (inject_Z 0). by rewrite <- Zlt_Qlt. }
    split.
    { destruct (0 <? writes c - writes p)%Z eqn:E; [|apply Qle_refl].
      apply Z.ltb_lt in E. apply Qdiv_nonneg_Z; [lia|].
      change 0%Q with (inject_Z 0). by rewrite <- Zlt_Qlt. }
    split; [|apply py_min_le_r].
    destruct (py_min_cases
                (inject_Z (weighted_ms_io c - weighted_ms_io p)
                 / (dt * 1000) * 100) 100) as [[_ ->]|[_ ->]]; [done|].
    apply Qmult_le_0_compat; [|done].
    apply Qdiv_nonneg_Z; [lia|].
    apply Qmult_lt_0_compat; [done | reflexivity].
Qed.

Lemma diskstat_delta_nonneg_witness :
  let p := mk_disk_counters 100 8000 50 40 4096 30 0 70 in
  let c := mk_disk_counters 100 8000 50 44 6144 38 1 90 in
  ∃ result v,
    dict_get "sda" [("sda", p)] = Some p ∧
    dict_get "sda" [("sda", c)] = Some c ∧
    (0 < 1)%Q ∧
    diskstat_delta [("sda", p)] [("sda", c)] 1 = Ok result ∧
    dict_get "sda" result = Some v ∧
    avg_r_lat_ms v = 0%Q ∧ (0 <= io_util_pct v)%Q.
Proof.
  intros p c. eexists. eexists.
  split; [reflexivity|]. split; [reflexivity|]. split; [reflexivity|].
  split; [vm_compute; reflexivity|]. split; [reflexivity|].
  match goal with
  | |- avg_r_lat_ms ?v = _ ∧ _ =>
      destruct (diskstat_delta_nonneg [("sda", p)] [("sda", c)] 1 "sda" p c
                  [("sda", v)] v eq_refl eq_refl eq_refl eq_refl eq_refl)
        as (Hr & _ & Hall)
  end.
  split; [apply Hr; cbn; lia|].
  apply Hall; cbn; lia.
Defined.

(* --------------------------------------------------------------------- *)
(*  interrupt_delta                                                      *)
(* --------------------------------------------------------------------- *)

Lemma mapM_outcome_seq {B} (f : nat → outcome B) (g : nat → B) (k n : nat) :
  (∀ i, (k ≤ i < k + n)%nat → f i = Ok (g i)) →
  mapM f (seq k n) = Ok (map g (seq k n)).
Proof.
  revert k. induction n as [|n IH]; intros k Hf; cbn; [done|].
  rewrite (Hf k) by lia. cbn.
  rewrite (IH (S k)) by (intros i Hi; apply Hf; lia). done.
Qed.

Lemma irq_delta_of_length (N : nat) (p c : irq_entry) :
  (N ≤ length (counts c))%nat → (N ≤ length (counts p))%nat →
  length (irq_delta_of N p c) = N.
Proof.
  intros Hc Hp. unfold irq_delta_of.
  rewrite length_zip_with, !length_take. lia.
Qed.

Lemma irq_deltas_ok (N : nat) (p c : irq_entry) :
  (N ≤ length (counts c))%nat → (N ≤ length (counts p))%nat →
  irq_deltas N p c = Ok (irq_delta_of N p c).
Proof.
  intros Hc Hp. unfold irq_deltas.
  rewrite (mapM_outcome_seq _
             (fun i => (default 0 (counts c !! i)
                        - default 0 (counts p !! i))%Z) 0 N).
  - f_equal. apply list_eq. intros i. unfold irq_delta_of.
    rewrite lookup_zip_with, list_lookup_fmap.
    destruct (decide (i < N)%nat) as [Hi|Hi].
    + rewrite lookup_seq_lt by done. cbn.
      rewrite !lookup_take_lt by done.
      destruct (lookup_lt_is_Some_2 (counts c) i ltac:(lia)) as [ci ->].
      destruct (lookup_lt_is_Some_2 (counts p) i ltac:(lia)) as [pi ->].
      done.
    + rewrite lookup_seq_ge by lia. cbn.
      rewrite !lookup_take_ge by lia. done.
  - intros i Hi. unfold py_index.
    destruct (lookup_lt_is_Some_2 (counts c) i ltac:(lia)) as [ci ->].
    destruct (lookup_lt_is_Some_2 (counts p) i ltac:(lia)) as [pi ->].
    done.
Qed.

Lemma irq_deltas_raises (N : nat) (p c : irq_entry) :
  (length (counts c) < N)%nat ∨ (length (counts p) < N)%nat →
  irq_deltas N p c = Raise "IndexError".
Proof.
  intros Hshort. destruct (irq_deltas N p c) as [d|e] eqn:E.
  - exfalso. apply mapM_outcome_Ok in E.
    set (i := Nat.min (length (counts c)) (length (counts p))).
    assert (Hin : i ∈ seq 0 N) by (apply elem_of_seq; lia).
    apply list_elem_of_lookup in Hin as [j Hj].
    destruct (Forall2_lookup_l _ _ _ _ _ E Hj) as (b & _ & Hb).
    unfold py_index in Hb.
    destruct (counts c !! i) as [ci|] eqn:Ec; cbn in Hb; [|done].
    destruct (counts p !! i) as [pi|] eqn:Ep; cbn in Hb; [|done].
    apply lookup_lt_Some in Ec, Ep. lia.
  - f_equal. apply mapM_outcome_Raise in E as (i & _ & Hi).
    unfold py_index in Hi.
    destruct (counts c !! i); cbn in Hi; [|congruence].
    destruct (counts p !! i); cbn in Hi; congruence.
Qed.

Lemma irq_deltas_cases (N : nat) (p c : irq_entry) :
  ((N ≤ length (counts c))%nat ∧ (N ≤ length (counts p))%nat ∧
   irq_deltas N p c = Ok (irq_delta_of N p c)) ∨
  (((length (counts c) < N)%nat ∨ (length (counts p) < N)%nat) ∧
   irq_deltas N p c = Raise "IndexError").
Proof.
  destruct (decide (N ≤ length (counts c))%nat);
    destruct (decide (N ≤ length (counts p))%nat).
  1: left; split; [done|]; split; [done|]; by apply irq_deltas_ok.
  all: right; split; [lia|]; apply irq_deltas_raises; lia.
Qed.

(** X7: when interrupt_delta returns, it reports an interrupt line
    exactly when the line is in both snapshots and its counts over the
    first NUM_CPUS cores grew in sum; the reported entry carries the
    NUM_CPUS per-core differences and the description of the current
    snapshot.  Lines whose counts stood still or fell in sum are left
    out. *)
Theorem interrupt_delta_reported (N : nat) prev curr result
    (Hres : interrupt_delta N prev curr = Ok result) :
  ∀ irq iv, (irq, iv) ∈ result ↔
    ∃ p c, (irq, c) ∈ curr ∧ dict_get irq prev = Some p ∧
      iv = mk_irq_change (irq_delta_of N p c) (desc c) ∧
      length (delta iv) = N ∧ (0 < Zsum (delta iv))%Z.
Proof.
  revert result Hres. induction curr as [|[k c] curr IH]; intros result Hres.
  { injection Hres as <-. intros irq iv. split.
    - intros Hin. by apply elem_of_nil in Hin.
    - intros (p & c & Hin & _). by apply elem_of_nil in Hin. }
  cbn [interrupt_delta] in Hres.
  destruct (dict_get k prev) as [p|] eqn:Ek.
  - destruct (irq_deltas_cases N p c) as [(Hlc & Hlp & Hd)|[_ Hd]];
      rewrite Hd in Hres; cbn in Hres; [|done].
    destruct (interrupt_delta N prev curr) as [rest|e] eqn:Er;
      cbn in Hres; [|done].
    specialize (IH rest eq_refl). intros irq iv.
    destruct (0 <? Zsum (irq_delta_of N p c))%Z eqn:Epos;
      injection Hres as <-.
    + apply Z.ltb_lt in Epos. rewrite elem_of_cons, IH. split.
      * intros [[= -> ->]|(p' & c' & Hin & Hrest)].
        -- exists p, c. split; [apply elem_of_cons; by left|].
           split; [done|]. split; [done|].
           split; [by apply irq_delta_of_length | done].
        -- exists p', c'. split; [apply elem_of_cons; by right | done].
      * intros (p' & c' & Hin & Hp' & -> & Hrest).
        apply elem_of_cons in Hin as [[= -> ->]|Hin].
        -- left. congruence.
        -- right. by exists p', c'.
    + apply Z.ltb_ge in Epos. rewrite IH. split.
      * intros (p' & c' & Hin & Hrest). exists p', c'.
        split; [apply elem_of_cons; by right | done].
      * intros (p' & c' & Hin & Hp' & -> & Hlen & Hpos).
        apply elem_of_cons in Hin as [[= -> ->]|Hin].
        -- rewrite Ek in Hp'. injection Hp' as <-. cbn [delta] in Hpos. lia.
        -- by exists p', c'.
  - specialize (IH result Hres). intros irq iv. rewrite IH. split.
    + intros (p' & c' & Hin & Hrest). exists p', c'.
      split; [apply elem_of_cons; by right | done].
    + intros (p' & c' & Hin & Hp' & Hrest).
      apply elem_of_cons in Hin as [[= -> ->]|Hin]; [congruence|].
      by exists p', c'.
Qed.

Lemma interrupt_delta_reported_witness :
  let prev := [("16", mk_irq_entry [5; 7; 0]%Z "usb1");
               ("17", mk_irq_entry [9; 9; 4]%Z "eth0")] in
  let curr := [("16", mk_irq_entry [6; 7; 1]%Z "usb1");
               ("17", mk_irq_entry [9; 9; 9]%Z "eth0");
               ("18", mk_irq_entry [1; 1; 1]%Z "nvme")] in
  ∃ result,
    interrupt_delta 2 prev curr = Ok result ∧
    ("16", mk_irq_change [1; 0]%Z "usb1") ∈ result ∧
    ¬ ("17", mk_irq_change [0; 0]%Z "eth0") ∈ result.
Proof.
  intros prev curr. eexists. split; [vm_compute; reflexivity|].
  match goal with
  | |- _ ∈ ?r ∧ _ =>
      pose proof (interrupt_delta_reported 2 prev curr r eq_refl) as H
  end.
  split.
  - apply H. eexists. eexists.
    split; [apply elem_of_cons; left; reflexivity|].
    split; [reflexivity|]. split; [reflexivity|].
    split; [reflexivity|]. cbn. lia.
  - intros Hin. apply H in Hin as (p & c & _ & _ & _ & _ & Hpos).
    cbn in Hpos. lia.
Defined.

(** X8: interrupt_delta raises exactly when some interrupt line of both
    snapshots has fewer than NUM_CPUS counts in one of them, and then
    with an IndexError; when every line of the two snapshots has at
    least NUM_CPUS counts it returns. *)
Theorem interrupt_delta_raises_iff (N : nat) prev curr :
  (∀ e, interrupt_delta N prev curr = Raise e → e = "IndexError") ∧
  ((∃ e, interrupt_delta N prev curr = Raise e) ↔
   ∃ irq p c, (irq, c) ∈ curr ∧ dict_get irq prev = Some p ∧
     ((length (counts c) < N)%nat ∨ (length (counts p) < N)%nat)).
Proof.
  induction curr as [|[k c] curr [IHe IH]].
  { split; [done|]. split; [by intros [? ?]|].
    intros (irq & p & c & Hin & _). by apply elem_of_nil in Hin. }
  cbn [interrupt_delta]. destruct (dict_get k prev) as [p|] eqn:Ek.
  - destruct (irq_deltas_cases N p c) as [(Hlc & Hlp & Hd)|[Hshort Hd]];
      rewrite Hd; cbn.
    + destruct (interrupt_delta N prev curr) as [rest|e] eqn:Er; cbn.
      * assert (Hok : ∃ r, (if (0 <? Zsum (irq_delta_of N p c))%Z
                            then Ok ((k, mk_irq_change (irq_delta_of N p c)
                                           (desc c)) :: rest)
                            else Ok rest) = Ok r)
          by (destruct (0 <? _)%Z; by eexists).
        destruct Hok as [r ->]. split; [done|].
        split; [by intros [? ?]|].
        intros (irq & p' & c' & Hin & Hp' & Hbad).
        apply elem_of_cons in Hin as [[= -> ->]|Hin].
        -- rewrite Ek in Hp'. injection Hp' as <-. lia.
        -- destruct (proj2 IH) as [? ?]; [|done]. by exists irq, p', c'.
      * split; [intros e' [= <-]; by apply IHe|].
        split; [|intros _; by eexists].
        intros _. destruct (proj1 IH) as (irq & p' & c' & Hin & Hrest);
          [by eexists|].
        exists irq, p', c'. split; [|done]. apply elem_of_cons. by right.
    + split; [by intros e' [= <-]|].
      split; [|intros _; by eexists].
      intros _. exists k, p, c. split; [apply elem_of_cons; by left | done].
  - split; [exact IHe|]. rewrite IH. split.
    + intros (irq & p' & c' & Hin & Hrest). exists irq, p', c'.
      split; [|done]. apply elem_of_cons. by right.
    + intros (irq & p' & c' & Hin & Hp' & Hbad).
      apply elem_of_cons in Hin as [[= -> ->]|Hin]; [congruence|].
      by exists irq, p', c'.
Qed.

(* --------------------------------------------------------------------- *)
(*  fmt3: no exception, and what its three figures bound                 *)
(* --------------------------------------------------------------------- *)

Lemma Qsum_le_max (l : list Q) (m : Q) :
  (∀ y, y ∈ l → (y <= m)%Q) →
  (Qsum l <= inject_Z (Z.of_nat (length l)) * m)%Q.
Proof.
  induction l as [|x l IH]; intros Hm.
  - cbn. rewrite Qmult_0_l. apply Qle_refl.
  - change (Qsum (x :: l)) with (x + Qsum l)%Q.
    change (length (x :: l)) with (S (length l)).
    rewrite Nat2Z.inj_succ, <- Z.add_1_l, inject_Z_plus.
    rewrite Qmult_plus_distr_l, Qmult_1_l.
    apply Qplus_le_compat.
    + apply Hm, elem_of_cons. by left.
    + apply IH. intros y Hy. apply Hm, elem_of_cons. by right.
Qed.

Lemma mean_le_max (l : list Q) (m : Q) :
  (0 < length l)%nat → (∀ y, y ∈ l → (y <= m)%Q) → (mean l <= m)%Q.
Proof.
  intros Hn Hm. unfold mean. apply Qle_shift_div_r.
  - change 0%Q with (inject_Z 0). rewrite <- Zlt_Qlt. lia.
  - rewrite Qmult_comm. by apply Qsum_le_max.
Qed.

Lemma strongly_sorted_lookup_le (s : list Q) (i j : nat) (x q : Q) :
  StronglySorted Qle s → (j ≤ i)%nat →
  s !! j = Some x → s !! i = Some q → (x <= q)%Q.
Proof.
  intros Hs. revert i j. induction Hs as [|a s Hs IH Ha]; intros i j Hji Hj Hi.
  - done.
  - destruct j as [|j], i as [|i]; cbn in Hj, Hi; try lia.
    + injection Hj as <-. injection Hi as <-. apply Qle_refl.
    + injection Hj as <-. by apply (Forall_lookup_1 _ _ _ _ Ha Hi).
    + apply (IH i j); [lia | done | done].
Qed.

Lemma filter_none {A} (P : A → Prop) `{∀ x, Decision (P x)} (l : list A) :
  (∀ x, x ∈ l → ¬ P x) → filter P l = [].
Proof.
  induction l as [|x l IH]; intros Hl; [done|].
  rewrite filter_cons_False by (apply Hl, elem_of_cons; by left).
  apply IH. intros y Hy. apply Hl, elem_of_cons. by right.
Qed.

(* in an ascending list, the elements above the one at index i are
   among those after index i *)
Lemma sorted_count_above (s : list Q) (i : nat) (q : Q) :
  Sorted Qle s → s !! i = Some q →
  (length (filter (fun y => Qltb q y = true) s) + S i ≤ length s)%nat.
Proof.
  intros Hs Hi.
  assert (Hss : StronglySorted Qle s).
  { apply Sorted_StronglySorted; [|done]. intros a b c. apply Qle_trans. }
  rewrite <- (take_drop (S i) s) at 1. rewrite filter_app, length_app.
  rewrite (filter_none _ (take (S i) s)).
  - pose proof (length_filter (fun y => Qltb q y = true) (drop (S i) s)) as Hd.
    rewrite length_drop in Hd. apply lookup_lt_Some in Hi. cbn. lia.
  - intros x Hx Hgt. apply Qltb_lt in Hgt.
    apply list_elem_of_lookup in Hx as [j Hj].
    assert (Hji : (j < S i)%nat).
    { apply lookup_lt_Some in Hj. rewrite length_take in Hj. lia. }
    rewrite lookup_take_lt in Hj by done.
    apply (Qlt_not_le _ _ Hgt).
    apply (strongly_sorted_lookup_le s i j); [done | lia | done | done].
Qed.

Lemma p95_index_tail (n : nat) :
  (0 < n)%nat → (20 * (n - S (p95_index n)) < n)%nat.
Proof.
  intros Hn. rewrite p95_index_div.
  pose proof (Z.div_mod (Z.of_nat n * 95) 100 ltac:(lia)) as Hdm.
  pose proof (Z.mod_pos_bound (Z.of_nat n * 95) 100 ltac:(lia)) as Hr.
  assert (0 ≤ Z.of_nat n * 95 / 100)%Z by (apply Z.div_pos; lia).
  lia.
Qed.

(** X9: fmt3 never raises.  For fewer than two samples it gives the
    dash; otherwise it gives three figures where the average is the
    mean of the samples and is at most the maximum, the p95 figure is
    one of the samples and at most the maximum, and fewer than one
    sample in twenty lies above the p95 figure. *)
Theorem fmt3_total_and_bounds (lst : list Q) :
  ((length lst < 2)%nat ∧ fmt3 lst = Ok NoData) ∨
  ((2 ≤ length lst)%nat ∧
   ∃ mx p95,
     fmt3 lst = Ok (Summary (mean lst) mx p95) ∧
     (mean lst <= mx)%Q ∧ p95 ∈ lst ∧ (p95 <= mx)%Q ∧
     (20 * length (filter (fun y => Qltb p95 y = true) lst)
      < length lst)%nat).
Proof.
  destruct lst as [|x xs]; [left; split; [cbn; lia | done]|].
  set (lst := x :: xs) in *.
  destruct (length lst <? 2)%nat eqn:E2.
  { left. split; [by apply Nat.ltb_lt|].
    unfold fmt3, lst. fold lst. by rewrite E2. }
  apply Nat.ltb_ge in E2. right. split; [done|].
  assert (Hfmt : fmt3 lst =
            p95 ← (if (20 <? length lst)%nat
                   then py_index (sorted lst) (p95_index (length lst))
                   else Ok (py_max x xs));
            Ok (Summary (mean lst) (py_max x xs) p95)).
  { unfold fmt3, lst. fold lst.
    destruct (length lst <? 2)%nat eqn:E; [|done].
    apply Nat.ltb_lt in E. lia. }
  destruct (py_max_fold_ge x xs) as [Hx Hxs].
  assert (Hmax : ∀ y, y ∈ lst → (y <= py_max x xs)%Q).
  { intros y [->|Hy]%elem_of_cons; [done | by apply Hxs]. }
  assert (Hmean : (mean lst <= py_max x xs)%Q)
    by (apply mean_le_max; [lia | done]).
  destruct (20 <? length lst)%nat eqn:E.
  - apply Nat.ltb_lt in E.
    assert (Hq : is_Some (sorted lst !! p95_index (length lst))).
    { apply lookup_lt_is_Some.
      rewrite (Permutation_length (sorted_perm lst)).
      apply p95_index_lt. lia. }
    destruct Hq as [q Hq].
    assert (Hin : q ∈ lst).
    { rewrite <- (sorted_perm lst). by eapply list_elem_of_lookup_2. }
    exists (py_max x xs), q.
    rewrite Hfmt. unfold py_index. rewrite Hq. cbn [mbind outcome_bind].
    split; [done|]. split; [done|]. split; [done|].
    split; [by apply Hmax|].
    rewrite <- (sorted_perm lst) at 1.
    pose proof (sorted_count_above _ _ _ (sorted_sorted lst) Hq) as Hc.
    rewrite (Permutation_length (sorted_perm lst)) in Hc.
    pose proof (p95_index_tail (length lst) ltac:(lia)). lia.
  - apply Nat.ltb_ge in E.
    exists (py_max x xs), (py_max x xs).
    rewrite Hfmt. cbn [mbind outcome_bind].
    split; [done|]. split; [done|]. split; [apply py_max_fold_in|].
    split; [apply Qle_refl|].
    rewrite (filter_none _ lst); [cbn; lia|].
    intros y Hy Hgt. apply Qltb_lt in Hgt.
    apply (Qlt_not_le _ _ Hgt). by apply Hmax.
Qed.

(* --------------------------------------------------------------------- *)
(*  Properties of what a run appends, block by block                     *)
(* --------------------------------------------------------------------- *)

Section appends_closed.
Context {S : Type}.
Variable P : list effect → Prop.
Hypothesis P_nil : P [].
Hypothesis P_app : ∀ o1 o2, P o1 → P o2 → P (o1 ++ o2).








End appends_closed.

Lemma csv_rows_silent (f : stream) (p : list effect) :
  Forall (fun x => effect_source x = None) p → csv_rows f p = [].
Proof.
  induction 1 as [|x o Hx _ IH]; [done|].
  change (x :: o) with ([x] ++ o). rewrite csv_rows_app, IH.
  by destruct x.
Qed.

Lemma stat_values_silent (l : stat_list) (p : list effect) :
  Forall (fun x => effect_source x = None) p → stat_values l p = [].
Proof.
  induction 1 as [|x o Hx _ IH]; [done|].
  change (x :: o) with ([x] ++ o). rewrite stat_values_app, IH.
  by destruct x as [| [] | | |].
Qed.

Lemma stat_values_foreign (l : stat_list) (g : stream) (o : list effect) :
  effect_source (Append l 0) ≠ Some g →
  Forall (belongs g) o → stat_values l o = [].
Proof.
  intros Hne. induction 1 as [|e o He Ho IH]; [done|].
  change (e :: o) with ([e] ++ o). rewrite stat_values_app, IH.
  destruct e as [|l' v| | |]; try done.
  cbn. destruct (decide (l = l')) as [->|]; [|done].
  destruct He as [He|He]; [|by destruct l'].
  exfalso. apply Hne. rewrite <- He. by destruct l'.
Qed.

Lemma stat_values_cons_append (l l' : stat_list) (v : Q) (o : list effect) :
  stat_values l (Append l' v :: o) =
  if decide (l = l') then v :: stat_values l o else stat_values l o.
Proof. unfold stat_values. cbn. by destruct (decide (l = l')). Qed.

Lemma stat_values_cons_csv (l : stat_list) f r (o : list effect) :
  stat_values l (Csv f r :: o) = stat_values l o.
Proof. reflexivity. Qed.


Lemma csv_rows_cons_csv (f f' : stream) r (o : list effect) :
  csv_rows f (Csv f' r :: o) =
  if decide (f = f') then r :: csv_rows f o else csv_rows f o.
Proof. unfold csv_rows. cbn. by destruct (decide (f = f')). Qed.

Section run_closed.
Variable NUM_CPUS : nat.
Variable CLK_TCK : Z.
Variable float : string → option Q.
Variable P : list effect → Prop.
Hypothesis P_nil : P [].
Hypothesis P_app : ∀ o1 o2, P o1 → P o2 → P (o1 ++ o2).
Hypothesis P_block :
  ∀ f st e, P (block_output NUM_CPUS CLK_TCK float f st e).
Hypothesis P_silent :
  ∀ p, Forall (fun x => effect_source x = None) p → P p.

Lemma collect_step_closed st e :
  ∃ o, out (collect_step NUM_CPUS CLK_TCK float st e) = out st ++ o ∧ P o.
Proof using P_nil P_app P_block P_silent.
  destruct (Qltb (now_mono e - prev_time st) (5 # 100)) eqn:Hacc.
  { apply Qltb_lt in Hacc. rewrite collect_step_dropped by done.
    exists []. by rewrite app_nil_r. }
  destruct (collect_step_blocks NUM_CPUS CLK_TCK float st e Hacc)
    as (o_progress & Hprog & Hout & _).
  eexists. split; [exact Hout|].
  repeat (apply P_app; [apply P_block|]).
  apply P_app; [|by apply P_silent].
  destruct (Qle_bool 1 (now_mono e - last_slow st)); [|exact P_nil].
  repeat (apply P_app; [apply P_block|]). apply P_block.
Qed.

Lemma collect_closed st es :
  ∃ o, out (collect NUM_CPUS CLK_TCK float st es) = out st ++ o ∧ P o.
Proof using P_nil P_app P_block P_silent.
  revert st. induction es as [|e es IH]; intros st.
  { exists []. by rewrite app_nil_r. }
  cbn [collect foldl].
  destruct (collect_step_closed st e) as (o1 & H1 & HP1).
  destruct (IH (collect_step NUM_CPUS CLK_TCK float st e)) as (o2 & H2 & HP2).
  exists (o1 ++ o2). split; [|by apply P_app].
  unfold collect in H2. rewrite H2, H1. by rewrite app_assoc.
Qed.
End run_closed.

(* --------------------------------------------------------------------- *)
(*  The Stats lists hold what the CSV rows hold                          *)
(* --------------------------------------------------------------------- *)













Section mirrors.
Variable NUM_CPUS : nat.
Variable CLK_TCK : Z.
Variable float : string → option Q.

Local Abbreviation block := (block_output NUM_CPUS CLK_TCK float).







End mirrors.


(* --------------------------------------------------------------------- *)
(*  The lists of stats.gpu                                               *)
(* --------------------------------------------------------------------- *)

Lemma gpu_chain_app o1 o2 : gpu_chain o1 → gpu_chain o2 → gpu_chain (o1 ++ o2).
Proof.
  unfold gpu_chain. rewrite csv_rows_app, !stat_values_app, !length_app. lia.
Qed.

Lemma gpu_chain_silent p :
  Forall (fun x => effect_source x = None) p → gpu_chain p.
Proof.
  intros H. unfold gpu_chain.
  rewrite (csv_rows_silent _ _ H), !(stat_values_silent _ _ H). cbn. lia.
Qed.

Lemma gpu_chain_foreign g o :
  g ≠ vram_csv → Forall (belongs g) o → gpu_chain o.
Proof.
  intros Hg H. unfold gpu_chain.
  rewrite (csv_rows_foreign vram_csv g o) by done.
  rewrite !(stat_values_foreign _ g o) by (done || cbn; congruence).
  cbn. lia.
Qed.

Lemma gpu_chain_prints (log : list log_line) : gpu_chain (map Print log).
Proof.
  apply gpu_chain_silent, Forall_forall.
  intros e [l [-> _]]%list_elem_of_fmap. done.
Qed.

Lemma blk_lift_bind {S A B} (m : outcome A) (k : A → blk S B) (s : S) :
  (lift m ≫= k) s =
  match m with Ok a => k a s | Raise e => (Raise e, s, []) end.
Proof.
  unfold mbind, blk_bind, lift. destruct m as [a|e]; [|done].
  by destruct (k a s) as [[r s'] o].
Qed.

Lemma blk_emits_bind {S B} (es : list effect) (k : unit → blk S B) (s : S) :
  (emits es ≫= k) s = let '(r, s', o) := k tt s in (r, s', es ++ o).
Proof. reflexivity. Qed.

Lemma blk_emit_bind {S B} (e : effect) (k : unit → blk S B) (s : S) :
  (emit e ≫= k) s = let '(r, s', o) := k tt s in (r, s', e :: o).
Proof. reflexivity. Qed.

Lemma blk_get_bind {S B} (k : S → blk S B) (s : S) : (get ≫= k) s = k s s.
Proof. unfold mbind, blk_bind, get. by destruct (k s s) as [[r s'] o]. Qed.

Lemma blk_put_bind {S B} (s0 : S) (k : unit → blk S B) (s : S) :
  (put s0 ≫= k) s = k tt s0.
Proof. unfold mbind, blk_bind, put. by destruct (k tt s0) as [[r s'] o]. Qed.

Lemma sample_vram_chain float ts nvml smi g :
  gpu_chain (try_except "VRAM sample" (sample_vram float ts nvml smi) g).2.
Proof.
  unfold try_except, sample_vram.
  rewrite blk_get_bind. destruct (get_vram g nvml smi) as [[g' vram] log].
  rewrite blk_put_bind, blk_emits_bind.
  destruct (vram =? "")%string.
  { cbn. rewrite app_nil_r. apply gpu_chain_prints. }
  repeat first
    [ rewrite blk_emit_bind | rewrite blk_lift_bind
    | match goal with
      | |- context [match ?m with Ok _ => _ | Raise _ => _ end] => destruct m
      | |- context [if ?b then _ else _] => destruct b
      end ];
    cbn [fst snd emit lift mret blk_ret];
    try rewrite <- app_assoc;
    (apply gpu_chain_app; [apply gpu_chain_prints|]);
    unfold gpu_chain; vm_compute; lia.
Qed.

Section gpu_lists.
Variable NUM_CPUS : nat.
Variable CLK_TCK : Z.
Variable float : string → option Q.

Lemma gpu_chain_block f st e :
  gpu_chain (block_output NUM_CPUS CLK_TCK float f st e).
Proof.
  destruct (decide (f = vram_csv)) as [->|Hne].
  - apply sample_vram_chain.
  - apply (gpu_chain_foreign f); [done | apply block_output_belongs].
Qed.

(** X11: over a run of the sampling loop that starts with nothing
    written, the lists of stats.gpu never run ahead of each other: there
    are at most as many power samples as clock samples, clock samples
    as utilisation samples, utilisation samples as used-memory samples,
    and used-memory samples as rows of vram.csv.  Equality is not
    promised: a VRAM line whose later fields do not parse leaves its row
    and its first samples in place. *)
Theorem gpu_lists_chain st es (Hstart : out st = []) :
  gpu_chain (out (collect NUM_CPUS CLK_TCK float st es)).
Proof.
  destruct (collect_closed NUM_CPUS CLK_TCK float gpu_chain
              ltac:(unfold gpu_chain; cbn; lia) gpu_chain_app
              gpu_chain_block gpu_chain_silent st es) as (o & -> & Ho).
  by rewrite Hstart.
Qed.
End gpu_lists.

Lemma gpu_lists_chain_witness :
  let o := out (Sample.run Sample.start [tick_util_na 1001]) in
  out Sample.start = [] ∧ gpu_chain o ∧
  length (stat_values (gpu_stat "used") o) = 1%nat ∧
  length (stat_values (gpu_stat "util") o) = 0%nat.
Proof.
  intros o. split; [reflexivity|].
  split; [|split; vm_compute; reflexivity].
  apply (gpu_lists_chain Sample.NUM_CPUS Sample.CLK_TCK float_of_digits
           Sample.start [tick_util_na 1001] eq_refl).
Defined.

(* --------------------------------------------------------------------- *)
(*  The GPU backend: init_gpu, and get_vram over a run                   *)
(* --------------------------------------------------------------------- *)

Lemma get_vram_disabled g nvml smi :
  GPU_BACKEND g = "disabled" → get_vram g nvml smi = (g, "", []).
Proof. intros H. unfold get_vram. by rewrite H. Qed.

Lemma sample_vram_disabled float ts nvml smi g :
  GPU_BACKEND g = "disabled" →
  try_except "VRAM sample" (sample_vram float ts nvml smi) g = (g, []).
Proof.
  intros H. unfold try_except, sample_vram.
  rewrite blk_get_bind, (get_vram_disabled g nvml smi H).
  rewrite blk_put_bind, blk_emits_bind. reflexivity.
Qed.

Section gpu_in_step.
Variable NUM_CPUS : nat.
Variable CLK_TCK : Z.
Variable float : string → option Q.

Local Abbreviation step := (collect_step NUM_CPUS CLK_TCK float).
Local Abbreviation run := (collect NUM_CPUS CLK_TCK float).
Local Abbreviation block := (block_output NUM_CPUS CLK_TCK float).

(* the GPU globals after an iteration *)
Lemma collect_step_gpu st e :
  gpu (step st e) =
    if block_runs vram_csv st e
    then (try_except "VRAM sample"
            (sample_vram float (ts e) (nvml_query e) (nvidia_smi e))
            (gpu st)).1
    else gpu st.
Proof.
  unfold block_runs, collect_step. cbn [slow_tier negb orb].
  destruct (Qltb (now_mono e - prev_time st) (5 # 100)); [done|].
  cbn [negb andb].
  destruct (try_except "CPU sample" _ _) as [[pc cc] o_cpu].
  destruct (try_except "IO sample" _ _) as [pd o_disk].
  destruct (try_except "Memory sample" _ _) as [[] o_mem].
  destruct (Qle_bool 1 (now_mono e - last_slow st)); [|done].
  unfold slow_probes.
  destruct (try_except "IRQ sample" _ _) as [[pi ic] o_irq].
  destruct (try_except "VRAM sample" _ _) as [g' o_vram].
  destruct (try_except "vmstat sample" _ _) as [[pv pcx] o_vmstat].
  destruct (try_except "PSI sample" _ _) as [[] o_psi].
  destruct (try_except "CPU freq sample" _ _) as [[] o_freq].
  destruct (try_except "Process tracking" _ _) as [t' o_proc].
  done.
Qed.

(* each Stats list receives, in an iteration, the samples of the block
   of its family and nothing else *)
Lemma collect_step_stats l f st e :
  effect_source (Append l 0) = Some f →
  stat_values l (out (step st e)) =
    stat_values l (out st)
    ++ (if block_runs f st e then stat_values l (block f st e) else []).
Proof.
  intros Hl. unfold block_runs.
  destruct (Qltb (now_mono e - prev_time st) (5 # 100)) eqn:Hacc.
  { apply Qltb_lt in Hacc. rewrite collect_step_dropped by done.
    cbn. by rewrite app_nil_r. }
  destruct (collect_step_blocks NUM_CPUS CLK_TCK float st e Hacc)
    as (o_progress & Hprog & Hout & _).
  rewrite Hout, (stat_values_app l (out st)). f_equal. cbn [negb andb].
  assert (Hother : ∀ g, g ≠ f → stat_values l (block g st e) = []).
  { intros g Hg. apply (stat_values_foreign l g);
      [congruence | apply block_output_belongs]. }
  destruct (Qle_bool 1 (now_mono e - last_slow st));
    rewrite !stat_values_app, (stat_values_silent _ _ Hprog);
    destruct f; cbn [slow_tier negb orb];
    repeat match goal with
    | |- context [stat_values l (block ?g st e)] =>
        rewrite (Hother g) by done
    end;
    cbn [app]; by rewrite ?app_nil_r.
Qed.

(** X12: once init_gpu(disable=True) has set the backend, a run of the
    sampling loop leaves the GPU globals as they are, writes no row to
    vram.csv and adds no sample to any list of stats.gpu, whatever the
    NVML and nvidia-smi queries would have returned. *)
Theorem disabled_gpu_is_never_sampled env g0 st es
    (Hinit : gpu st = (init_gpu true env g0).2) :
  gpu (run st es) = gpu st ∧
  csv_rows vram_csv (out (run st es)) = csv_rows vram_csv (out st) ∧
  ∀ metric, stat_values (gpu_stat metric) (out (run st es))
            = stat_values (gpu_stat metric) (out st).
Proof.
  assert (Hoff : GPU_BACKEND (gpu st) = "disabled") by (by rewrite Hinit).
  clear Hinit. revert st Hoff.
  induction es as [|e es IH]; intros st Hoff; [done|].
  cbn [collect foldl].
  assert (Hg : gpu (step st e) = gpu st).
  { rewrite collect_step_gpu.
    destruct (block_runs vram_csv st e); [|done].
    by rewrite sample_vram_disabled. }
  assert (Hb : block vram_csv st e = []).
  { unfold block_output. by rewrite sample_vram_disabled. }
  destruct (IH (step st e)) as (IHg & IHr & IHs); [by rewrite Hg|].
  unfold collect in *. rewrite IHg, IHr, Hg.
  split; [done|]. split.
  - rewrite collect_step_rows, Hb. destruct (block_runs _ _ _); cbn;
      by rewrite app_nil_r.
  - intros metric. rewrite IHs, (collect_step_stats _ vram_csv) by done.
    rewrite Hb. destruct (block_runs _ _ _); cbn; by rewrite app_nil_r.
Qed.
End gpu_in_step.

Lemma disabled_gpu_is_never_sampled_witness :
  let env := mk_gpu_env (Ok tt) (Ok "NVIDIA GeForce RTX 4090")
                        (Ok "NVIDIA GeForce RTX 4090") (Raise "FileNotFoundError") in
  let st := {| prev_cpu := Sample.cpu_a; prev_ctxt := 5000; curr_ctxt := None;
               prev_disk := Sample.disk_a; prev_irq := Sample.irq_a;
               prev_vmstat := Sample.vmstat_a; prev_time := 1000;
               tracker := mk_proc_tracker [] ∅ 0;
               sample_count := 0; irq_sample_count := 0; last_slow := 1000;
               gpu := mk_gpu_state false 0 "disabled"; out := [] |} in
  let es := [Sample.tick 1001 (Ok (Sample.cpu_b, 5400%Z)) (fun _ => Ok None)] in
  gpu st = (init_gpu true env gpu_globals).2 ∧
  csv_rows vram_csv (out (Sample.run st es)) = [] ∧
  csv_rows vram_csv (out (Sample.run Sample.start es)) ≠ [].
Proof.
  intros env st es. split; [reflexivity|]. split; [|by vm_compute].
  apply (disabled_gpu_is_never_sampled Sample.NUM_CPUS Sample.CLK_TCK
           float_of_digits env gpu_globals st es eq_refl).
Defined.

(** X13: when init_gpu obtains the NVML device handle but the query of
    the device name fails, it goes on to the nvidia-smi and AMD checks;
    the backend name it sets then never starts with NVML, yet the
    direct binding stays switched on, so that the next get_vram whose
    NVML queries succeed returns their line and ignores nvidia-smi. *)
Theorem init_gpu_name_failure env g e
    (Hopen : nvml_open env = Ok tt)
    (Hname : nvml_name env = Raise e) :
  USE_NVML (init_gpu false env g).2 = true ∧
  ∀ label, (init_gpu false env g).1 = Ok label →
    GPU_BACKEND (init_gpu false env g).2 = label ∧
    String.prefix "NVML" label = false ∧
    ∀ line smi,
      get_vram (init_gpu false env g).2 (Ok line) smi
      = (mk_gpu_state true 0 label, line, []).
Proof.
  unfold init_gpu. rewrite Hopen, Hname.
  assert (Hset : ∀ label,
            String.prefix "NVML" label = false → label ≠ "disabled" →
            let g1 := mk_gpu_state true (NVML_FAIL_COUNT g) (GPU_BACKEND g) in
            USE_NVML (set_backend g1 label).2 = true ∧
            ∀ label', (set_backend g1 label).1 = Ok label' →
              GPU_BACKEND (set_backend g1 label).2 = label' ∧
              String.prefix "NVML" label' = false ∧
              ∀ line smi,
                get_vram (set_backend g1 label).2 (Ok line) smi
                = (mk_gpu_state true 0 label', line, [])).
  { intros label Hpre Hdis g1. split; [done|]. intros label' [= <-].
    split; [done|]. split; [done|]. intros line smi.
    by rewrite get_vram_nvml_ok. }
  destruct (smi_name env) as [out|e1].
  { apply Hset; [done | done]. }
  destruct (drm_vendor env) as [vendor|e2].
  { destruct (String.eqb vendor "0x1002"); apply Hset; done. }
  destruct (String.eqb e2 "FileNotFoundError"); [apply Hset; done|].
  split; [done|]. intros label [=].
Qed.

Lemma init_gpu_name_failure_witness :
  let env := mk_gpu_env (Ok tt) (Raise "NVMLError")
                        (Ok "NVIDIA GeForce RTX 4090") (Raise "FileNotFoundError") in
  nvml_open env = Ok tt ∧ nvml_name env = Raise "NVMLError" ∧
  (init_gpu false env gpu_globals).1 = Ok "nvidia-smi (NVIDIA GeForce RTX 4090)" ∧
  get_vram (init_gpu false env gpu_globals).2 (Ok "812, 24564") (Ok "1, 2")
  = (mk_gpu_state true 0 "nvidia-smi (NVIDIA GeForce RTX 4090)",
     "812, 24564", []).
Proof.
  intros env. split; [reflexivity|]. split; [reflexivity|].
  split; [reflexivity|].
  destruct (init_gpu_name_failure env gpu_globals "NVMLError" eq_refl eq_refl)
    as [_ H].
  destruct (H "nvidia-smi (NVIDIA GeForce RTX 4090)" eq_refl) as (_ & _ & Hq).
  apply Hq.
Defined.

Lemma nvidia_smi_query_log smi :
  filter (fun l => is_switching l = true) (nvidia_smi_query smi).2 = []
  ∧ filter (fun l => is_query_failed l = true) (nvidia_smi_query smi).2 = [].
Proof.
  unfold nvidia_smi_query. destruct smi as [out|e]; [|done].
  by destruct (String.eqb out "").
Qed.

(** X14: whatever the queries of a run return, the line that announces
    the switch from NVML to nvidia-smi is printed at most once, and it
    is printed exactly in the runs that start on the direct binding and
    end on the nvidia-smi path. *)
Theorem switch_announced_once g qs :
  length (filter (fun l => is_switching l = true) (gpu_log g qs)) =
  if USE_NVML g && negb (USE_NVML (gpu_run g qs)) then 1%nat else 0%nat.
Proof.
  revert g. induction qs as [|[nvml smi] qs IH]; intros g.
  { cbn. by destruct (USE_NVML g). }
  cbn [gpu_log gpu_run]. rewrite filter_app, length_app, IH.
  destruct (nvidia_smi_query_log smi) as [Hsmi _].
  destruct (decide (GPU_BACKEND g = "disabled")) as [Hd|Hd].
  { rewrite (get_vram_disabled g nvml smi Hd). done. }
  destruct (USE_NVML g) eqn:Hn.
  - destruct nvml as [line|e].
    + rewrite (get_vram_nvml_ok g line smi Hn Hd). done.
    + pose proof (get_vram_nvml_fail g e smi Hn Hd) as Hst.
      unfold get_vram in *. apply String.eqb_neq in Hd. rewrite Hd, Hn in *.
      destruct (nvidia_smi_query smi) as [out log3]. cbn [snd] in Hsmi.
      destruct (NVML_FAIL_MAX <=? NVML_FAIL_COUNT g + 1)%Z;
        cbn [fst snd] in *; rewrite !filter_app, Hsmi;
        destruct (NVML_FAIL_COUNT g + 1 =? 1)%Z; cbn;
        rewrite ?gpu_run_stays_off by done; done.
  - pose proof (get_vram_stays_off g nvml smi Hn) as Hoff.
    rewrite Hoff. cbn [andb].
    unfold get_vram. apply String.eqb_neq in Hd. rewrite Hd, Hn.
    destruct (nvidia_smi_query smi) as [out log3]. cbn [snd] in *.
    by rewrite Hsmi.
Qed.

(* --------------------------------------------------------------------- *)
(*  correlate_events: order, edge cases, threshold and window            *)
(* --------------------------------------------------------------------- *)

Lemma omap_sublist {A B} (f g : A → option B) (l : list A) :
  (∀ a b, f a = Some b → g a = Some b) → sublist (omap f l) (omap g l).
Proof.
  intros Hfg. induction l as [|a l IH]; cbn; [constructor|].
  destruct (f a) as [b|] eqn:Ef.
  - rewrite (Hfg a b Ef). by constructor.
  - destruct (g a); [by constructor | done].
Qed.

Lemma omap_fmap_sublist {A B C} (f : A → option B) (g : A → option C)
    (h : B → C) (l : list A) :
  (∀ a b, f a = Some b → g a = Some (h b)) →
  sublist (h <$> omap f l) (omap g l).
Proof.
  intros Hfg. induction l as [|a l IH]; cbn; [constructor|].
  destruct (f a) as [b|] eqn:Ef; cbn.
  - rewrite (Hfg a b Ef). by constructor.
  - destruct (g a); [by constructor | done].
Qed.

Lemma sublist_filter {A} (P : A → Prop) `{∀ x, Decision (P x)} (l : list A) :
  sublist (filter P l) l.
Proof.
  induction l as [|x l IH]; [constructor|].
  rewrite filter_cons. destruct (decide (P x)); by constructor.
Qed.

Section correlate_more.
Variable float : string → option Q.
Variables (ts_col : nat) (val_col : option nat).

Lemma row_hit_shape events threshold window row ts val n :
  row_hit float events ts_col val_col threshold window row = Some (ts, val, n) →
  row !! ts_col ≫= float = Some ts ∧
  n = filter (fun e => in_window ts window e = true) events ∧ n ≠ [] ∧
  match threshold with Some thr => (thr <= val)%Q | None => True end.
Proof.
  unfold row_hit.
  destruct (length row <=? _)%nat; [done|].
  destruct (row !! ts_col ≫= float) as [ts'|]; cbn; [|done].
  destruct (match val_col with Some vc => _ | None => _ end) as [val'|];
    cbn; [|done].
  destruct (match threshold with Some thr => _ | None => _ end) eqn:Ethr;
    [done|].
  destruct (filter _ events) as [|e n'] eqn:En; [done|].
  intros [= <- <- <-]. split; [done|]. split; [done|]. split; [done|].
  destruct threshold as [thr|]; [|done]. by apply Qltb_ge.
Qed.

(** X15: the hits of correlate_events come in the order of the rows of
    the file, at most one per row and none for the header line, even
    when the header parses as numbers; every hit carries at least one
    event, and its events are those of the event list that lie in the
    window, in the order of the event list.  With no event, with no
    file, or with a file that holds the header only, there is no hit
    and nothing is printed. *)
Theorem correlate_events_in_file_order csv events threshold window :
  let result := correlate_events float csv events ts_col val_col
                  threshold window in
  (∀ header rows, csv = Some (header :: rows) →
     sublist (result.1.*1.*1) (omap (fun r => r !! ts_col ≫= float) rows) ∧
     (length result.1 ≤ length rows)%nat) ∧
  (∀ ts val n, (ts, val, n) ∈ result.1 →
     n ≠ [] ∧ sublist n events ∧
     ∀ e, e ∈ n ↔ e ∈ events ∧ (Qabs (e.1.1 - ts) <= window)%Q) ∧
  (events = [] ∨ csv = None ∨ (∃ header, csv = Some [header]) →
   result = ([], [])).
Proof.
  cbn zeta. split; [|split].
  - intros header rows ->. unfold correlate_events.
    destruct events as [|e0 evs]; [cbn; split; [apply sublist_nil_l | lia]|].
    cbn [fst]. split.
    + rewrite <- list_fmap_compose.
      apply omap_fmap_sublist. intros r [[ts val] n] Hr.
      by apply row_hit_shape in Hr as (Hts & _).
    + generalize (e0 :: evs). intros evs'.
      induction rows as [|r rows IH]; cbn; [lia|].
      destruct (row_hit _ _ _ _ _ _ r); cbn; lia.
  - intros ts val n Hin.
    assert (Hr : ∃ r, row_hit float events ts_col val_col threshold window r
                      = Some (ts, val, n)).
    { unfold correlate_events in Hin.
      destruct events as [|e0 evs]; [by apply elem_of_nil in Hin|].
      destruct csv as [[|header rows]|]; cbn in Hin;
        try (by apply elem_of_nil in Hin).
      apply list_elem_of_omap in Hin as (r & _ & Hr). by exists r. }
    destruct Hr as [r Hr].
    apply row_hit_shape in Hr as (_ & -> & Hne & _).
    split; [done|]. split; [apply sublist_filter|].
    intros e. rewrite list_elem_of_filter. unfold in_window.
    rewrite Qle_bool_iff. tauto.
  - intros [->|[->|[header ->]]]; unfold correlate_events.
    + done.
    + by destruct events.
    + by destruct events.
Qed.

(** X16: raising the threshold or narrowing the window of
    correlate_events never adds a hit: every hit of the stricter call
    is a hit of the laxer call on the same row, with the same timestamp
    and value, and its events are among the events of that hit; so the
    stricter call reports at most as many rows. *)
Theorem correlate_events_monotone csv events thr thr' window window'
    (Hthr : (thr <= thr')%Q) (Hwin : (window' <= window)%Q) :
  let lax := (correlate_events float csv events ts_col val_col
                (Some thr) window).1 in
  let strict := (correlate_events float csv events ts_col val_col
                   (Some thr') window').1 in
  sublist (strict.*1) (lax.*1) ∧
  (length strict ≤ length lax)%nat ∧
  ∀ ts val n', (ts, val, n') ∈ strict →
    ∃ n, (ts, val, n) ∈ lax ∧ sublist n' n.
Proof.
  cbn zeta.
  assert (Hrow : ∀ r ts val n',
            row_hit float events ts_col val_col (Some thr') window' r
              = Some (ts, val, n') →
            ∃ n, row_hit float events ts_col val_col (Some thr) window r
                   = Some (ts, val, n) ∧ sublist n' n).
  { intros r ts val n'. unfold row_hit.
    destruct (length r <=? _)%nat; [done|].
    destruct (r !! ts_col ≫= float) as [ts'|]; cbn; [|done].
    destruct (match val_col with Some vc => _ | None => _ end) as [val'|];
      cbn; [|done].
    destruct (Qltb val' thr') eqn:E'; [done|]. apply Qltb_ge in E'.
    assert (Qltb val' thr = false) as ->.
    { apply Qltb_ge. by apply Qle_trans with thr'. }
    destruct (filter _ events) as [|e n0] eqn:En'; [done|].
    intros [= <- <- <-].
    assert (Hsub : sublist (filter (fun e => in_window ts' window' e = true)
                              events)
                           (filter (fun e => in_window ts' window e = true)
                              events)).
    { clear En'. induction events as [|x evs IH]; [constructor|].
      rewrite !filter_cons.
      destruct (decide (in_window ts' window' x = true)) as [Hx|Hx].
      - rewrite decide_True; [by constructor|].
        unfold in_window in *. apply Qle_bool_iff.
        apply Qle_bool_iff in Hx. by apply Qle_trans with window'.
      - destruct (decide (in_window ts' window x = true));
          [by constructor | done]. }
    rewrite En' in Hsub.
    destruct (filter (fun e => in_window ts' window e = true) events)
      as [|e1 n1] eqn:En.
    { by apply sublist_nil_r in Hsub. }
    eexists. split; [reflexivity | done]. }
  unfold correlate_events.
  destruct events as [|e0 evs] eqn:Eev;
    [split; [constructor|]; split; [done|];
     intros ? ? ? Hin; by apply elem_of_nil in Hin|].
  rewrite <- Eev in *. clear Eev.
  destruct csv as [[|header rows]|]; cbn [fst].
  1,3: split; [constructor|]; split; [done|];
       intros ? ? ? Hin; by apply elem_of_nil in Hin.
  assert (Hsub : sublist
            ((omap (row_hit float events ts_col val_col (Some thr') window')
                rows).*1)
            ((omap (row_hit float events ts_col val_col (Some thr) window)
                rows).*1)).
  { clear -Hrow. induction rows as [|r rows IH]; cbn; [constructor|].
    destruct (row_hit _ _ _ _ (Some thr') _ r) as [[[ts val] n']|] eqn:E'.
    - destruct (Hrow _ _ _ _ E') as (n & -> & _). cbn. by constructor.
    - destruct (row_hit _ _ _ _ (Some thr) _ r); cbn;
        [by constructor | done]. }
  split; [exact Hsub|]. split.
  - apply sublist_length in Hsub. by rewrite !length_fmap in Hsub.
  - intros ts val n' Hin.
    apply list_elem_of_omap in Hin as (r & Hr & Hhit).
    destruct (Hrow _ _ _ _ Hhit) as (n & Hn & Hs).
    exists n. split; [|done]. apply list_elem_of_omap. by exists r.
Qed.
End correlate_more.

Lemma correlate_events_monotone_witness :
  let events : list xp_event :=
    [(101%Q, "DSF", "+47-123.dsf (812ms)"); (103%Q, "AIRPORT", "KSEA")] in
  let csv := Some [["timestamp"; "value"]; ["100"; "60"]; ["102"; "80"]] in
  (50 <= 70)%Q ∧ (1 <= 3)%Q ∧
  length (correlate_events float_of_digits csv events 0 (Some 1%nat)
            (Some 70%Q) 1%Q).1 = 1%nat ∧
  (length (correlate_events float_of_digits csv events 0 (Some 1%nat)
             (Some 70%Q) 1%Q).1
   ≤ length (correlate_events float_of_digits csv events 0 (Some 1%nat)
               (Some 50%Q) 3%Q).1)%nat.
Proof.
  intros events csv.
  assert (Hthr : (50 <= 70)%Q) by discriminate.
  assert (Hwin : (1 <= 3)%Q) by discriminate.
  split; [exact Hthr|]. split; [exact Hwin|]. split; [reflexivity|].
  apply (correlate_events_monotone float_of_digits 0 (Some 1%nat) csv events
           50%Q 70%Q 3%Q 1%Q Hthr Hwin).
Defined.

(* --------------------------------------------------------------------- *)
(*  sorted(l, key=...)                                                   *)
(* --------------------------------------------------------------------- *)

Section sorted_by_facts.
Context {A : Type}.
Variable key : A → Q.

Local Abbreviation key_le := (fun a b : A => (key a <= key b)%Q).

Lemma insert_by_perm (x : A) (l : list A) : insert_by key x l ≡ₚ x :: l.
Proof.
  induction l as [|y l IH]; cbn; [done|].
  destruct (Qle_bool (key x) (key y)); [done|].
  rewrite IH. apply perm_swap.
Qed.

Lemma sorted_by_cons (x : A) (l : list A) :
  sorted_by key (x :: l) = insert_by key x (sorted_by key l).
Proof. reflexivity. Qed.

Lemma sorted_by_perm (l : list A) : sorted_by key l ≡ₚ l.
Proof.
  induction l as [|x l IH]; [done|].
  rewrite sorted_by_cons, insert_by_perm. by constructor.
Qed.

Lemma insert_by_hd (x a : A) (l : list A) :
  (key a <= key x)%Q → HdRel key_le a l → HdRel key_le a (insert_by key x l).
Proof.
  intros Hax Hl. destruct l as [|y l]; cbn; [by constructor|].
  destruct (Qle_bool (key x) (key y)); constructor; [done|].
  by inversion Hl.
Qed.

Lemma insert_by_sorted (x : A) (l : list A) :
  Sorted key_le l → Sorted key_le (insert_by key x l).
Proof.
  induction 1 as [|y l Hs IH Hhd]; cbn; [by repeat constructor|].
  destruct (Qle_bool (key x) (key y)) eqn:E.
  - apply Qle_bool_iff in E. by repeat constructor.
  - constructor; [done|]. apply insert_by_hd; [|done].
    apply Qlt_le_weak, Qltb_lt. unfold Qltb. by rewrite E.
Qed.

Lemma sorted_by_sorted (l : list A) : Sorted key_le (sorted_by key l).
Proof.
  induction l as [|x l IH]; [constructor|].
  rewrite sorted_by_cons. by apply insert_by_sorted.
Qed.

Lemma sorted_by_strongly (l : list A) :
  StronglySorted key_le (sorted_by key l).
Proof.
  apply Sorted_StronglySorted; [|apply sorted_by_sorted].
  intros a b c. apply Qle_trans.
Qed.

Lemma strongly_sorted_before (l1 l2 : list A) (x y : A) :
  StronglySorted key_le (l1 ++ y :: l2) → x ∈ l1 → (key x <= key y)%Q.
Proof.
  induction l1 as [|a l1 IH]; intros Hs Hx; [by apply elem_of_nil in Hx|].
  cbn in Hs. apply StronglySorted_inv in Hs as [Hs Ha].
  apply elem_of_cons in Hx as [->|Hx]; [|by apply IH].
  rewrite Forall_forall in Ha. apply Ha.
  apply elem_of_app. right. apply elem_of_cons. by left.
Qed.

Lemma strongly_sorted_take (n : nat) (l : list A) :
  StronglySorted key_le l → StronglySorted key_le (take n l).
Proof.
  intros Hs. revert n. induction Hs as [|a l Hs IH Ha]; intros [|n]; cbn;
    try constructor.
  - apply IH.
  - by apply Forall_take.
Qed.

(* the head of the sorted list has the least key *)
Lemma sorted_by_head (l : list A) (x : A) (rest : list A) :
  sorted_by key l = x :: rest → ∀ y, y ∈ l → (key x <= key y)%Q.
Proof.
  intros Hl y Hy. rewrite <- (sorted_by_perm l), Hl in Hy.
  apply elem_of_cons in Hy as [->|Hy]; [apply Qle_refl|].
  pose proof (sorted_by_strongly l) as Hs. rewrite Hl in Hs.
  apply StronglySorted_inv in Hs as [_ Ha].
  rewrite Forall_forall in Ha. by apply Ha.
Qed.
End sorted_by_facts.

(* --------------------------------------------------------------------- *)
(*  _print_correlation_hits                                              *)
(* --------------------------------------------------------------------- *)

Lemma Qopp_le_rev (a b : Q) : (- a <= - b)%Q → (b <= a)%Q.
Proof.
  intros H. apply Qopp_le_compat in H. by rewrite !Qopp_involutive in H.
Qed.

Lemma strongly_sorted_sublist {A} (R : A → A → Prop) (k l : list A) :
  sublist k l → StronglySorted R l → StronglySorted R k.
Proof.
  induction 1 as [|x k l Hs IH|x k l Hs IH]; intros Hl.
  - constructor.
  - apply StronglySorted_inv in Hl as [Hl Hx]. constructor; [by apply IH|].
    rewrite Forall_forall in *. intros y Hy. apply Hx.
    by eapply elem_of_sublist.
  - apply StronglySorted_inv in Hl as [Hl _]. by apply IH.
Qed.

Lemma strongly_sorted_impl {A} (R R' : A → A → Prop) (l : list A) :
  (∀ a b, R a b → R' a b) → StronglySorted R l → StronglySorted R' l.
Proof.
  intros HR. induction 1 as [|a l Hs IH Ha]; constructor; [done|].
  eapply Forall_impl; [exact Ha | apply HR].
Qed.

(* what the loop prints: a selection of the hits it goes through, one
   for each second that is not yet seen, the first of its second *)
Lemma print_hits_loop_kept (seen : gset Z) (l : list hit) :
  ∃ kept,
    print_hits_loop seen l = to_line <$> kept ∧
    sublist kept l ∧
    NoDup (hit_key <$> kept) ∧
    (∀ k, k ∈ kept → hit_key k ∉ seen) ∧
    (∀ l1 h l2, l = l1 ++ h :: l2 → hit_key h ∉ seen →
       ∃ k, k ∈ kept ∧ hit_key k = hit_key h ∧ (k = h ∨ k ∈ l1)) ∧
    (∀ h rest, l = h :: rest → hit_key h ∉ seen → ∃ kr, kept = h :: kr).
Proof.
  revert seen. induction l as [|[[ts val] nearby] rest IH]; intros seen.
  { exists []. split; [done|]. split; [constructor|]. split; [constructor|].
    split; [by intros k Hk%elem_of_nil|].
    split; [by intros [|? ?] ? ? ?|]. done. }
  cbn [print_hits_loop]. set (h := (ts, val, nearby)).
  change (py_round ts) with (hit_key h).
  destruct (decide (hit_key h ∈ seen)) as [Hseen|Hnew].
  - destruct (IH seen) as (kept & Heq & Hsub & Hnd & Hns & Hall & _).
    exists kept. split; [done|]. split; [by constructor|].
    split; [done|]. split; [done|]. split.
    + intros [|x l1] h' l2 [= Hx Hl] Hk.
      * subst h'. done.
      * subst x. destruct (Hall l1 h' l2 Hl Hk) as (k & Hin & Hkey & Hpos).
        exists k. split; [done|]. split; [done|].
        destruct Hpos as [->|Hpos]; [by left|].
        right. apply elem_of_cons. by right.
    + intros h' rest' [= <- <-] Hk. done.
  - destruct (IH ({[hit_key h]} ∪ seen))
      as (kept & Heq & Hsub & Hnd & Hns & Hall & _).
    exists (h :: kept). split; [cbn; by rewrite Heq|].
    split; [by constructor|]. split.
    { cbn. constructor; [|done]. intros Hin.
      apply list_elem_of_fmap in Hin as (k & Hk & Hkin).
      apply (Hns k Hkin). rewrite <- Hk.
      apply elem_of_union. left. by apply elem_of_singleton. }
    split.
    { intros k [->|Hk]%elem_of_cons; [done|].
      intros Hin. apply (Hns k Hk), elem_of_union. by right. }
    split.
    + intros [|x l1] h' l2 [= Hx Hl] Hk.
      * subst h'. exists h. split; [apply elem_of_cons; by left|].
        split; [done | by left].
      * subst x. destruct (decide (hit_key h' = hit_key h)) as [Heqk|Hnek].
        -- exists h. split; [apply elem_of_cons; by left|].
           split; [done|]. right. apply elem_of_cons. by left.
        -- destruct (Hall l1 h' l2 Hl) as (k & Hin & Hkey & Hpos).
           { intros [Hx%elem_of_singleton|Hx]%elem_of_union; done. }
           exists k. split; [apply elem_of_cons; by right|].
           split; [done|]. destruct Hpos as [->|Hpos]; [by left|].
           right. apply elem_of_cons. by right.
    + intros h' rest' [= <- <-] _. by exists kept.
Qed.

(** X17: for a non-empty list of hits _print_correlation_hits prints
    hits only, at most max_hits of them and at most one for each
    rounded second, in descending order of value.  The hits are sorted
    by value and cut to max_hits before the seconds are compared, so
    what is printed is a selection of these first max_hits hits: every
    second among them is printed once, by its hit of largest value.
    When max_hits is positive the first line is a hit of largest
    value. *)
Theorem print_correlation_hits_lines hits max_hits (Hne : hits ≠ []) :
  ∃ kept,
    _print_correlation_hits hits max_hits = to_line <$> kept ∧
    sublist kept (top_hits hits max_hits) ∧
    (length kept ≤ max_hits)%nat ∧
    (∀ k, k ∈ kept → k ∈ hits) ∧
    NoDup (hit_key <$> kept) ∧
    StronglySorted (fun a b : hit => (b.1.2 <= a.1.2)%Q) kept ∧
    (∀ h, h ∈ top_hits hits max_hits →
       ∃ k, k ∈ kept ∧ hit_key k = hit_key h ∧ (h.1.2 <= k.1.2)%Q) ∧
    ((0 < max_hits)%nat →
       ∃ k rest, kept = k :: rest ∧ ∀ h, h ∈ hits → (h.1.2 <= k.1.2)%Q).
Proof.
  set (key := fun h : hit => (- h.1.2)%Q).
  assert (Htop : StronglySorted (fun a b : hit => (key a <= key b)%Q)
                   (top_hits hits max_hits)).
  { apply strongly_sorted_take, sorted_by_strongly. }
  destruct (print_hits_loop_kept ∅ (top_hits hits max_hits))
    as (kept & Heq & Hsub & Hnd & _ & Hall & Hhd).
  exists kept. split.
  { unfold _print_correlation_hits. by destruct hits. }
  split; [done|]. split.
  { apply sublist_length in Hsub. unfold top_hits in Hsub.
    rewrite length_take in Hsub. lia. }
  split.
  { intros k Hk. apply (elem_of_sublist _ _ _ Hk) in Hsub as Hk'. clear Hk.
    rename Hk' into Hk.
    unfold top_hits in Hk. apply elem_of_take in Hk as (i & Hi & _).
    rewrite <- (sorted_by_perm key hits). by eapply list_elem_of_lookup_2. }
  split; [done|]. split.
  { apply (strongly_sorted_impl (fun a b : hit => (key a <= key b)%Q)).
    - intros a b. apply Qopp_le_rev.
    - by apply (strongly_sorted_sublist _ _ _ Hsub). }
  split.
  { intros h Hh. apply list_elem_of_split in Hh as (l1 & l2 & Hl).
    destruct (Hall l1 h l2 Hl) as (k & Hin & Hkey & Hpos);
      [apply not_elem_of_empty|].
    exists k. split; [done|]. split; [done|].
    destruct Hpos as [->|Hpos]; [apply Qle_refl|].
    rewrite Hl in Htop. apply Qopp_le_rev.
    apply (strongly_sorted_before key l1 l2 k h Htop Hpos). }
  intros Hpos.
  destruct (sorted_by key hits) as [|k0 srest] eqn:Es.
  { exfalso. apply Hne. apply Permutation_nil_r.
    rewrite <- Es. symmetry. apply sorted_by_perm. }
  destruct max_hits as [|n]; [lia|].
  destruct (Hhd k0 (take n srest)) as [kr ->];
    [unfold top_hits; change (fun h : hit => (- h.1.2)%Q) with key;
     by rewrite Es | apply not_elem_of_empty|].
  exists k0, kr. split; [done|]. intros h Hh.
  apply Qopp_le_rev. apply (sorted_by_head key hits k0 srest Es h Hh).
Qed.

Lemma print_correlation_hits_lines_witness :
  let ev : list xp_event := [(101%Q, "DSF", "+47-123.dsf (812ms)")] in
  let hits : list hit :=
    [(100 # 1, 60 # 1, ev); (1004 # 10, 90 # 1, ev); (1021 # 10, 75 # 1, ev);
     (1002 # 10, 80 # 1, ev)]%Q in
  hits ≠ [] ∧
  _print_correlation_hits hits 3 =
    [HitLine (1004 # 10) (90 # 1) [("DSF", "+47-123.dsf (812ms)")];
     HitLine (1021 # 10) (75 # 1) [("DSF", "+47-123.dsf (812ms)")]] ∧
  ∃ kept, _print_correlation_hits hits 3 = to_line <$> kept ∧
          (length kept ≤ 3)%nat.
Proof.
  intros ev hits.
  assert (Hne : hits ≠ []) by discriminate.
  split; [exact Hne|]. split; [vm_compute; reflexivity|].
  destruct (print_correlation_hits_lines hits 3 Hne)
    as (kept & Heq & _ & Hlen & _).
  exists kept. split; [exact Heq | exact Hlen].
Defined.

(* --------------------------------------------------------------------- *)
(*  The rows of xplane_events.csv                                        *)
(* --------------------------------------------------------------------- *)

Lemma prefix_dquote (a : ascii) (s : string) :
  String.prefix dquote (String a s) = Ascii.eqb a (Ascii.ascii_of_nat 34).
Proof.
  unfold dquote. cbn [String.prefix].
  destruct (ascii_dec (Ascii.ascii_of_nat 34) a) as [<-|Hne].
  - by destruct s.
  - symmetry. apply Ascii.eqb_neq. congruence.
Qed.

Lemma str_replace_dquote_step (a : ascii) (s : string) :
  str_replace dquote squote (String a s) =
  if Ascii.eqb a (Ascii.ascii_of_nat 34)
  then String (Ascii.ascii_of_nat 39) (str_replace dquote squote s)
  else String a (str_replace dquote squote s).
Proof.
  unfold str_replace. cbn [str_replace_from]. by rewrite prefix_dquote.
Qed.

Lemma str_replace_dquote (s : string) :
  has_char (Ascii.ascii_of_nat 34) (str_replace dquote squote s) = false ∧
  (has_char (Ascii.ascii_of_nat 34) s = false →
   str_replace dquote squote s = s).
Proof.
  induction s as [|a s [IH1 IH2]]; [done|].
  rewrite str_replace_dquote_step. cbn [has_char].
  destruct (Ascii.eqb a (Ascii.ascii_of_nat 34)) eqn:E; cbn [has_char orb].
  - split; [by rewrite IH1 | done].
  - rewrite E. split; [done|]. cbn. intros H. by rewrite IH2.
Qed.

(** X18: the rows that correlate_xplane writes under the header of
    xplane_events.csv are the events of the log whose time lies from 5
    seconds before the start to 5 seconds after the end of the
    monitoring, each of them once, in ascending order of time; the
    second column is the time relative to the start of the monitoring,
    and the message between the double quotes holds no double quote
    itself and is the message of the log when that holds none. *)
Theorem xplane_events_rows_wellformed mon_start elapsed xp_events :
  let rows := xplane_events_rows mon_start elapsed xp_events in
  StronglySorted (fun a b => (a.1.1.1 <= b.1.1.1)%Q) rows ∧
  (∃ kept, kept ≡ₚ xp_in_window mon_start elapsed xp_events ∧
     rows = (fun e : xp_event =>
               (e.1.1, e.1.1 - mon_start, e.1.2,
                str_replace dquote squote e.2)%Q) <$> kept) ∧
  (∀ e, e ∈ xp_in_window mon_start elapsed xp_events ↔
        e ∈ xp_events ∧
        (mon_start - 5 <= e.1.1)%Q ∧ (e.1.1 <= mon_start + elapsed + 5)%Q) ∧
  (∀ ts rel cat msg, (ts, rel, cat, msg) ∈ rows →
     (mon_start - 5 <= ts)%Q ∧ (ts <= mon_start + elapsed + 5)%Q ∧
     rel = (ts - mon_start)%Q ∧
     has_char (Ascii.ascii_of_nat 34) msg = false ∧
     ∃ msg0, (ts, cat, msg0) ∈ xp_events ∧
             msg = str_replace dquote squote msg0 ∧
             (has_char (Ascii.ascii_of_nat 34) msg0 = false → msg = msg0)).
Proof.
  cbn zeta. unfold xplane_events_rows.
  set (win := xp_in_window mon_start elapsed xp_events).
  set (srt := sorted_by (fun e : xp_event => e.1.1) win).
  assert (Hwin : ∀ e, e ∈ win ↔
            e ∈ xp_events ∧
            (mon_start - 5 <= e.1.1)%Q ∧ (e.1.1 <= mon_start + elapsed + 5)%Q).
  { intros e. unfold win, xp_in_window. rewrite list_elem_of_filter.
    rewrite andb_true_iff, !Qle_bool_iff. tauto. }
  split; [|split; [|split]].
  - pose proof (sorted_by_strongly (fun e : xp_event => e.1.1) win) as Hs.
    fold srt in Hs. induction Hs as [|a l Hs IH Ha]; cbn; constructor.
    + exact IH.
    + rewrite Forall_fmap. eapply Forall_impl; [exact Ha|]. by intros b Hb.
  - exists srt. split; [apply sorted_by_perm | done].
  - exact Hwin.
  - intros ts rel cat msg Hin.
    apply list_elem_of_fmap in Hin as ([[ts0 cat0] msg0] & [= -> -> -> ->] & He).
    unfold srt in He. rewrite sorted_by_perm in He.
    apply Hwin in He as (He & Hlo & Hhi). cbn in Hlo, Hhi.
    destruct (str_replace_dquote msg0) as [Hno Hid].
    split; [done|]. split; [done|]. split; [done|]. split; [done|].
    exists msg0. done.
Qed.

(* --------------------------------------------------------------------- *)
(*  The readers: parse_interrupts, parse_vmstat, parse_cpu_freq          *)
(* --------------------------------------------------------------------- *)

Lemma dict_get_elem `{EqDecision K} {V} (k : K) (v : V) (d : list (K * V)) :
  dict_get k d = Some v → (k, v) ∈ d.
Proof.
  induction d as [|[k' v'] d IH]; cbn; [done|].
  destruct (decide (k = k')) as [->|Hne].
  - intros [= ->]. apply elem_of_cons. by left.
  - intros H. apply elem_of_cons. right. by apply IH.
Qed.

Lemma dict_set_keys `{EqDecision K} {V} (k : K) (v : V) (d : list (K * V)) :
  (dict_set k v d).*1 = if decide (k ∈ d.*1) then d.*1 else d.*1 ++ [k].
Proof.
  induction d as [|[k' v'] d IH]; cbn; [done|].
  destruct (decide (k = k')) as [->|Hne]; cbn.
  - rewrite decide_True; [done|]. apply elem_of_cons. by left.
  - rewrite IH. destruct (decide (k ∈ d.*1)) as [Hin|Hnin].
    + rewrite decide_True; [done|]. apply elem_of_cons. by right.
    + rewrite decide_False; [done|].
      intros [?|?]%elem_of_cons; done.
Qed.

Lemma dict_set_NoDup `{EqDecision K} {V} (k : K) (v : V) (d : list (K * V)) :
  NoDup d.*1 → NoDup (dict_set k v d).*1.
Proof.
  intros Hd. rewrite dict_set_keys. destruct (decide (k ∈ d.*1)); [done|].
  apply NoDup_app. split; [done|]. split.
  - intros x Hx [->|Hn]%elem_of_cons; [done | by apply elem_of_nil in Hn].
  - apply NoDup_singleton.
Qed.

Lemma dict_set_elem `{EqDecision K} {V} (k : K) (v : V) (d : list (K * V))
    (kv : K * V) :
  kv ∈ dict_set k v d → kv = (k, v) ∨ kv ∈ d.
Proof.
  induction d as [|[k' v'] d IH]; cbn.
  - intros [->|H]%elem_of_cons; [by left | by apply elem_of_nil in H].
  - destruct (decide (k = k')) as [->|Hne].
    + intros [->|H]%elem_of_cons; [by left|].
      right. apply elem_of_cons. by right.
    + intros [->|H]%elem_of_cons.
      * right. apply elem_of_cons. by left.
      * destruct (IH H) as [->|Hin]; [by left|].
        right. apply elem_of_cons. by right.
Qed.

Lemma dict_get_set `{EqDecision K} {V} (k k0 : K) (v : V) (d : list (K * V)) :
  dict_get k0 (dict_set k v d) = if decide (k0 = k) then Some v
                                 else dict_get k0 d.
Proof.
  induction d as [|[k' v'] d IH]; cbn.
  - destruct (decide (k0 = k)); done.
  - destruct (decide (k = k')) as [->|Hne]; cbn.
    + destruct (decide (k0 = k')); done.
    + rewrite IH. destruct (decide (k0 = k')) as [->|]; [|done].
      by rewrite decide_False.
Qed.

(* a loop whose body keeps an invariant and does not raise *)
Lemma foldM_invariant {A R} (f : R → A → outcome R) (I : R → Prop)
    (r : R) (l : list A) :
  I r → (∀ r a, I r → ∃ r', f r a = Ok r' ∧ I r') →
  ∃ r', foldM f r l = Ok r' ∧ I r'.
Proof.
  intros Hr Hf. revert r Hr. induction l as [|a l IH]; intros r Hr.
  - by exists r.
  - cbn. destruct (Hf r a Hr) as (r1 & -> & Hr1). cbn. by apply IH.
Qed.

Lemma interrupt_delta_long_enough (N : nat) prev curr :
  Forall (fun kv => (N ≤ length (counts kv.2))%nat) prev →
  Forall (fun kv => (N ≤ length (counts kv.2))%nat) curr →
  ∃ result, interrupt_delta N prev curr = Ok result.
Proof.
  intros Hp Hc. induction Hc as [|[k c] curr Hk Hc [rest IH]]; cbn;
    [by eexists|].
  destruct (dict_get k prev) as [p|] eqn:Ek; [|by eexists].
  apply dict_get_elem in Ek. rewrite Forall_forall in Hp.
  specialize (Hp _ Ek). cbn in Hp, Hk.
  rewrite (irq_deltas_ok N p c Hk Hp), IH. cbn.
  destruct (0 <? _)%Z; by eexists.
Qed.

Section readers_facts.
Variable NUM_CPUS : nat.
Variable int : string → option Z.

Local Abbreviation parse_interrupts := (Readers.parse_interrupts NUM_CPUS int).
Local Abbreviation parse_vmstat := (Readers.parse_vmstat int).

Lemma irq_counts_total (parts : list string) (k n : nat) :
  ∃ cs, mapM (fun i => catch ["ValueError"; "IndexError"]
                         (py_index parts i ≫= Readers.py_int int) (Ok 0%Z))
             (seq k n) = Ok cs ∧ length cs = n.
Proof.
  revert k. induction n as [|n IH]; intros k; [by exists []|].
  cbn [seq mapM]. destruct (IH (S k)) as (cs & -> & Hlen).
  assert (Hone : ∃ z, catch ["ValueError"; "IndexError"]
                        (py_index parts k ≫= Readers.py_int int) (Ok 0%Z)
                      = Ok z).
  { unfold py_index, Readers.py_int.
    destruct (parts !! k) as [s|]; cbn; [|by eexists].
    destruct (int s); cbn; by eexists. }
  destruct Hone as [z ->]. cbn. exists (z :: cs). by rewrite <- Hlen.
Qed.

Lemma parse_interrupts_line_total result line :
  NoDup result.*1 →
  Forall (fun kv => length (counts kv.2) = NUM_CPUS) result →
  ∃ r', Readers.parse_interrupts_line NUM_CPUS int result line = Ok r' ∧
        NoDup r'.*1 ∧
        Forall (fun kv => length (counts kv.2) = NUM_CPUS) r'.
Proof.
  intros Hnd Hall. unfold Readers.parse_interrupts_line.
  destruct (length (py_split line) <? NUM_CPUS + 1)%nat eqn:E;
    [by exists result|].
  apply Nat.ltb_ge in E.
  destruct (py_split line) as [|p0 parts] eqn:Ep; [cbn in E; lia|].
  cbn [py_index lookup list_lookup mbind outcome_bind].
  destruct (irq_counts_total (p0 :: parts) 1 NUM_CPUS) as (cs & -> & Hlen).
  cbn [mbind outcome_bind]. eexists. split; [reflexivity|].
  split; [by apply dict_set_NoDup|].
  apply Forall_forall. intros kv [->|Hin]%dict_set_elem; [done|].
  rewrite Forall_forall in Hall. by apply Hall.
Qed.

(** X19: on a text that was read, parse_interrupts never raises; its
    result names no interrupt twice and gives every interrupt exactly
    NUM_CPUS counts, a count that is missing or is not an integer being
    0.  Hence interrupt_delta never raises on two snapshots that
    parse_interrupts returned. *)
Theorem parse_interrupts_total text1 text2 :
  ∃ prev curr result,
    parse_interrupts (Ok text1) = Ok prev ∧
    parse_interrupts (Ok text2) = Ok curr ∧
    NoDup prev.*1 ∧
    Forall (fun kv => length (counts kv.2) = NUM_CPUS) prev ∧
    interrupt_delta NUM_CPUS prev curr = Ok result.
Proof.
  assert (Hparse : ∀ text, ∃ r, parse_interrupts (Ok text) = Ok r ∧
            NoDup r.*1 ∧
            Forall (fun kv => length (counts kv.2) = NUM_CPUS) r).
  { intros text. unfold Readers.parse_interrupts. cbn [mbind outcome_bind].
    apply (foldM_invariant _
             (fun r => NoDup r.*1 ∧
                       Forall (fun kv => length (counts kv.2) = NUM_CPUS) r)).
    - split; constructor.
    - intros r line [Hnd Hall].
      by apply parse_interrupts_line_total. }
  destruct (Hparse text1) as (prev & Hp & Hnd & Hlp).
  destruct (Hparse text2) as (curr & Hc & _ & Hlc).
  destruct (interrupt_delta_long_enough NUM_CPUS prev curr) as [result Hr].
  { eapply Forall_impl; [exact Hlp|]. intros kv ->. done. }
  { eapply Forall_impl; [exact Hlc|]. intros kv ->. done. }
  by exists prev, curr, result.
Qed.

Lemma parse_vmstat_line_spec result line :
  NoDup result.*1 →
  ∃ r', Readers.parse_vmstat_line int result line = Ok r' ∧
        NoDup r'.*1 ∧
        ∀ k, dict_get k r' =
             match vmstat_value int k [line] with
             | Some v => Some v
             | None => dict_get k result
             end.
Proof.
  intros Hnd. unfold Readers.parse_vmstat_line, vmstat_value.
  cbn [omap list_omap].
  destruct (py_split line) as [|k' [|s [|x parts]]] eqn:Ep; cbn [length Nat.eqb].
  1,2,4: exists result; split; [done|]; split; [done|]; done.
  unfold py_index, Readers.py_int. cbn [lookup list_lookup mbind outcome_bind].
  destruct (int s) as [v|] eqn:Es; cbn [mbind outcome_bind catch].
  - eexists. split; [reflexivity|]. split; [by apply dict_set_NoDup|].
    intros k. rewrite dict_get_set.
    destruct (decide (k = k')) as [->|Hne].
    + by rewrite String.eqb_refl.
    + apply String.eqb_neq in Hne. by rewrite Hne.
  - rewrite decide_True by (apply elem_of_cons; by left).
    exists result. split; [done|]. split; [done|]. intros k.
    by destruct (String.eqb k k').
Qed.

Lemma foldM_vmstat result lines :
  NoDup result.*1 →
  ∃ r', foldM (Readers.parse_vmstat_line int) result lines = Ok r' ∧
        NoDup r'.*1 ∧
        ∀ k, dict_get k r' =
             match vmstat_value int k lines with
             | Some v => Some v
             | None => dict_get k result
             end.
Proof.
  revert result. induction lines as [|line lines IH]; intros result Hnd.
  { exists result. split; [done|]. split; [done|]. done. }
  cbn [foldM].
  destruct (parse_vmstat_line_spec result line Hnd) as (r1 & -> & Hnd1 & H1).
  cbn [mbind outcome_bind].
  destruct (IH r1 Hnd1) as (r' & -> & Hnd' & H').
  exists r'. split; [done|]. split; [done|]. intros k.
  rewrite H', H1. change (line :: lines) with ([line] ++ lines).
  unfold vmstat_value at 3. rewrite omap_app.
  fold (vmstat_value int k lines).
  destruct (vmstat_value int k lines) as [v|] eqn:Ev.
  - unfold vmstat_value in Ev.
    destruct (omap _ lines) as [|x xs] eqn:Eo; [done|].
    rewrite last_app. cbn in Ev. by rewrite Ev.
  - unfold vmstat_value in Ev.
    destruct (omap _ lines) as [|x xs] eqn:Eo.
    + rewrite app_nil_r. fold (vmstat_value int k [line]). done.
    + exfalso. clear -Ev. revert x Ev.
      induction xs as [|y xs IH]; intros x; cbn; [done|]. apply IH.
Qed.

(** X20: on a text that was read, parse_vmstat never raises; its result
    names no counter twice, and the value it gives for a name is the
    integer of the last line that consists of that name and an integer,
    lines of another shape being skipped; a name with no such line is
    not in the result. *)
Theorem parse_vmstat_total text :
  ∃ r, parse_vmstat (Ok text) = Ok r ∧ NoDup r.*1 ∧
       ∀ k, dict_get k r = vmstat_value int k (splitlines text).
Proof.
  unfold Readers.parse_vmstat. cbn [mbind outcome_bind].
  destruct (foldM_vmstat [] (splitlines text)) as (r & Hr & Hnd & Hget);
    [constructor|].
  exists r. split; [done|]. split; [done|]. intros k. rewrite Hget.
  by destruct (vmstat_value int k (splitlines text)).
Qed.
End readers_facts.

Lemma mapM_outcome_length {A B} (f : A → outcome B) (l : list A) (r : list B) :
  mapM f l = Ok r → length r = length l.
Proof.
  intros H. apply mapM_outcome_Ok in H. symmetry. by eapply Forall2_length.
Qed.

Lemma mapM_outcome_lookup {A B} (f : A → outcome B) (l : list A) (r : list B)
    (i : nat) (a : A) :
  mapM f l = Ok r → l !! i = Some a → ∃ b, r !! i = Some b ∧ f a = Ok b.
Proof.
  intros H Hi. apply mapM_outcome_Ok in H.
  destruct (Forall2_lookup_l _ _ _ _ _ H Hi) as (b & Hb & Hf). by exists b.
Qed.

Lemma mapM_outcome_all_Ok {A B} (f : A → outcome B) (l : list A) :
  (∀ a, a ∈ l → ∃ b, f a = Ok b) → ∃ r, mapM f l = Ok r.
Proof.
  induction l as [|a l IH]; intros Hf; [by eexists|].
  cbn. destruct (Hf a) as [b ->]; [apply elem_of_cons; by left|].
  destruct IH as [r ->]; [|by eexists].
  intros a' Ha'. apply Hf, elem_of_cons. by right.
Qed.

(* the samples that the block of freq.csv adds to stats.freq[i] *)
Lemma freq_samples (i k : nat) (freqs : list Q) :
  stat_values (freq_stat i)
    (mjoin (imap (fun j fq => if Qltb 0 fq
                              then [Append (freq_stat (k + j)) fq] else [])
                 freqs))
  = if decide (k ≤ i)%nat
    then match freqs !! (i - k)%nat with
         | Some fq => if Qltb 0 fq then [fq] else []
         | None => []
         end
    else [].
Proof.
  revert k. induction freqs as [|fq freqs IH]; intros k.
  { cbn. by destruct (decide _). }
  rewrite imap_cons. cbn [mjoin list_join].
  rewrite stat_values_app.
  rewrite (imap_ext _ (fun j fq => if Qltb 0 fq
                                   then [Append (freq_stat (S k + j)) fq]
                                   else [])).
  2:{ intros j x _. cbn. by rewrite Nat.add_succ_r. }
  etrans; [apply (f_equal (app _)), (IH (S k))|].
  rewrite Nat.add_0_r.
  destruct (decide (k ≤ i)%nat) as [Hle|Hgt].
  - destruct (decide (k = i)) as [->|Hne].
    + rewrite Nat.sub_diag, decide_False by lia. cbn [lookup list_lookup].
      destruct (Qltb 0 fq); [|done].
      rewrite stat_values_cons_append, decide_True by done. done.
    + rewrite decide_True by lia.
      replace (i - k)%nat with (S (i - S k)) by lia. cbn [lookup list_lookup].
      destruct (Qltb 0 fq); [|done].
      rewrite stat_values_cons_append, decide_False by (intros [=]; lia).
      done.
  - rewrite decide_False by lia.
    destruct (Qltb 0 fq); [|done].
    rewrite stat_values_cons_append, decide_False by (intros [=]; lia).
    done.
Qed.

Lemma csv_rows_imap {A} (f : stream) (g : nat → A → list effect)
    (l : list A) :
  (∀ j x, csv_rows f (g j x) = []) → csv_rows f (mjoin (imap g l)) = [].
Proof.
  revert g. induction l as [|x l IH]; intros g Hg; [done|].
  rewrite imap_cons. cbn [mjoin list_join].
  rewrite csv_rows_app, Hg, IH; [done|]. intros j y. apply Hg.
Qed.

Section cpu_freq_facts.
Variable NUM_CPUS : nat.
Variable int : string → option Z.
Variable subclass : string → string → bool.

Local Abbreviation parse_cpu_freq :=
  (Readers.parse_cpu_freq NUM_CPUS int subclass).
Local Abbreviation skipped :=
  (Readers.caught subclass
     ["FileNotFoundError"; "PermissionError"; "ValueError"]).

(* the frequency that parse_cpu_freq gives for one CPU *)
Lemma cpu_freq_one (rd : outcome string) :
  match (raw ← rd;
         khz ← Readers.py_int int (py_strip raw);
         Ok (inject_Z khz / 1000)%Q) with
  | Ok mhz => Ok mhz
  | Raise e => if skipped e then Ok 0%Q else Raise e
  end =
  match rd with
  | Ok raw =>
      match int (py_strip raw) with
      | Some khz => Ok (inject_Z khz / 1000)%Q
      | None => Ok 0%Q
      end
  | Raise e => if skipped e then Ok 0%Q else Raise e
  end.
Proof.
  destruct rd as [raw|e]; [|done]. cbn. unfold Readers.py_int.
  destruct (int (py_strip raw)); [done|]. cbn [mbind outcome_bind].
  unfold Readers.caught, existsb. rewrite String.eqb_refl. cbn [orb].
  by rewrite !orb_true_r.
Qed.

(** X21: parse_cpu_freq returns one frequency for each of the NUM_CPUS
    CPUs as long as no frequency file fails with an exception other
    than FileNotFoundError, PermissionError or ValueError.  A CPU whose
    file is missing, is not readable or holds no integer gets the
    frequency 0; the sampling block then writes one row of 1 + NUM_CPUS
    cells to freq.csv with 0 in the column of that CPU, and adds no
    sample for it to stats.freq. *)
Theorem parse_cpu_freq_row (read : nat → outcome string) (ts : Q)
    (Hread : ∀ i e, (i < NUM_CPUS)%nat → read i = Raise e → skipped e = true) :
  ∃ freqs,
    parse_cpu_freq read = Ok freqs ∧ length freqs = NUM_CPUS ∧
    let o := (try_except "CPU freq sample"
                (sample_freq ts (parse_cpu_freq read)) tt).2 in
    csv_rows freq_csv o = [CNum ts :: map CNum freqs] ∧
    ∀ i, (i < NUM_CPUS)%nat →
      match read i with
      | Ok raw =>
          match int (py_strip raw) with
          | Some khz =>
              freqs !! i = Some (inject_Z khz / 1000)%Q ∧
              stat_values (freq_stat i) o =
                if Qltb 0 (inject_Z khz / 1000) then [inject_Z khz / 1000]%Q
                else []
          | None => freqs !! i = Some 0%Q ∧ stat_values (freq_stat i) o = []
          end
      | Raise _ => freqs !! i = Some 0%Q ∧ stat_values (freq_stat i) o = []
      end.
Proof.
  assert (Hok : ∃ freqs, parse_cpu_freq read = Ok freqs).
  { unfold Readers.parse_cpu_freq. apply mapM_outcome_all_Ok.
    intros i Hi%elem_of_seq. rewrite cpu_freq_one.
    destruct (read i) as [raw|e] eqn:Er.
    - destruct (int (py_strip raw)); by eexists.
    - rewrite (Hread i e) by (done || lia). by eexists. }
  destruct Hok as [freqs Hfreqs]. exists freqs.
  split; [done|].
  assert (Hlen : length freqs = NUM_CPUS).
  { unfold Readers.parse_cpu_freq in Hfreqs.
    apply mapM_outcome_length in Hfreqs. by rewrite length_seq in Hfreqs. }
  split; [done|]. cbn zeta. rewrite Hfreqs.
  unfold try_except, sample_freq.
  rewrite blk_lift_bind, blk_emit_bind. cbn [emits fst snd].
  split.
  { unfold write_freq. rewrite csv_rows_cons_csv, decide_True by done.
    f_equal. apply csv_rows_imap. intros j fq. by destruct (Qltb 0 fq). }
  intros i Hi. unfold write_freq. rewrite stat_values_cons_csv.
  pose proof (freq_samples i 0 freqs) as Hs. cbn [Nat.add] in Hs.
  rewrite Hs, decide_True, Nat.sub_0_r by lia. clear Hs.
  unfold Readers.parse_cpu_freq in Hfreqs.
  destruct (mapM_outcome_lookup _ _ _ i i Hfreqs) as (fq & Hfq & Hone).
  { apply lookup_seq_lt. lia. }
  rewrite cpu_freq_one in Hone. rewrite Hfq.
  destruct (read i) as [raw|e] eqn:Er.
  - destruct (int (py_strip raw)) as [khz|]; injection Hone as <-; done.
  - rewrite (Hread i e Hi Er) in Hone. injection Hone as <-. done.
Qed.
End cpu_freq_facts.

Lemma parse_cpu_freq_row_witness :
  let read := fun i : nat => match i with
                             | O => Ok ("3600000" +:+ nl)
                             | _ => Raise "FileNotFoundError"
                             end in
  let no_subclass := fun _ _ : string => false in
  let o := (try_except "CPU freq sample"
              (sample_freq 1700000000
                 (Readers.parse_cpu_freq 2 int_of_digits no_subclass read))
              tt).2 in
  (∀ i e, (i < 2)%nat → read i = Raise e →
     Readers.caught no_subclass
       ["FileNotFoundError"; "PermissionError"; "ValueError"] e = true) ∧
  ∃ freqs,
    Readers.parse_cpu_freq 2 int_of_digits no_subclass read = Ok freqs ∧
    freqs !! 1%nat = Some 0%Q ∧
    length (csv_rows freq_csv o) = 1%nat ∧
    length (stat_values (freq_stat 0) o) = 1%nat ∧
    stat_values (freq_stat 1) o = [].
Proof.
  intros read no_subclass o.
  assert (Hread : ∀ i e, (i < 2)%nat → read i = Raise e →
            Readers.caught no_subclass
              ["FileNotFoundError"; "PermissionError"; "ValueError"] e = true).
  { intros [|[|i]] e Hi; [done | by intros [= <-] | lia]. }
  split; [exact Hread|].
  destruct (parse_cpu_freq_row 2 int_of_digits no_subclass read 1700000000 Hread)
    as (freqs & Hfreqs & _ & _ & Hcpu).
  exists freqs. split; [exact Hfreqs|].
  destruct (Hcpu 1%nat ltac:(lia)) as [H1 H1s].
  split; [exact H1|]. split; [vm_compute; reflexivity|].
  split; [vm_compute; reflexivity|]. exact H1s.
Defined.

(* --------------------------------------------------------------------- *)
(*  read_proc_stats: the fields after the command name                   *)
(* --------------------------------------------------------------------- *)

Lemma index_char_app (c : ascii) (pre s : string) :
  has_char c pre = true → is_Some (index_char c (pre +:+ s)).
Proof.
  induction pre as [|a pre IH]; [done|].
  simpl. destruct (Ascii.eqb a c); [intros _; by eexists|]. simpl. intros H.
  destruct (IH H) as [i Hi]. rewrite Hi. by eexists.
Qed.

Lemma rindex_char_none (c : ascii) (s : string) :
  has_char c s = false → rindex_char c s = None.
Proof.
  induction s as [|a s IH]; [done|]. simpl.
  destruct (Ascii.eqb a c); [done|]. simpl. intros H. by rewrite IH.
Qed.

Lemma rindex_char_app (c : ascii) (pre rest : string) :
  has_char c rest = false →
  rindex_char c (pre +:+ String c rest) = Some (String.length pre).
Proof.
  intros Hrest. induction pre as [|a pre IH]; simpl.
  - by rewrite (rindex_char_none c rest Hrest), Ascii.eqb_refl.
  - by rewrite IH.
Qed.

Section read_proc_stats_facts.
Variable int : string → option Z.
Variable subclass : string → string → bool.

Local Abbreviation stat_fields := (Readers.stat_fields int).
Local Abbreviation read_proc_stats := (Readers.read_proc_stats int subclass).

Lemma stat_fields_after_comm (pre rest : string) (c : ascii) :
  has_char "("%char pre = true →
  has_char ")"%char (String c rest) = false →
  stat_fields (pre +:+ String ")"%char (String c rest)) =
    (let fields := py_split rest in
     utime ← py_index fields 11 ≫= Readers.py_int int;
     stime ← py_index fields 12 ≫= Readers.py_int int;
     num_threads ← py_index fields 17 ≫= Readers.py_int int;
     Ok (utime, stime, num_threads)).
Proof.
  intros Hopen Hrest. unfold Readers.stat_fields.
  destruct (index_char_app "("%char pre (String ")"%char (String c rest)) Hopen)
    as [i ->].
  rewrite (rindex_char_app ")"%char pre (String c rest) Hrest).
  cbn [mbind outcome_bind].
  assert (Hdrop : str_drop (String.length pre + 2)
                    (pre +:+ String ")"%char (String c rest)) = rest).
  { clear. induction pre as [|a pre IH]; [done|]. exact IH. }
  by rewrite Hdrop.
Qed.

(** X22: read_proc_stats takes the CPU times and the thread count of a
    process from the fields after the last closing parenthesis of its
    stat line: when the text before that parenthesis holds an opening
    one, the result does not depend on that text, so a command name
    with blanks or parentheses of its own cannot shift the fields;
    utime, stime and num_threads are the 12th, 13th and 18th field
    after the command name. *)
Theorem read_proc_stats_ignores_comm (pid pre pre' rest : string) (c : ascii)
    (io status : outcome string)
    (Hopen : has_char "("%char pre = true)
    (Hopen' : has_char "("%char pre' = true)
    (Hrest : has_char ")"%char (String c rest) = false) :
  read_proc_stats pid (Ok (pre +:+ String ")"%char (String c rest))) io status
  = read_proc_stats pid (Ok (pre' +:+ String ")"%char (String c rest)))
      io status ∧
  ∀ ps, (read_proc_stats pid
           (Ok (pre +:+ String ")"%char (String c rest))) io status).1
        = Ok (Some ps) →
    ∃ s11 s12 s17,
      py_split rest !! 11%nat = Some s11 ∧ int s11 = Some (utime ps) ∧
      py_split rest !! 12%nat = Some s12 ∧ int s12 = Some (stime ps) ∧
      py_split rest !! 17%nat = Some s17 ∧ int s17 = Some (num_threads ps).
Proof.
  unfold Readers.read_proc_stats. cbn [mbind outcome_bind].
  rewrite !stat_fields_after_comm by done.
  split; [done|]. intros ps. cbn zeta.
  unfold py_index, Readers.py_int.
  destruct (py_split rest !! 11%nat) as [s11|] eqn:E11; cbn [mbind outcome_bind];
    [|by destruct (Readers.caught _ _ _)].
  destruct (int s11) as [u|] eqn:Eu; cbn [mbind outcome_bind];
    [|by destruct (Readers.caught _ _ _)].
  destruct (py_split rest !! 12%nat) as [s12|] eqn:E12; cbn [mbind outcome_bind];
    [|by destruct (Readers.caught _ _ _)].
  destruct (int s12) as [s|] eqn:Es; cbn [mbind outcome_bind];
    [|by destruct (Readers.caught _ _ _)].
  destruct (py_split rest !! 17%nat) as [s17|] eqn:E17; cbn [mbind outcome_bind];
    [|by destruct (Readers.caught _ _ _)].
  destruct (int s17) as [n|] eqn:En; cbn [mbind outcome_bind];
    [|by destruct (Readers.caught _ _ _)].
  cbn [fst].
  destruct (match io with Ok _ => _ | Raise _ => _ end) as [[rb wb]|e];
    cbn [mbind outcome_bind]; [|done].
  destruct (match status ≫= _ with Ok _ => _ | Raise _ => _ end) as [rss|e];
    cbn [mbind outcome_bind]; [|done].
  intros [= <-]. by exists s11, s12, s17.
Qed.
End read_proc_stats_facts.

Lemma read_proc_stats_ignores_comm_witness :
  let tail := " S 1 4242 4242 0 -1 4194304 100 0 0 0 560 110 0 0 20 0 40 0 "
              +:+ "12345 1000000 256000" in
  let no_subclass := fun _ _ : string => false in
  has_char "("%char "4242 (X-Plane (beta) x86" = true ∧
  has_char "("%char "4242 (X-Plane" = true ∧
  has_char ")"%char tail = false ∧
  (Readers.read_proc_stats int_of_digits no_subclass "4242"
     (Ok ("4242 (X-Plane (beta) x86" +:+ ")" +:+ tail))
     (Raise "PermissionError") (Raise "FileNotFoundError")).1
  = Ok (Some (mk_proc_stats 560 110 40 0 0 0)) ∧
  Readers.read_proc_stats int_of_digits no_subclass "4242"
    (Ok ("4242 (X-Plane (beta) x86" +:+ ")" +:+ tail))
    (Raise "PermissionError") (Raise "FileNotFoundError")
  = Readers.read_proc_stats int_of_digits no_subclass "4242"
      (Ok ("4242 (X-Plane" +:+ ")" +:+ tail))
      (Raise "PermissionError") (Raise "FileNotFoundError").
Proof.
  intros tail no_subclass.
  split; [reflexivity|]. split; [reflexivity|]. split; [reflexivity|].
  split; [vm_compute; reflexivity|].
  apply (read_proc_stats_ignores_comm int_of_digits no_subclass "4242"
           "4242 (X-Plane (beta) x86" "4242 (X-Plane"
           ("S 1 4242 4242 0 -1 4194304 100 0 0 0 560 110 0 0 20 0 40 0 "
            +:+ "12345 1000000 256000") " "%char
           (Raise "PermissionError") (Raise "FileNotFoundError")
           eq_refl eq_refl eq_refl).
Defined.

(* --------------------------------------------------------------------- *)
(*  The memory block and the IO block of an iteration                    *)
(* --------------------------------------------------------------------- *)

(** X23: the memory block writes its row exactly when /proc/meminfo has
    the seven keys MemTotal, MemFree, MemAvailable, Buffers, Cached,
    SwapTotal and SwapFree.  The row then holds the values in MB, with
    used = total - free - buffers - cached and swap used = swap total -
    swap free, and a missing Dirty or Writeback counts as 0.  When one
    of the seven keys is missing the block writes nothing, adds no
    sample and prints one error line. *)
Theorem memory_block_needs_seven_keys (ts : Q) (mi : list (string * Z)) :
  let o := (try_except "Memory sample" (sample_mem ts (Ok mi)) tt).2 in
  let mb := fun k => (inject_Z (dict_get0 mi k) / 1024)%Q in
  (Forall (fun k => is_Some (dict_get k mi)) mem_required →
   o = [write_mem ts (mb "MemTotal")
          (mb "MemTotal" - mb "MemFree" - mb "Buffers" - mb "Cached")
          (mb "MemFree") (mb "MemAvailable") (mb "Buffers") (mb "Cached")
          (mb "SwapTotal" - mb "SwapFree") (mb "SwapFree")
          (mb "Dirty") (mb "Writeback");
        Append (mem_stat "used")
          (mb "MemTotal" - mb "MemFree" - mb "Buffers" - mb "Cached");
        Append (mem_stat "avail") (mb "MemAvailable");
        Append (mem_stat "swap_used") (mb "SwapTotal" - mb "SwapFree");
        Append (mem_stat "dirty") (mb "Dirty");
        Append (mem_stat "writeback") (mb "Writeback")]%Q) ∧
  (¬ Forall (fun k => is_Some (dict_get k mi)) mem_required →
   o = [Print (ErrorLine "Memory sample" "KeyError")]).
Proof.
  cbn zeta. unfold mem_required, try_except, sample_mem.
  rewrite blk_lift_bind. unfold dict_item, dict_get0.
  split.
  - intros Hall. rewrite !Forall_cons in Hall.
    destruct Hall as ([v1 H1] & [v2 H2] & [v3 H3] & [v4 H4] & [v5 H5]
                      & [v6 H6] & [v7 H7] & _).
    rewrite H1, H2, H3, H4, H5, H6, H7. reflexivity.
  - intros Hnot.
    repeat match goal with
    | |- context [dict_get ?k mi] =>
        lazymatch k with
        | "Dirty" => fail
        | "Writeback" => fail
        | _ => idtac
        end;
        let E := fresh "E" in
        destruct (dict_get k mi) eqn:E; cbn [fmap outcome_fmap];
        rewrite ?blk_lift_bind; [|reflexivity]
    end.
    exfalso. apply Hnot. by repeat constructor.
Qed.

Lemma printed_app (o1 o2 : list effect) :
  printed (o1 ++ o2) = printed o1 ++ printed o2.
Proof. unfold printed. apply omap_app. Qed.

Lemma for_each_appends {S A} (f : A → blk S unit) (g : A → list effect)
    (l : list A) (s : S) :
  (∀ a s, f a s = (Ok tt, s, g a)) →
  for_each f l s = (Ok tt, s, mjoin (g <$> l)).
Proof.
  intros Hf. induction l as [|a l IH]; [done|].
  cbn [for_each]. unfold mbind, blk_bind. rewrite Hf, IH. done.
Qed.

Lemma diskstat_delta_keys prev curr dt result :
  diskstat_delta prev curr dt = Ok result →
  result.*1 = filter (fun dev => is_Some (dict_get dev prev)) (curr.*1).
Proof.
  revert result. induction curr as [|[dev c] curr IH]; intros result Hres.
  { by injection Hres as <-. }
  cbn in Hres. rewrite fmap_cons, filter_cons. cbn [fst].
  destruct (dict_get dev prev) as [p|] eqn:E.
  - destruct (diskstat_delta_core p c dt) as [v|e]; cbn in Hres; [|done].
    destruct (diskstat_delta prev curr dt) as [rest|e]; cbn in Hres; [|done].
    injection Hres as <-. rewrite decide_True by done.
    rewrite fmap_cons. cbn [fst]. f_equal. by apply IH.
  - rewrite decide_False by (by intros [? ?]). by apply IH.
Qed.

Section io_block.
Variable NUM_CPUS : nat.
Variable CLK_TCK : Z.
Variable float : string → option Q.

Local Abbreviation step := (collect_step NUM_CPUS CLK_TCK float).
Local Abbreviation block := (block_output NUM_CPUS CLK_TCK float).

(* prev_disk after an iteration *)
Lemma collect_step_prev_disk st e :
  prev_disk (step st e) =
    if block_runs io_csv st e
    then (try_except "IO sample"
            (sample_disk (ts e) (now_mono e - prev_time st)
                         (parse_diskstats e))
            (prev_disk st)).1
    else prev_disk st.
Proof.
  unfold block_runs, collect_step. cbn [slow_tier negb orb].
  destruct (Qltb (now_mono e - prev_time st) (5 # 100)); [done|].
  cbn [negb andb].
  destruct (try_except "CPU sample" _ _) as [[pc cc] o_cpu].
  destruct (try_except "IO sample" _ _) as [pd o_disk].
  destruct (try_except "Memory sample" _ _) as [[] o_mem].
  destruct (Qle_bool 1 (now_mono e - last_slow st)); [|done].
  unfold slow_probes.
  destruct (try_except "IRQ sample" _ _) as [[pi ic] o_irq].
  destruct (try_except "VRAM sample" _ _) as [g' o_vram].
  destruct (try_except "vmstat sample" _ _) as [[pv pcx] o_vmstat].
  destruct (try_except "PSI sample" _ _) as [[] o_psi].
  destruct (try_except "CPU freq sample" _ _) as [[] o_freq].
  destruct (try_except "Process tracking" _ _) as [t' o_proc].
  done.
Qed.

(** X24: in an iteration that is not dropped the elapsed time is at
    least 0.05 s, so diskstat_delta cannot divide by zero there: when
    parse_diskstats returns, the IO block prints no error, appends for
    every device of the new snapshot that the previous one has, in the
    order of the new snapshot, its row and its five samples, and the
    new snapshot becomes the previous one. *)
Theorem io_block_cannot_fail_on_deltas st e curr
    (Hruns : block_runs io_csv st e = true)
    (Hparse : parse_diskstats e = Ok curr) :
  ∃ dd,
    diskstat_delta (prev_disk st) curr (now_mono e - prev_time st) = Ok dd ∧
    dd.*1 = filter (fun dev => is_Some (dict_get dev (prev_disk st)))
                   (curr.*1) ∧
    block io_csv st e = mjoin (io_appends (ts e) <$> dd) ∧
    printed (block io_csv st e) = [] ∧
    prev_disk (step st e) = curr.
Proof.
  assert (Hdt : ¬ (now_mono e - prev_time st == 0)%Q).
  { unfold block_runs in Hruns. cbn [slow_tier negb orb] in Hruns.
    rewrite andb_true_r in Hruns. apply negb_true_iff, Qltb_ge in Hruns.
    apply Qpos_nonzero. eapply Qlt_le_trans; [|exact Hruns]. reflexivity. }
  destruct (diskstat_delta_returns (prev_disk st) curr _ Hdt) as [dd Hdd].
  exists dd. split; [done|].
  split; [by apply (diskstat_delta_keys _ _ _ _ Hdd)|].
  assert (Hblk : try_except "IO sample"
                   (sample_disk (ts e) (now_mono e - prev_time st)
                                (parse_diskstats e)) (prev_disk st)
                 = (curr, mjoin (io_appends (ts e) <$> dd))).
  { unfold try_except, sample_disk. rewrite Hparse.
    rewrite blk_lift_bind, blk_get_bind, Hdd, blk_lift_bind.
    unfold mbind, blk_bind.
    rewrite (for_each_appends _ (io_appends (ts e))).
    - cbn. by rewrite app_nil_r.
    - by intros [dev v] s. }
  split; [unfold block_output; by rewrite Hblk|].
  split.
  - unfold block_output. rewrite Hblk. cbn [snd].
    clear. induction dd as [|[dev v] dd IH]; [done|].
    rewrite fmap_cons.
    change (mjoin (io_appends (ts e) (dev, v) :: (io_appends (ts e) <$> dd)))
      with (io_appends (ts e) (dev, v) ++ mjoin (io_appends (ts e) <$> dd)).
    rewrite printed_app, IH. done.
  - by rewrite collect_step_prev_disk, Hruns, Hblk.
Qed.
End io_block.

Lemma io_block_cannot_fail_on_deltas_witness :
  let e := Sample.tick 1001 (Ok (Sample.cpu_b, 5400%Z)) (fun _ => Ok None) in
  block_runs io_csv Sample.start e = true ∧
  parse_diskstats e = Ok Sample.disk_b ∧
  printed (block_output Sample.NUM_CPUS Sample.CLK_TCK float_of_digits
             io_csv Sample.start e) = [] ∧
  prev_disk (Sample.step Sample.start e) = Sample.disk_b.
Proof.
  intros e. split; [reflexivity|]. split; [reflexivity|].
  destruct (io_block_cannot_fail_on_deltas Sample.NUM_CPUS Sample.CLK_TCK
              float_of_digits Sample.start e Sample.disk_b eq_refl eq_refl)
    as (dd & _ & _ & _ & Hp & Hd).
  split; [exact Hp | exact Hd].
Defined.

(* --------------------------------------------------------------------- *)
(*  One source does not reach another                                    *)
(* --------------------------------------------------------------------- *)

Section sources.
Variable NUM_CPUS : nat.
Variable CLK_TCK : Z.
Variable float : string → option Q.

Local Abbreviation step := (collect_step NUM_CPUS CLK_TCK float).
Local Abbreviation block := (block_output NUM_CPUS CLK_TCK float).

(** X25: for every source other than vmstat, what one iteration adds to
    the CSV file and to the Stats lists of the source depends on the
    clock and on the readers of that source only: two iterations from
    the same state that differ in what the readers of the other sources
    return or raise write the same rows and the same samples for it. *)
Theorem sources_are_isolated f st e1 e2
    (Hf : f ≠ vmstat_csv)
    (Hin : same_input f e1 e2) :
  csv_rows f (out (step st e1)) = csv_rows f (out (step st e2)) ∧
  ∀ l, effect_source (Append l 0) = Some f →
       stat_values l (out (step st e1)) = stat_values l (out (step st e2)).
Proof.
  split; [by apply rows_depend_on_own_source|].
  intros l Hl. rewrite !(collect_step_stats _ _ _ l f) by done.
  rewrite (block_output_same_input NUM_CPUS CLK_TCK float f st e1 e2 Hin)
    by done.
  destruct Hin as (Hn & _ & _). unfold block_runs. by rewrite Hn.
Qed.
End sources.

Lemma sources_are_isolated_witness :
  let e1 := Sample.tick 1001 (Ok (Sample.cpu_b, 5400%Z)) (fun _ => Ok None) in
  let e2 := Sample.tick 1001 (Raise "OSError")
              (fun _ => Raise "PermissionError") in
  io_csv ≠ vmstat_csv ∧ same_input io_csv e1 e2 ∧
  csv_rows io_csv (out (Sample.step Sample.start e1))
  = csv_rows io_csv (out (Sample.step Sample.start e2)).
Proof.
  intros e1 e2.
  assert (Hf : io_csv ≠ vmstat_csv) by discriminate.
  assert (Hin : same_input io_csv e1 e2) by (by repeat split).
  split; [exact Hf|]. split; [exact Hin|].
  apply (sources_are_isolated Sample.NUM_CPUS Sample.CLK_TCK float_of_digits
           io_csv Sample.start e1 e2 Hf Hin).
Defined.

(* --------------------------------------------------------------------- *)
(*  print_summary on the Stats of a run                                  *)
(* --------------------------------------------------------------------- *)

Lemma mapM_id_ok (vals : list (outcome Q)) :
  Forall (fun v : outcome Q => ∃ q, v = Ok q) vals → ∃ vs, mapM id vals = Ok vs.
Proof.
  intros H. apply mapM_outcome_all_Ok. intros v Hv.
  rewrite Forall_forall in H. destruct (H v Hv) as [q ->]. by exists q.
Qed.

Lemma prints_all_ok ps : all_ok ps → (prints ps).2 = None.
Proof.
  induction 1 as [|[label vals] ps Hv Hps IH]; [done|].
  cbn [prints]. destruct (mapM_id_ok vals Hv) as [vs ->].
  destruct (prints ps) as [ls r]. done.
Qed.














Section summary.
Variable NUM_CPUS : nat.
Variable CLK_TCK : Z.
Variable float : string → option Q.

Local Abbreviation run := (collect NUM_CPUS CLK_TCK float).




End summary.


Lemma prints_first_line ps label vals e :
  mapM id vals = Raise e → all_ok ps →
  ∀ rest, (prints (ps ++ (label, vals) :: rest)).2 = Some e.
Proof.
  intros He Hps rest. induction Hps as [|[l vs] ps Hv Hps IH]; cbn [app prints].
  - by rewrite He.
  - destruct (mapM_id_ok vs Hv) as [qs ->].
    destruct (prints (ps ++ (label, vals) :: rest)) as [ls r]. exact IH.
Qed.

(** X27: the GPU section of the summary raises exactly when stats.gpu
    has used-memory samples and no utilisation sample, and then with a
    StatisticsError of the mean over the empty utilisation list: the
    section tests the used-memory list only before it takes the mean of
    both.  A run of the sampling loop can leave the Stats in that case:
    it is enough that the fifth field of every VRAM line does not
    parse. *)
Theorem gpu_section_raises_iff :
  (∀ o : list effect,
     ((_print_gpu o).2 ≠ None ↔
      stat_values (gpu_stat "used") o ≠ []
      ∧ stat_values (gpu_stat "util") o = [])
     ∧ (∀ e, (_print_gpu o).2 = Some e → e = "StatisticsError")) ∧
  (_print_gpu (out (Sample.run Sample.start
                      [tick_util_na 1001; tick_util_na 1002]))).2
  = Some "StatisticsError".
Proof.
  split; [|by vm_compute]. intros o.
  unfold _print_gpu.
  destruct (stat_values (gpu_stat "used") o) as [|u us] eqn:Eu.
  { split; [|done]. split; [done | by intros [? _]]. }
  assert (Hused : all_ok
            [("GPU / VRAM", ([] : list (outcome Q)));
             ("VRAM Used", [py_mean (u :: us); py_min_of (u :: us);
                            py_max_of (u :: us)])]).
  { repeat first [ apply Forall_nil_2 | apply Forall_cons_2; cbn [snd]
                 | by eexists ]. }
  destruct (stat_values (gpu_stat "util") o) as [|x xs] eqn:Ex.
  - pose proof (prints_first_line _ "GPU Util"
                  [py_mean []; py_min_of []; py_max_of []] "StatisticsError"
                  eq_refl Hused) as Hp.
    cbn [app] in Hp |- *. rewrite Hp. split; [|by intros e [= <-]].
    split; [done | by intros _].
  - rewrite prints_all_ok.
    { split; [|done]. split; [done | by intros [_ ?]]. }
    apply Forall_cons_2; [constructor|].
    apply Forall_app. split.
    { repeat first [ apply Forall_nil_2 | apply Forall_cons_2; cbn [snd]
                   | by eexists ]. }
    apply Forall_app. split.
    + destruct (stat_values (gpu_stat "clock") o); [constructor|].
      repeat first [ apply Forall_nil_2 | apply Forall_cons_2; cbn [snd]
                   | by eexists ].
    + destruct (stat_values (gpu_stat "power") o); [constructor|].
      repeat first [ apply Forall_nil_2 | apply Forall_cons_2; cbn [snd]
                   | by eexists ].
Qed.
